(** * dump1090 (serial-port Mode S decoder): a shallow embedding of dump1090.c

    The development follows the C source function by function.  C [int]s
    and [uint32_t]s are integers in [Z] (wrap-around is written out where
    the source relies on it), [unsigned char] buffers are lists of [Z]
    indexed by [nat] (reads through stdpp's total lookup, writes through
    its list insert: the source reads and writes inside its buffers, so
    what these do out of range plays no part), [double]s are the kernel's
    binary64 floats, and the process-wide [Modes] record is passed
    explicitly. *)

From Stdlib Require Import ZArith List Bool Lia Floats String Ascii.
From stdpp Require Import base list numbers pmap.

Set Warnings "-inexact-float,-abstract-large-number".

Local Open Scope Z_scope.

(** ** Constants of the source *)

Definition MODES_LONG_MSG_BITS : nat := 112.
Definition MODES_SHORT_MSG_BITS : nat := 56.
Definition MODES_LONG_MSG_BYTES : nat := 14.
Definition MODES_SHORT_MSG_BYTES : nat := 7.
Definition MODES_ICAO_CACHE_LEN : Z := 1024.
Definition MODES_ICAO_CACHE_TTL : Z := 60.
Definition MODES_UNIT_FEET : Z := 0.
Definition MODES_UNIT_METERS : Z := 1.
Definition MODES_CLIENT_BUF_SIZE : nat := 1024.

(** ** The CRC engine *)

(** [modes_checksum_table]: one 24-bit entry per message bit. *)
Definition modes_checksum_table : list Z :=
  [ 0x3935ea; 0x1c9af5; 0xf1b77e; 0x78dbbf; 0xc397db; 0x9e31e9; 0xb0e2f0; 0x587178;
    0x2c38bc; 0x161c5e; 0x0b0e2f; 0xfa7d13; 0x82c48d; 0xbe9842; 0x5f4c21; 0xd05c14;
    0x682e0a; 0x341705; 0xe5f186; 0x72f8c3; 0xc68665; 0x9cb936; 0x4e5c9b; 0xd8d449;
    0x939020; 0x49c810; 0x24e408; 0x127204; 0x093902; 0x049c81; 0xfdb444; 0x7eda22;
    0x3f6d11; 0xe04c8c; 0x702646; 0x381323; 0xe3f395; 0x8e03ce; 0x4701e7; 0xdc7af7;
    0x91c77f; 0xb719bb; 0xa476d9; 0xadc168; 0x56e0b4; 0x2b705a; 0x15b82d; 0xf52612;
    0x7a9309; 0xc2b380; 0x6159c0; 0x30ace0; 0x185670; 0x0c2b38; 0x06159c; 0x030ace;
    0x018567; 0xff38b7; 0x80665f; 0xbfc92b; 0xa01e91; 0xaff54c; 0x57faa6; 0x2bfd53;
    0xea04ad; 0x8af852; 0x457c29; 0xdd4410; 0x6ea208; 0x375104; 0x1ba882; 0x0dd441;
    0xf91024; 0x7c8812; 0x3e4409; 0xe0d800; 0x706c00; 0x383600; 0x1c1b00; 0x0e0d80;
    0x0706c0; 0x038360; 0x01c1b0; 0x00e0d8; 0x00706c; 0x003836; 0x001c1b; 0xfff409;
    0x000000; 0x000000; 0x000000; 0x000000; 0x000000; 0x000000; 0x000000; 0x000000;
    0x000000; 0x000000; 0x000000; 0x000000; 0x000000; 0x000000; 0x000000; 0x000000;
    0x000000; 0x000000; 0x000000; 0x000000; 0x000000; 0x000000; 0x000000; 0x000000 ].

(** [1 << (7 - j%8)]: the mask of message bit [j] inside its byte. *)
Definition bitmask (j : nat) : Z := Z.shiftl 1 (Z.of_nat (7 - j mod 8)).

(** One iteration of the loop of [modesChecksum]. *)
Definition checksum_step (msg : list Z) (offset : nat) (crc : Z) (j : nat) : Z :=
  if Z.land (msg !!! (j / 8)%nat) (bitmask j) =? 0
  then crc
  else Z.lxor crc (modes_checksum_table !!! (j + offset)%nat).

(** [modesChecksum(msg, bits)].  The table has 112 entries: with 112 bits
    (offset 0) and with 56 bits (offset 56), the two lengths of a frame,
    every index [j + offset] falls inside it. *)
Definition modesChecksum (msg : list Z) (bits : nat) : Z :=
  let offset := if (bits =? 112)%nat then 0%nat else (112 - 56)%nat in
  fold_left (checksum_step msg offset) (seq 0 bits) 0.

(** [modesMessageLenByType(type)]. *)
Definition modesMessageLenByType (type : Z) : nat :=
  if (type =? 16) || (type =? 17) || (type =? 19) || (type =? 20) || (type =? 21)
  then MODES_LONG_MSG_BITS
  else MODES_SHORT_MSG_BITS.

(** The 24 bits stored in the last three bytes of a [bits]-bit buffer
    (the expression the source repeats at each CRC comparison). *)
Definition trailing_crc (aux : list Z) (bits : nat) : Z :=
  Z.lor (Z.lor (Z.shiftl (aux !!! (bits / 8 - 3)%nat) 16)
               (Z.shiftl (aux !!! (bits / 8 - 2)%nat) 8))
        (aux !!! (bits / 8 - 1)%nat).

(** [memcpy(dst, src, n)] on buffers at least [n] bytes long. *)
Definition memcpy (dst src : list Z) (n : nat) : list Z :=
  take n src ++ drop n dst.

(** [aux[j/8] ^= 1 << (7 - j%8)]. *)
Definition flip_bit (aux : list Z) (j : nat) : list Z :=
  <[(j / 8)%nat := Z.lxor (aux !!! (j / 8)%nat) (bitmask j)]> aux.

(** [fixSingleBitErrors]: the loop from [j], with [fuel] iterations left.
    The scratch array [aux] is the copied prefix of [bits/8] bytes: its
    remaining bytes are never read.  Returns the error bit (or -1) and
    the buffer [msg] as the call leaves it. *)
Fixpoint fixSingleBitErrors_loop (msg : list Z) (bits fuel j : nat) : Z * list Z :=
  match fuel with
  | O => (-1, msg)
  | S fuel' =>
      let aux := flip_bit (take (bits / 8) msg) j in
      let crc1 := trailing_crc aux bits in
      let crc2 := modesChecksum aux bits in
      if crc1 =? crc2
      then (Z.of_nat j, memcpy msg aux (bits / 8))
      else fixSingleBitErrors_loop msg bits fuel' (S j)
  end.

Definition fixSingleBitErrors (msg : list Z) (bits : nat) : Z * list Z :=
  fixSingleBitErrors_loop msg bits bits 0.

(** [fixTwoBitsErrors]: the inner loop over [i], for a fixed [j]. *)
Fixpoint fixTwoBitsErrors_inner (msg : list Z) (bits j fuel i : nat)
  : option (Z * list Z) :=
  match fuel with
  | O => None
  | S fuel' =>
      let aux := flip_bit (flip_bit (take (bits / 8) msg) j) i in
      let crc1 := trailing_crc aux bits in
      let crc2 := modesChecksum aux bits in
      if crc1 =? crc2
      then Some (Z.lor (Z.of_nat j) (Z.shiftl (Z.of_nat i) 8),
                 memcpy msg aux (bits / 8))
      else fixTwoBitsErrors_inner msg bits j fuel' (S i)
  end.

Fixpoint fixTwoBitsErrors_loop (msg : list Z) (bits fuel j : nat) : Z * list Z :=
  match fuel with
  | O => (-1, msg)
  | S fuel' =>
      match fixTwoBitsErrors_inner msg bits j (bits - (j + 1)) (j + 1) with
      | Some r => r
      | None => fixTwoBitsErrors_loop msg bits fuel' (S j)
      end
  end.

Definition fixTwoBitsErrors (msg : list Z) (bits : nat) : Z * list Z :=
  fixTwoBitsErrors_loop msg bits bits 0.

(** Scenario frame [*8D4840D6202CC371C32CE0576098;] as bytes. *)
Definition frame_klm : list Z :=
  [0x8D; 0x48; 0x40; 0xD6; 0x20; 0x2C; 0xC3; 0x71; 0xC3; 0x2C; 0xE0; 0x57; 0x60; 0x98].

(** ** The ICAO recency cache *)

(** A [uint32_t] result: reduction modulo 2^32. *)
Definition u32 (z : Z) : Z := z mod 2 ^ 32.

(** [ICAOCacheHashAddress(a)]. *)
Definition ICAOCacheHashAddress (a : Z) : Z :=
  let a := u32 (Z.lxor (Z.shiftr a 16) a * 0x45d9f3b) in
  let a := u32 (Z.lxor (Z.shiftr a 16) a * 0x45d9f3b) in
  let a := Z.lxor (Z.shiftr a 16) a in
  Z.land a (MODES_ICAO_CACHE_LEN - 1).

(** [Modes.icao_cache] as [modesInit] leaves it: 2 * 1024 zeroed words. *)
Definition icao_cache_init : list Z := replicate 2048 0.

(** [addRecentlySeenICAOAddr(addr)], with [now] the value of [time(NULL)];
    the timestamp is stored through a cast to [uint32_t]. *)
Definition addRecentlySeenICAOAddr (addr now : Z) (icao_cache : list Z) : list Z :=
  let h := Z.to_nat (ICAOCacheHashAddress addr) in
  <[(h * 2 + 1)%nat := u32 now]> (<[(h * 2)%nat := addr]> icao_cache).

(** [ICAOAddressWasRecentlySeen(addr)], with [now] the value of
    [time(NULL)]: [a && a == addr && time(NULL)-t <= MODES_ICAO_CACHE_TTL].
    ([time_t] is a signed 64-bit integer: the difference does not wrap.) *)
Definition ICAOAddressWasRecentlySeen (addr now : Z) (icao_cache : list Z) : bool :=
  let h := Z.to_nat (ICAOCacheHashAddress addr) in
  let a := icao_cache !!! (h * 2)%nat in
  let t := icao_cache !!! (h * 2 + 1)%nat in
  negb (a =? 0) && (a =? addr) && (now - t <=? MODES_ICAO_CACHE_TTL).

(** ** Conversions between [int] and [double] *)

(** An [int] converted to [double] (exact below 2^53). *)
Definition double_of_int (z : Z) : float :=
  match z with
  | Z0 => 0%float
  | Zpos _ => PrimFloat.of_uint63 (Uint63.of_Z z)
  | Zneg p => PrimFloat.opp (PrimFloat.of_uint63 (Uint63.of_Z (Zpos p)))
  end.

(** A [double] stored into an [int]: truncation toward zero.  (The
    conversion of a NaN or an infinity is undefined in C; here it gives 0.) *)
Definition int_of_double (f : float) : Z :=
  match Prim2SF f with
  | S754_finite s m e =>
      let v := if 0 <=? e then Z.shiftl (Zpos m) e else Z.shiftr (Zpos m) (- e) in
      if s then - v else v
  | _ => 0
  end.

(** [floor(f)] stored into an [int]. *)
Definition floor_int (f : float) : Z :=
  match Prim2SF f with
  | S754_finite s m e =>
      let v := if s then Zneg m else Zpos m in
      if 0 <=? e then Z.shiftl v e else Z.shiftr v (- e)
  | _ => 0
  end.

(** ** The frame decoder *)

(** [struct modesMessage]. *)
Record modesMessage := {
  mm_msg : list Z;            (* Binary message. *)
  mm_msgbits : nat;           (* Number of bits in message *)
  mm_msgtype : Z;             (* Downlink format # *)
  mm_crcok : bool;            (* True if CRC was valid *)
  mm_crc : Z;                 (* Message CRC *)
  mm_errorbit : Z;            (* Bit corrected. -1 if no bit corrected. *)
  mm_aa1 : Z; mm_aa2 : Z; mm_aa3 : Z;
  mm_phase_corrected : Z;
  mm_ca : Z;
  mm_metype : Z;
  mm_mesub : Z;
  mm_heading_is_valid : Z;
  mm_heading : Z;
  mm_aircraft_type : Z;
  mm_fflag : Z;               (* 1 = Odd, 0 = Even CPR message. *)
  mm_tflag : Z;
  mm_raw_latitude : Z;
  mm_raw_longitude : Z;
  mm_flight : string;         (* 8 chars flight number. *)
  mm_ew_dir : Z;
  mm_ew_velocity : Z;
  mm_ns_dir : Z;
  mm_ns_velocity : Z;
  mm_vert_rate_source : Z;
  mm_vert_rate_sign : Z;
  mm_vert_rate : Z;
  mm_velocity : Z;            (* Computed from EW and NS velocity. *)
  mm_fs : Z;
  mm_dr : Z;
  mm_um : Z;
  mm_identity : Z;            (* 13 bits identity (Squawk). *)
  mm_altitude : Z;
  mm_unit : Z
}.

(** [bruteForceAP(msg, mm)]: [Some (aa1, aa2, aa3)] stands for the return
    value 1 together with the three address bytes it stores in [mm];
    [None] for the return value 0. *)
Definition bruteForceAP (msg : list Z) (msgtype : Z) (msgbits : nat)
    (now : Z) (icao_cache : list Z) : option (Z * Z * Z) :=
  if (msgtype =? 0) || (msgtype =? 4) || (msgtype =? 5) || (msgtype =? 16) ||
     (msgtype =? 20) || (msgtype =? 21) || (msgtype =? 24)
  then
    let lastbyte := (msgbits / 8 - 1)%nat in
    let aux := take (msgbits / 8) msg in
    let crc := modesChecksum aux msgbits in
    let aux := <[lastbyte := Z.lxor (aux !!! lastbyte) (Z.land crc 0xff)]> aux in
    let aux := <[(lastbyte - 1)%nat :=
                   Z.lxor (aux !!! (lastbyte - 1)%nat) (Z.land (Z.shiftr crc 8) 0xff)]> aux in
    let aux := <[(lastbyte - 2)%nat :=
                   Z.lxor (aux !!! (lastbyte - 2)%nat) (Z.land (Z.shiftr crc 16) 0xff)]> aux in
    let addr := Z.lor (Z.lor (aux !!! lastbyte) (Z.shiftl (aux !!! (lastbyte - 1)%nat) 8))
                      (Z.shiftl (aux !!! (lastbyte - 2)%nat) 16) in
    if ICAOAddressWasRecentlySeen addr now icao_cache
    then Some (aux !!! (lastbyte - 2)%nat, aux !!! (lastbyte - 1)%nat, aux !!! lastbyte)
    else None
  else None.

(** [decodeAC13Field(msg, &unit)]: the altitude and the unit it stores. *)
Definition decodeAC13Field (msg : list Z) : Z * Z :=
  let m_bit := Z.land (msg !!! 3%nat) (Z.shiftl 1 6) in
  let q_bit := Z.land (msg !!! 3%nat) (Z.shiftl 1 4) in
  if m_bit =? 0 then
    if negb (q_bit =? 0) then
      let n := Z.lor (Z.lor (Z.lor (Z.shiftl (Z.land (msg !!! 2%nat) 31) 6)
                                   (Z.shiftr (Z.land (msg !!! 3%nat) 0x80) 2))
                            (Z.shiftr (Z.land (msg !!! 3%nat) 0x20) 1))
                     (Z.land (msg !!! 3%nat) 15) in
      (n * 25 - 1000, MODES_UNIT_FEET)
    else (0, MODES_UNIT_FEET)
  else (0, MODES_UNIT_METERS).

(** [decodeAC12Field(msg, &unit)]: the altitude, and the unit when it is
    stored ([None]: [*unit] is left as it was). *)
Definition decodeAC12Field (msg : list Z) : Z * option Z :=
  let q_bit := Z.land (msg !!! 5%nat) 1 in
  if negb (q_bit =? 0) then
    let n := Z.lor (Z.shiftl (Z.shiftr (msg !!! 5%nat) 1) 4)
                   (Z.shiftr (Z.land (msg !!! 6%nat) 0xF0) 4) in
    (n * 25 - 1000, Some MODES_UNIT_FEET)
  else (0, None).

(** The squawk block of [decodeModesMessage]: [a*1000 + b*100 + c*10 + d]
    from the interleaved bits of [msg[2]] and [msg[3]]. *)
Definition decode_identity (msg2 msg3 : Z) : Z :=
  let a := Z.lor (Z.lor (Z.shiftr (Z.land msg3 0x80) 5)
                        (Z.shiftr (Z.land msg2 0x02) 0))
                 (Z.shiftr (Z.land msg2 0x08) 3) in
  let b := Z.lor (Z.lor (Z.shiftl (Z.land msg3 0x02) 1)
                        (Z.shiftr (Z.land msg3 0x08) 2))
                 (Z.shiftr (Z.land msg3 0x20) 5) in
  let c := Z.lor (Z.lor (Z.shiftl (Z.land msg2 0x01) 2)
                        (Z.shiftr (Z.land msg2 0x04) 1))
                 (Z.shiftr (Z.land msg2 0x10) 4) in
  let d := Z.lor (Z.lor (Z.shiftl (Z.land msg3 0x01) 2)
                        (Z.shiftr (Z.land msg3 0x04) 1))
                 (Z.shiftr (Z.land msg3 0x10) 4) in
  a * 1000 + b * 100 + c * 10 + d.

Definition ais_charset : string :=
  "?ABCDEFGHIJKLMNOPQRSTUVWXYZ????? ???????????????0123456789??????".

(** [ais_charset[i]]. *)
Definition ais_char (i : Z) : ascii :=
  match String.get (Z.to_nat i) ais_charset with
  | Some c => c
  | None => "000"%char
  end.

(** The eight characters of the identification message. *)
Definition decode_flight (msg : list Z) : string :=
  let b (i : nat) := msg !!! i in
  String (ais_char (Z.shiftr (b 5%nat) 2))
  (String (ais_char (Z.lor (Z.shiftl (Z.land (b 5%nat) 3) 4) (Z.shiftr (b 6%nat) 4)))
  (String (ais_char (Z.lor (Z.shiftl (Z.land (b 6%nat) 15) 2) (Z.shiftr (b 7%nat) 6)))
  (String (ais_char (Z.land (b 7%nat) 63))
  (String (ais_char (Z.shiftr (b 8%nat) 2))
  (String (ais_char (Z.lor (Z.shiftl (Z.land (b 8%nat) 3) 4) (Z.shiftr (b 9%nat) 4)))
  (String (ais_char (Z.lor (Z.shiftl (Z.land (b 9%nat) 15) 2) (Z.shiftr (b 10%nat) 6)))
  (String (ais_char (Z.land (b 10%nat) 63)) EmptyString))))))).

(** [mm->velocity = sqrt(ns*ns + ew*ew)]: the [int] sum is converted to
    [double], [sqrt] is IEEE 754's, and the assignment to an [int]
    truncates. *)
Definition decode_velocity (ew_velocity ns_velocity : Z) : Z :=
  int_of_double
    (PrimFloat.sqrt
       (double_of_int (ns_velocity * ns_velocity + ew_velocity * ew_velocity))).

Definition M_PI : float := 3.14159265358979323846%float.

(** The repair step of [decodeModesMessage]: from [mm->errorbit = -1] to
    the end of the block guarded by [!mm->crcok && Modes.fix_errors && ...].
    Returns [errorbit], the buffer, [crc] and [crcok]. *)
Definition decode_repair (fix_errors aggressive : bool) (msg : list Z)
    (msgtype : Z) (msgbits : nat) (crc0 : Z) (crcok0 : bool)
  : Z * list Z * Z * bool :=
  if negb crcok0 && fix_errors && ((msgtype =? 11) || (msgtype =? 17)) then
    let '(e1, m1) := fixSingleBitErrors msg msgbits in
    if negb (e1 =? -1) then (e1, m1, modesChecksum m1 msgbits, true)
    else if aggressive && (msgtype =? 17) then
      let '(e2, m2) := fixTwoBitsErrors m1 msgbits in
      if negb (e2 =? -1) then (e2, m2, modesChecksum m2 msgbits, true)
      else (e2, m2, crc0, crcok0)
    else (e1, m1, crc0, crcok0)
  else (-1, msg, crc0, crcok0).

Section Decoder.

(** libm's [atan2], the one function of the decoder that is not in the
    source file: it only feeds the [heading] field. *)
Variable atan2 : float -> float -> float.

(** The heading of a velocity message of subtype 1 or 2. *)
Definition decode_heading (velocity ew_dir ew_velocity ns_dir ns_velocity : Z) : Z :=
  if negb (velocity =? 0) then
    let ewv := if negb (ew_dir =? 0) then ew_velocity * -1 else ew_velocity in
    let nsv := if negb (ns_dir =? 0) then ns_velocity * -1 else ns_velocity in
    let heading := atan2 (double_of_int ewv) (double_of_int nsv) in
    let h := int_of_double (heading * 360 / (M_PI * 2))%float in
    if h <? 0 then h + 360 else h
  else 0.

(** [decodeModesMessage(mm, msg)].  [mm0] is the structure as the caller
    hands it over (the callers leave it uninitialised: a field the
    function does not assign keeps its value in [mm0]); [now] is the
    value of [time(NULL)].  Returns the populated structure and the
    recency cache as the call leaves it. *)
Definition decodeModesMessage (fix_errors aggressive : bool) (now : Z)
    (icao_cache : list Z) (mm0 : modesMessage) (msg0 : list Z)
  : modesMessage * list Z :=
  (* Work on our local copy *)
  let msg := take MODES_LONG_MSG_BYTES msg0 in
  let msgtype := Z.shiftr (msg !!! 0%nat) 3 in
  let msgbits := modesMessageLenByType msgtype in
  let crc0 := trailing_crc msg msgbits in
  let crc2 := modesChecksum msg msgbits in
  let crcok0 := crc0 =? crc2 in
  (* Check CRC and fix single bit errors (DF 11 and 17). *)
  let '(errorbit, msg, crc, crcok) :=
    decode_repair fix_errors aggressive msg msgtype msgbits crc0 crcok0 in
  let b (i : nat) := msg !!! i in
  let metype := Z.shiftr (b 4%nat) 3 in
  let mesub := Z.land (b 4%nat) 7 in
  (* DF 11 & 17: populate the whitelist.  Other DFs: try the AP field. *)
  let is_11_17 := (msgtype =? 11) || (msgtype =? 17) in
  let ap := if is_11_17 then None
            else bruteForceAP msg msgtype msgbits now icao_cache in
  let crcok := if is_11_17 then crcok else
                 match ap with Some _ => true | None => false end in
  let aa1 := match ap with Some (x, _, _) => x | None => b 1%nat end in
  let aa2 := match ap with Some (_, x, _) => x | None => b 2%nat end in
  let aa3 := match ap with Some (_, _, x) => x | None => b 3%nat end in
  let icao_cache' :=
    if is_11_17 && crcok && (errorbit =? -1)
    then addRecentlySeenICAOAddr
           (Z.lor (Z.lor (Z.shiftl aa1 16) (Z.shiftl aa2 8)) aa3) now icao_cache
    else icao_cache in
  (* The branches that assign the remaining fields. *)
  let is_ac13 := (msgtype =? 0) || (msgtype =? 4) || (msgtype =? 16) || (msgtype =? 20) in
  let is_ident := (msgtype =? 17) && (1 <=? metype) && (metype <=? 4) in
  let is_pos := (msgtype =? 17) && negb ((1 <=? metype) && (metype <=? 4))
                && (9 <=? metype) && (metype <=? 18) in
  let is_vel := (msgtype =? 17) && (metype =? 19) && (1 <=? mesub) && (mesub <=? 4) in
  let is_vel12 := is_vel && ((mesub =? 1) || (mesub =? 2)) in
  let is_vel34 := is_vel && negb ((mesub =? 1) || (mesub =? 2))
                  && ((mesub =? 3) || (mesub =? 4)) in
  let ew_dir := Z.shiftr (Z.land (b 5%nat) 4) 2 in
  let ew_velocity := Z.lor (Z.shiftl (Z.land (b 5%nat) 3) 8) (b 6%nat) in
  let ns_dir := Z.shiftr (Z.land (b 7%nat) 0x80) 7 in
  let ns_velocity := Z.lor (Z.shiftl (Z.land (b 7%nat) 0x7f) 3)
                           (Z.shiftr (Z.land (b 8%nat) 0xe0) 5) in
  let velocity := decode_velocity ew_velocity ns_velocity in
  ({| mm_msg := msg;
      mm_msgbits := msgbits;
      mm_msgtype := msgtype;
      mm_crcok := crcok;
      mm_crc := crc;
      mm_errorbit := errorbit;
      mm_aa1 := aa1; mm_aa2 := aa2; mm_aa3 := aa3;
      mm_phase_corrected := 0;
      mm_ca := Z.land (b 0%nat) 7;
      mm_metype := metype;
      mm_mesub := mesub;
      mm_heading_is_valid :=
        if is_vel34 then Z.land (b 5%nat) (Z.shiftl 1 2) else mm_heading_is_valid mm0;
      mm_heading :=
        if is_vel12 then decode_heading velocity ew_dir ew_velocity ns_dir ns_velocity
        else if is_vel34 then
          int_of_double ((360 / 128) *
                         double_of_int (Z.lor (Z.shiftl (Z.land (b 5%nat) 3) 5)
                                              (Z.shiftr (b 6%nat) 3)))%float
        else mm_heading mm0;
      mm_aircraft_type := if is_ident then metype - 1 else mm_aircraft_type mm0;
      mm_fflag := if is_pos then Z.land (b 6%nat) (Z.shiftl 1 2) else mm_fflag mm0;
      mm_tflag := if is_pos then Z.land (b 6%nat) (Z.shiftl 1 3) else mm_tflag mm0;
      mm_raw_latitude :=
        if is_pos then Z.lor (Z.lor (Z.shiftl (Z.land (b 6%nat) 3) 15)
                                    (Z.shiftl (b 7%nat) 7))
                             (Z.shiftr (b 8%nat) 1)
        else mm_raw_latitude mm0;
      mm_raw_longitude :=
        if is_pos then Z.lor (Z.lor (Z.shiftl (Z.land (b 8%nat) 1) 16)
                                    (Z.shiftl (b 9%nat) 8))
                             (b 10%nat)
        else mm_raw_longitude mm0;
      mm_flight := if is_ident then decode_flight msg else mm_flight mm0;
      mm_ew_dir := if is_vel12 then ew_dir else mm_ew_dir mm0;
      mm_ew_velocity := if is_vel12 then ew_velocity else mm_ew_velocity mm0;
      mm_ns_dir := if is_vel12 then ns_dir else mm_ns_dir mm0;
      mm_ns_velocity := if is_vel12 then ns_velocity else mm_ns_velocity mm0;
      mm_vert_rate_source :=
        if is_vel12 then Z.shiftr (Z.land (b 8%nat) 0x10) 4 else mm_vert_rate_source mm0;
      mm_vert_rate_sign :=
        if is_vel12 then Z.shiftr (Z.land (b 8%nat) 0x8) 3 else mm_vert_rate_sign mm0;
      mm_vert_rate :=
        if is_vel12 then Z.lor (Z.shiftl (Z.land (b 8%nat) 7) 6)
                               (Z.shiftr (Z.land (b 9%nat) 0xfc) 2)
        else mm_vert_rate mm0;
      mm_velocity := if is_vel12 then velocity else mm_velocity mm0;
      mm_fs := Z.land (b 0%nat) 7;
      mm_dr := Z.land (Z.shiftr (b 1%nat) 3) 31;
      mm_um := Z.lor (Z.shiftl (Z.land (b 1%nat) 7) 3) (Z.shiftr (b 2%nat) 5);
      mm_identity := decode_identity (b 2%nat) (b 3%nat);
      mm_altitude :=
        if is_pos then fst (decodeAC12Field msg)
        else if is_ac13 then fst (decodeAC13Field msg)
        else mm_altitude mm0;
      mm_unit :=
        match (if is_pos then snd (decodeAC12Field msg) else None) with
        | Some u => u
        | None => if is_ac13 then snd (decodeAC13Field msg) else mm_unit mm0
        end
   |}, icao_cache').

End Decoder.

(** A [struct modesMessage] with every field zero. *)
Definition mm_zero : modesMessage :=
  {| mm_msg := replicate 14 0; mm_msgbits := 0; mm_msgtype := 0; mm_crcok := false;
     mm_crc := 0; mm_errorbit := 0; mm_aa1 := 0; mm_aa2 := 0; mm_aa3 := 0;
     mm_phase_corrected := 0; mm_ca := 0; mm_metype := 0; mm_mesub := 0;
     mm_heading_is_valid := 0; mm_heading := 0; mm_aircraft_type := 0;
     mm_fflag := 0; mm_tflag := 0; mm_raw_latitude := 0; mm_raw_longitude := 0;
     mm_flight := EmptyString; mm_ew_dir := 0; mm_ew_velocity := 0; mm_ns_dir := 0;
     mm_ns_velocity := 0; mm_vert_rate_source := 0; mm_vert_rate_sign := 0;
     mm_vert_rate := 0; mm_velocity := 0; mm_fs := 0; mm_dr := 0; mm_um := 0;
     mm_identity := 0; mm_altitude := 0; mm_unit := 0 |}.

(** A stand-in for [atan2] where a concrete run needs one (no frame used
    below reaches it, or none of the inspected fields depends on it). *)
Definition atan2_stub (y x : float) : float := 0%float.

(** ** The CPR resolver *)

(** [struct aircraft]. *)
Record aircraft := {
  ac_addr : Z;                (* ICAO address *)
  ac_hexaddr : string;        (* Printable ICAO address *)
  ac_flight : string;         (* Flight number *)
  ac_altitude : Z;
  ac_speed : Z;
  ac_track : Z;
  ac_seen : Z;                (* Time at which the last packet was received. *)
  ac_messages : Z;
  ac_odd_cprlat : Z;
  ac_odd_cprlon : Z;
  ac_even_cprlat : Z;
  ac_even_cprlon : Z;
  ac_lat : float;             (* Coordinates obtained from CPR encoded data. *)
  ac_lon : float;
  ac_odd_cprtime : Z;
  ac_even_cprtime : Z
}.

(** [cprModFunction(a, b)]: C's [%] truncates, then the result is made
    non-negative. *)
Definition cprModFunction (a b : Z) : Z :=
  let res := Z.rem a b in
  if res <? 0 then res + b else res.

(** [cprNLFunction(lat)]. *)
Definition cprNLFunction (lat : float) : Z :=
  let lat := if (lat <? 0)%float then (- lat)%float else lat in
  if (lat <? 10.47047130)%float then 59 else
  if (lat <? 14.82817437)%float then 58 else
  if (lat <? 18.18626357)%float then 57 else
  if (lat <? 21.02939493)%float then 56 else
  if (lat <? 23.54504487)%float then 55 else
  if (lat <? 25.82924707)%float then 54 else
  if (lat <? 27.93898710)%float then 53 else
  if (lat <? 29.91135686)%float then 52 else
  if (lat <? 31.77209708)%float then 51 else
  if (lat <? 33.53993436)%float then 50 else
  if (lat <? 35.22899598)%float then 49 else
  if (lat <? 36.85025108)%float then 48 else
  if (lat <? 38.41241892)%float then 47 else
  if (lat <? 39.92256684)%float then 46 else
  if (lat <? 41.38651832)%float then 45 else
  if (lat <? 42.80914012)%float then 44 else
  if (lat <? 44.19454951)%float then 43 else
  if (lat <? 45.54626723)%float then 42 else
  if (lat <? 46.86733252)%float then 41 else
  if (lat <? 48.16039128)%float then 40 else
  if (lat <? 49.42776439)%float then 39 else
  if (lat <? 50.67150166)%float then 38 else
  if (lat <? 51.89342469)%float then 37 else
  if (lat <? 53.09516153)%float then 36 else
  if (lat <? 54.27817472)%float then 35 else
  if (lat <? 55.44378444)%float then 34 else
  if (lat <? 56.59318756)%float then 33 else
  if (lat <? 57.72747354)%float then 32 else
  if (lat <? 58.84763776)%float then 31 else
  if (lat <? 59.95459277)%float then 30 else
  if (lat <? 61.04917774)%float then 29 else
  if (lat <? 62.13216659)%float then 28 else
  if (lat <? 63.20427479)%float then 27 else
  if (lat <? 64.26616523)%float then 26 else
  if (lat <? 65.31845310)%float then 25 else
  if (lat <? 66.36171008)%float then 24 else
  if (lat <? 67.39646774)%float then 23 else
  if (lat <? 68.42322022)%float then 22 else
  if (lat <? 69.44242631)%float then 21 else
  if (lat <? 70.45451075)%float then 20 else
  if (lat <? 71.45986473)%float then 19 else
  if (lat <? 72.45884545)%float then 18 else
  if (lat <? 73.45177442)%float then 17 else
  if (lat <? 74.43893416)%float then 16 else
  if (lat <? 75.42056257)%float then 15 else
  if (lat <? 76.39684391)%float then 14 else
  if (lat <? 77.36789461)%float then 13 else
  if (lat <? 78.33374083)%float then 12 else
  if (lat <? 79.29428225)%float then 11 else
  if (lat <? 80.24923213)%float then 10 else
  if (lat <? 81.19801349)%float then 9 else
  if (lat <? 82.13956981)%float then 8 else
  if (lat <? 83.07199445)%float then 7 else
  if (lat <? 83.99173563)%float then 6 else
  if (lat <? 84.89166191)%float then 5 else
  if (lat <? 85.75541621)%float then 4 else
  if (lat <? 86.53536998)%float then 3 else
  if (lat <? 87.00000000)%float then 2 else
  1.

(** [cprNFunction(lat, isodd)]. *)
Definition cprNFunction (lat : float) (isodd : Z) : Z :=
  let nl := cprNLFunction lat - isodd in
  if nl <? 1 then 1 else nl.

(** [cprDlonFunction(lat, isodd)]. *)
Definition cprDlonFunction (lat : float) (isodd : Z) : float :=
  (360 / double_of_int (cprNFunction lat isodd))%float.

(** The latitude index [j] of [decodeCPR]. *)
Definition cpr_j (a : aircraft) : Z :=
  let lat0 := double_of_int (ac_even_cprlat a) in
  let lat1 := double_of_int (ac_odd_cprlat a) in
  floor_int (((59 * lat0 - 60 * lat1) / 131072) + 0.5)%float.

(** [rlat0] of [decodeCPR], after [if (rlat0 >= 270) rlat0 -= 360]. *)
Definition cpr_rlat0 (a : aircraft) : float :=
  let AirDlat0 := (360 / 60)%float in
  let lat0 := double_of_int (ac_even_cprlat a) in
  let rlat0 :=
    (AirDlat0 * (double_of_int (cprModFunction (cpr_j a) 60) + lat0 / 131072))%float in
  if (270 <=? rlat0)%float then (rlat0 - 360)%float else rlat0.

(** [rlat1] of [decodeCPR], after [if (rlat1 >= 270) rlat1 -= 360]. *)
Definition cpr_rlat1 (a : aircraft) : float :=
  let AirDlat1 := (360 / 59)%float in
  let lat1 := double_of_int (ac_odd_cprlat a) in
  let rlat1 :=
    (AirDlat1 * (double_of_int (cprModFunction (cpr_j a) 59) + lat1 / 131072))%float in
  if (270 <=? rlat1)%float then (rlat1 - 360)%float else rlat1.

(** The longitude of the branch "Use even packet", before the final
    [if (a->lon > 180) a->lon -= 360]. *)
Definition cpr_lon_even (a : aircraft) : float :=
  let lon0 := double_of_int (ac_even_cprlon a) in
  let lon1 := double_of_int (ac_odd_cprlon a) in
  let rlat0 := cpr_rlat0 a in
  let ni := cprNFunction rlat0 0 in
  let m := floor_int ((((lon0 * double_of_int (cprNLFunction rlat0 - 1)) -
                        (lon1 * double_of_int (cprNLFunction rlat0))) / 131072) + 0.5)%float in
  (cprDlonFunction rlat0 0 * (double_of_int (cprModFunction m ni) + lon0 / 131072))%float.

(** The longitude of the branch "Use odd packet", before the final
    [if (a->lon > 180) a->lon -= 360]. *)
Definition cpr_lon_odd (a : aircraft) : float :=
  let lon0 := double_of_int (ac_even_cprlon a) in
  let lon1 := double_of_int (ac_odd_cprlon a) in
  let rlat1 := cpr_rlat1 a in
  let ni := cprNFunction rlat1 1 in
  let m := floor_int ((((lon0 * double_of_int (cprNLFunction rlat1 - 1)) -
                        (lon1 * double_of_int (cprNLFunction rlat1))) / 131072) + 0.5)%float in
  (cprDlonFunction rlat1 1 * (double_of_int (cprModFunction m ni) + lon1 / 131072))%float.

(** [if (a->lon > 180) a->lon -= 360]. *)
Definition cpr_wrap_lon (lon : float) : float :=
  if (180 <? lon)%float then (lon - 360)%float else lon.

(** [a->lat = lat; a->lon = lon]. *)
Definition set_lat_lon (a : aircraft) (lat lon : float) : aircraft :=
  {| ac_addr := ac_addr a; ac_hexaddr := ac_hexaddr a; ac_flight := ac_flight a;
     ac_altitude := ac_altitude a; ac_speed := ac_speed a; ac_track := ac_track a;
     ac_seen := ac_seen a; ac_messages := ac_messages a;
     ac_odd_cprlat := ac_odd_cprlat a; ac_odd_cprlon := ac_odd_cprlon a;
     ac_even_cprlat := ac_even_cprlat a; ac_even_cprlon := ac_even_cprlon a;
     ac_lat := lat; ac_lon := lon;
     ac_odd_cprtime := ac_odd_cprtime a; ac_even_cprtime := ac_even_cprtime a |}.

(** [decodeCPR(a)]. *)
Definition decodeCPR (a : aircraft) : aircraft :=
  let rlat0 := cpr_rlat0 a in
  let rlat1 := cpr_rlat1 a in
  (* Check that both are in the same latitude zone, or abort. *)
  if negb (cprNLFunction rlat0 =? cprNLFunction rlat1) then a
  else if ac_even_cprtime a >? ac_odd_cprtime a
  then (* Use even packet. *)
    set_lat_lon a rlat0 (cpr_wrap_lon (cpr_lon_even a))
  else (* Use odd packet. *)
    set_lat_lon a rlat1 (cpr_wrap_lon (cpr_lon_odd a)).

(** ** The aircraft tracker *)

(** The digit of ["%06x"] for a value below 16. *)
Definition hex_digit (v : Z) : ascii :=
  match String.get (Z.to_nat v) "0123456789abcdef" with
  | Some c => c
  | None => "000"%char
  end.

(** [snprintf(a->hexaddr, 7, "%06x", (int)addr)] for a 24-bit address. *)
Definition hexaddr_of (addr : Z) : string :=
  String (hex_digit (Z.land (Z.shiftr addr 20) 15))
  (String (hex_digit (Z.land (Z.shiftr addr 16) 15))
  (String (hex_digit (Z.land (Z.shiftr addr 12) 15))
  (String (hex_digit (Z.land (Z.shiftr addr 8) 15))
  (String (hex_digit (Z.land (Z.shiftr addr 4) 15))
  (String (hex_digit (Z.land addr 15)) EmptyString))))).

(** [interactiveCreateAircraft(addr)], with [now] the value of [time(NULL)]. *)
Definition interactiveCreateAircraft (addr now : Z) : aircraft :=
  {| ac_addr := addr; ac_hexaddr := hexaddr_of addr; ac_flight := EmptyString;
     ac_altitude := 0; ac_speed := 0; ac_track := 0;
     ac_seen := now; ac_messages := 0;
     ac_odd_cprlat := 0; ac_odd_cprlon := 0;
     ac_even_cprlat := 0; ac_even_cprlon := 0;
     ac_lat := 0%float; ac_lon := 0%float;
     ac_odd_cprtime := 0; ac_even_cprtime := 0 |}.

(** [interactiveFindAircraft(addr)] over the linked list [Modes.aircrafts]:
    the position of the first record with this address, and the record. *)
Fixpoint interactiveFindAircraft (addr : Z) (aircrafts : list aircraft)
  : option (nat * aircraft) :=
  match aircrafts with
  | [] => None
  | a :: rest =>
      if ac_addr a =? addr then Some (0%nat, a)
      else match interactiveFindAircraft addr rest with
           | Some (i, a') => Some (S i, a')
           | None => None
           end
  end.

(** [a->seen = time(NULL); a->messages++]. *)
Definition set_seen (a : aircraft) (now : Z) : aircraft :=
  {| ac_addr := ac_addr a; ac_hexaddr := ac_hexaddr a; ac_flight := ac_flight a;
     ac_altitude := ac_altitude a; ac_speed := ac_speed a; ac_track := ac_track a;
     ac_seen := now; ac_messages := ac_messages a + 1;
     ac_odd_cprlat := ac_odd_cprlat a; ac_odd_cprlon := ac_odd_cprlon a;
     ac_even_cprlat := ac_even_cprlat a; ac_even_cprlon := ac_even_cprlon a;
     ac_lat := ac_lat a; ac_lon := ac_lon a;
     ac_odd_cprtime := ac_odd_cprtime a; ac_even_cprtime := ac_even_cprtime a |}.

(** [a->altitude = altitude]. *)
Definition set_altitude (a : aircraft) (altitude : Z) : aircraft :=
  {| ac_addr := ac_addr a; ac_hexaddr := ac_hexaddr a; ac_flight := ac_flight a;
     ac_altitude := altitude; ac_speed := ac_speed a; ac_track := ac_track a;
     ac_seen := ac_seen a; ac_messages := ac_messages a;
     ac_odd_cprlat := ac_odd_cprlat a; ac_odd_cprlon := ac_odd_cprlon a;
     ac_even_cprlat := ac_even_cprlat a; ac_even_cprlon := ac_even_cprlon a;
     ac_lat := ac_lat a; ac_lon := ac_lon a;
     ac_odd_cprtime := ac_odd_cprtime a; ac_even_cprtime := ac_even_cprtime a |}.

(** [memcpy(a->flight, flight, sizeof(a->flight))]. *)
Definition set_flight (a : aircraft) (flight : string) : aircraft :=
  {| ac_addr := ac_addr a; ac_hexaddr := ac_hexaddr a; ac_flight := flight;
     ac_altitude := ac_altitude a; ac_speed := ac_speed a; ac_track := ac_track a;
     ac_seen := ac_seen a; ac_messages := ac_messages a;
     ac_odd_cprlat := ac_odd_cprlat a; ac_odd_cprlon := ac_odd_cprlon a;
     ac_even_cprlat := ac_even_cprlat a; ac_even_cprlon := ac_even_cprlon a;
     ac_lat := ac_lat a; ac_lon := ac_lon a;
     ac_odd_cprtime := ac_odd_cprtime a; ac_even_cprtime := ac_even_cprtime a |}.

(** The odd snapshot: [odd_cprlat], [odd_cprlon], [odd_cprtime]. *)
Definition set_odd_cpr (a : aircraft) (lat lon time : Z) : aircraft :=
  {| ac_addr := ac_addr a; ac_hexaddr := ac_hexaddr a; ac_flight := ac_flight a;
     ac_altitude := ac_altitude a; ac_speed := ac_speed a; ac_track := ac_track a;
     ac_seen := ac_seen a; ac_messages := ac_messages a;
     ac_odd_cprlat := lat; ac_odd_cprlon := lon;
     ac_even_cprlat := ac_even_cprlat a; ac_even_cprlon := ac_even_cprlon a;
     ac_lat := ac_lat a; ac_lon := ac_lon a;
     ac_odd_cprtime := time; ac_even_cprtime := ac_even_cprtime a |}.

(** The even snapshot: [even_cprlat], [even_cprlon], [even_cprtime]. *)
Definition set_even_cpr (a : aircraft) (lat lon time : Z) : aircraft :=
  {| ac_addr := ac_addr a; ac_hexaddr := ac_hexaddr a; ac_flight := ac_flight a;
     ac_altitude := ac_altitude a; ac_speed := ac_speed a; ac_track := ac_track a;
     ac_seen := ac_seen a; ac_messages := ac_messages a;
     ac_odd_cprlat := ac_odd_cprlat a; ac_odd_cprlon := ac_odd_cprlon a;
     ac_even_cprlat := lat; ac_even_cprlon := lon;
     ac_lat := ac_lat a; ac_lon := ac_lon a;
     ac_odd_cprtime := ac_odd_cprtime a; ac_even_cprtime := time |}.

(** [a->speed = speed; a->track = track]. *)
Definition set_speed_track (a : aircraft) (speed track : Z) : aircraft :=
  {| ac_addr := ac_addr a; ac_hexaddr := ac_hexaddr a; ac_flight := ac_flight a;
     ac_altitude := ac_altitude a; ac_speed := speed; ac_track := track;
     ac_seen := ac_seen a; ac_messages := ac_messages a;
     ac_odd_cprlat := ac_odd_cprlat a; ac_odd_cprlon := ac_odd_cprlon a;
     ac_even_cprlat := ac_even_cprlat a; ac_even_cprlon := ac_even_cprlon a;
     ac_lat := ac_lat a; ac_lon := ac_lon a;
     ac_odd_cprtime := ac_odd_cprtime a; ac_even_cprtime := ac_even_cprtime a |}.

(** The snapshot store of an airborne position message: the odd or the
    even triple, by [mm->fflag], stamped with [mstime()]. *)
Definition store_cpr (now_ms : Z) (mm : modesMessage) (a : aircraft) : aircraft :=
  if negb (mm_fflag mm =? 0)
  then set_odd_cpr a (mm_raw_latitude mm) (mm_raw_longitude mm) now_ms
  else set_even_cpr a (mm_raw_latitude mm) (mm_raw_longitude mm) now_ms.

(** The position-message branch of [interactiveReceiveData] (DF17, type
    9 to 18): altitude, snapshot, and [decodeCPR] when the two capture
    times are at most 10 seconds apart. *)
Definition receive_position (now_ms : Z) (mm : modesMessage) (a : aircraft)
  : aircraft :=
  let a := set_altitude a (mm_altitude mm) in
  let a := store_cpr now_ms mm a in
  if Z.abs (ac_even_cprtime a - ac_odd_cprtime a) <=? 10000
  then decodeCPR a
  else a.

(** The part of [interactiveReceiveData] that runs on the record [a] once
    it is found or created; [now] is [time(NULL)], [now_ms] is [mstime()]. *)
Definition receive_update (now now_ms : Z) (mm : modesMessage) (a : aircraft)
  : aircraft :=
  let a := set_seen a now in
  if (mm_msgtype mm =? 0) || (mm_msgtype mm =? 4) || (mm_msgtype mm =? 20)
  then set_altitude a (mm_altitude mm)
  else if mm_msgtype mm =? 17 then
    if (1 <=? mm_metype mm) && (mm_metype mm <=? 4)
    then set_flight a (mm_flight mm)
    else if (9 <=? mm_metype mm) && (mm_metype mm <=? 18)
    then receive_position now_ms mm a
    else if mm_metype mm =? 19 then
      if (mm_mesub mm =? 1) || (mm_mesub mm =? 2)
      then set_speed_track a (mm_velocity mm) (mm_heading mm)
      else a
    else a
  else a.

(** [interactiveReceiveData(mm)]: the record the returned pointer
    designates ([None] for NULL) and the list [Modes.aircrafts] as the
    call leaves it.  The reordering branch is guarded by [0 && ...] in the
    source and never runs. *)
Definition interactiveReceiveData (check_crc : bool) (now now_ms : Z)
    (aircrafts : list aircraft) (mm : modesMessage)
  : option aircraft * list aircraft :=
  if check_crc && negb (mm_crcok mm) then (None, aircrafts)
  else
    let addr := Z.lor (Z.lor (Z.shiftl (mm_aa1 mm) 16) (Z.shiftl (mm_aa2 mm) 8))
                      (mm_aa3 mm) in
    let '(i, a, aircrafts) :=
      match interactiveFindAircraft addr aircrafts with
      | Some (i, a) => (i, a, aircrafts)
      | None =>
          let a := interactiveCreateAircraft addr now in
          (0%nat, a, a :: aircrafts)
      end in
    let a' := receive_update now now_ms mm a in
    (Some a', <[i := a']> aircrafts).

(** [interactiveRemoveStaleAircrafts()]. *)
Definition interactiveRemoveStaleAircrafts (interactive_ttl now : Z)
    (aircrafts : list aircraft) : list aircraft :=
  List.filter (fun a => negb (now - ac_seen a >? interactive_ttl)) aircrafts.

(** The worked example of the page the source cites: even (92095, 39846),
    odd (88385, 125818), the even message being the newer one. *)
Definition cpr_example : aircraft :=
  set_even_cpr (set_odd_cpr (interactiveCreateAircraft 0x4840D6 1000) 88385 125818 1000000)
               92095 39846 1005000.

(** ** Hex records *)

(** C strings are lists of character codes, without the terminating NUL. *)
Definition cstr (s : string) : list Z :=
  List.map (fun c => Z.of_nat (nat_of_ascii c)) (list_ascii_of_string s).

(** [isspace], [tolower] in the C locale. *)
Definition isspace (c : Z) : bool := (c =? 32) || ((9 <=? c) && (c <=? 13)).
Definition tolower (c : Z) : Z := if (65 <=? c) && (c <=? 90) then c + 32 else c.

(** [hexDigitVal(c)]. *)
Definition hexDigitVal (c : Z) : Z :=
  let c := tolower c in
  if (48 <=? c) && (c <=? 57) then c - 48
  else if (97 <=? c) && (c <=? 102) then c - 97 + 10
  else -1.

(** [while(isspace( *hex)) hex++]. *)
Fixpoint skip_spaces (hex : list Z) : list Z :=
  match hex with
  | c :: rest => if isspace c then skip_spaces rest else hex
  | [] => []
  end.

(** [while(l && isspace(hex[l-1])) { hex[l-1] = 0; l--; }]. *)
Definition trim_right (hex : list Z) : list Z := rev (skip_spaces (rev hex)).

(** The conversion loop of [hexToBin]: [hex] points after the ['*'], [l]
    is the number of characters before the [';'] (the loop reads
    [hex[j+1]] with [j < l], so at most the [';'] itself). *)
Fixpoint hexToBin_loop (hex : list Z) (l fuel j : nat) (msg : list Z) : list Z :=
  match fuel with
  | O => msg
  | S fuel' =>
      if (j <? l)%nat then
        let high := hexDigitVal (hex !!! j) in
        let low := hexDigitVal (hex !!! (j + 1)%nat) in
        if (high =? -1) || (low =? -1) then msg
        else hexToBin_loop hex l fuel' (j + 2)
               (<[(j / 2)%nat := Z.lor (Z.shiftl high 4) low]> msg)
      else msg
  end.

(** [hexToBin(hex, msg)]: the return value, which is 0 on every path of
    the source, and the buffer [msg] as the call leaves it. *)
Definition hexToBin (hex : list Z) (msg : list Z) : Z * list Z :=
  let hex := skip_spaces (trim_right hex) in
  let l := length hex in
  if (l <? 2)%nat || negb (hex !!! 0%nat =? 42) || negb (hex !!! (l - 1)%nat =? 59)
  then (0, msg)
  else
    let hex := drop 1 hex in
    let l := (l - 2)%nat in
    if (MODES_LONG_MSG_BYTES * 2 <? l)%nat then (0, msg)
    else (0, hexToBin_loop hex l l 0 msg).

(** [Modes]: the configuration flags and counters the output path reads. *)
Record config := {
  fix_errors : bool;
  aggressive : bool;
  check_crc : bool;
  stats : bool;
  interactive : bool;
  net : bool;
  stat_http_requests : Z;
  stat_sbs_connections : Z;
  stat_trajectory_connections : Z
}.

(** What a frame reaches: the tracker and the output sinks. *)
Inductive event :=
| EvTrack (mm : modesMessage)                  (* interactiveReceiveData *)
| EvSBSOutput (mm : modesMessage) (a : aircraft)
| EvTrajectoryOutput (a : aircraft)
| EvDisplay (mm : modesMessage)                (* displayModesMessage *)
| EvRawOutput (mm : modesMessage).             (* modesSendRawOutput *)

(** The mutable part of [Modes] on the decoding path. *)
Record world := {
  w_icao_cache : list Z;
  w_aircrafts : list aircraft;
  w_out : list event                            (* oldest first *)
}.

(** [useModesMessage(mm)]. *)
Definition useModesMessage (cfg : config) (now now_ms : Z) (w : world)
    (mm : modesMessage) : world :=
  if negb (stats cfg) && (negb (check_crc cfg) || mm_crcok mm) then
    let '(aircrafts, ev1) :=
      if interactive cfg || (stat_http_requests cfg >? 0) ||
         (stat_sbs_connections cfg >? 0) || (stat_trajectory_connections cfg >? 0)
      then
        let '(a, aircrafts) :=
          interactiveReceiveData (check_crc cfg) now now_ms (w_aircrafts w) mm in
        (aircrafts,
         [EvTrack mm] ++
         match a with
         | Some a =>
             (if stat_sbs_connections cfg >? 0 then [EvSBSOutput mm a] else []) ++
             (if stat_trajectory_connections cfg >? 0 then [EvTrajectoryOutput a] else [])
         | None => []
         end)
      else (w_aircrafts w, []) in
    let ev2 := if negb (interactive cfg) then [EvDisplay mm] else [] in
    let ev3 := if net cfg then [EvRawOutput mm] else [] in
    {| w_icao_cache := w_icao_cache w; w_aircrafts := aircrafts;
       w_out := w_out w ++ ev1 ++ ev2 ++ ev3 |}
  else w.

Section Ingest.

Variable atan2 : float -> float -> float.

(** [decodeHexMessage(c)] on the record [hex] at the head of the client
    buffer.  [msg] and [mm0] are the contents of the stack slots of the
    two uninitialised locals [msg] and [mm].  Returns the structure the
    decoder filled and the world after [useModesMessage]; the C return
    value is always 0. *)
Definition decodeHexMessage (cfg : config) (now now_ms : Z)
    (msg : list Z) (mm0 : modesMessage) (hex : list Z) (w : world)
  : modesMessage * world :=
  let '(_, msg) := hexToBin hex msg in
  let '(mm, icao_cache) :=
    decodeModesMessage atan2 (fix_errors cfg) (aggressive cfg) now
      (w_icao_cache w) mm0 msg in
  let w := {| w_icao_cache := icao_cache; w_aircrafts := w_aircrafts w;
              w_out := w_out w |} in
  (mm, useModesMessage cfg now now_ms w mm).

End Ingest.

(** The hex record of the specification, in its words: ['*'], an even
    number of hex digits for at most 14 bytes, [';'], optionally
    surrounded by whitespace. *)
Definition well_formed_line (hex : list Z) : bool :=
  let s := skip_spaces (trim_right hex) in
  match s with
  | 42 :: rest =>
      match rev rest with
      | 59 :: rdigits =>
          Nat.even (length rdigits) && (length rdigits <=? 28)%nat &&
          forallb (fun c => negb (hexDigitVal c =? -1)) rdigits
      | _ => false
      end
  | _ => false
  end.

(** ** Reading from network clients *)

(** [struct client]: [c_buf] has [MODES_CLIENT_BUF_SIZE + 1] cells. *)
Record client := {
  c_fd : Z;
  c_service : Z;
  c_buf : list Z;
  c_buflen : nat
}.

(** The outcome of one [read(c->fd, c->buf + c->buflen, left)]. *)
Inductive read_result :=
| ReadData (d : list Z)     (* [nread > 0] bytes, placed at [buf + buflen] *)
| ReadEOF                   (* [nread == 0] *)
| ReadEAGAIN                (* [nread == -1], [errno == EAGAIN] *)
| ReadError.                (* [nread == -1], another [errno] *)

(** The C string that starts at the head of a buffer. *)
Fixpoint c_string (buf : list Z) : list Z :=
  match buf with
  | [] => []
  | c :: rest => if c =? 0 then [] else c :: c_string rest
  end.

Fixpoint is_prefix (sep s : list Z) : bool :=
  match sep, s with
  | [], _ => true
  | _ :: _, [] => false
  | x :: sep', y :: s' => (x =? y) && is_prefix sep' s'
  end.

(** [strstr(s, sep)] as an index into [s] ([None] for NULL). *)
Fixpoint strstr (s sep : list Z) : option nat :=
  match s with
  | [] => if is_prefix sep [] then Some 0%nat else None
  | _ :: s' =>
      if is_prefix sep s then Some 0%nat
      else match strstr s' sep with
           | Some i => Some (S i)
           | None => None
           end
  end.

(** [n] bytes [d] stored at [buf + off]. *)
Definition buf_write (buf : list Z) (off : nat) (d : list Z) : list Z :=
  take off buf ++ d ++ drop (off + length d) buf.

(** [memmove(buf, buf + i, n)]. *)
Definition memmove_head (buf : list Z) (i n : nat) : list Z :=
  take n (drop i buf) ++ drop n buf.

Definition set_buf (c : client) (buf : list Z) (buflen : nat) : client :=
  {| c_fd := c_fd c; c_service := c_service c; c_buf := buf; c_buflen := buflen |}.

Section ReadFromClient.

(** The state the handlers act on. *)
Variable W : Type.

(** The separator, and the handler: it reads the message at the head of
    the client buffer and returns true to have the connection closed.
    (The two handlers of the source leave [c->buflen] and the bytes after
    the message as they are.) *)
Variable sep : list Z.
Variable handler : client -> W -> bool * W.

(** The loop [while ((p = strstr(c->buf, sep)) != NULL)]: the client, the
    state, [fullmsg], and whether the handler asked to close. *)
Fixpoint scan_messages (fuel : nat) (c : client) (w : W) (fullmsg : bool)
  : client * W * bool * bool :=
  match fuel with
  | O => (c, w, fullmsg, false)
  | S fuel' =>
      match strstr (c_string (c_buf c)) sep with
      | None => (c, w, fullmsg, false)
      | Some i =>
          let c := set_buf c (<[i := 0]> (c_buf c)) (c_buflen c) in
          let '(close, w) := handler c w in
          if close then (c, w, fullmsg, true)
          else
            let i := (i + length sep)%nat in
            let buf := memmove_head (c_buf c) i (c_buflen c - i) in
            let buflen := (c_buflen c - i)%nat in
            let c := set_buf c (<[buflen := 0]> buf) buflen in
            scan_messages fuel' c w true
      end
  end.

(** [modesReadFromClient(c, sep, handler)].  [reads] lists the outcomes of
    the successive calls of [read]; past its end [read] reports EAGAIN.
    Returns the client, the state, and whether [modesFreeClient] was
    called on the client. *)
Fixpoint modesReadFromClient (reads : list read_result) (c : client) (w : W)
  : client * W * bool :=
  match reads with
  | [] => (c, w, false)
  | r :: reads' =>
      let left := (MODES_CLIENT_BUF_SIZE - c_buflen c)%nat in
      match r with
      | ReadEOF | ReadError => (c, w, true)
      | ReadEAGAIN => (c, w, false)
      | ReadData d =>
          let d := take left d in
          let nread := length d in
          if (nread =? 0)%nat then (c, w, true)
          else
            let buflen := (c_buflen c + nread)%nat in
            (* Always null-term so we are free to use strstr() *)
            let c := set_buf c (<[buflen := 0]> (buf_write (c_buf c) (c_buflen c) d))
                             buflen in
            let '(c, w, fullmsg, closed) := scan_messages (S buflen) c w false in
            if closed then (c, w, true)
            else if (c_buflen c =? MODES_CLIENT_BUF_SIZE)%nat
            then (* If our buffer is full discard it *)
              modesReadFromClient reads' (set_buf c (c_buf c) 0) w
            else if negb fullmsg then (c, w, false)
            else modesReadFromClient reads' c w
      end
  end.

End ReadFromClient.

(** The handler of the raw input service: [decodeHexMessage]. *)
Definition raw_in_handler (atan2 : float -> float -> float) (cfg : config)
    (now now_ms : Z) (msg : list Z) (mm0 : modesMessage)
    (c : client) (w : world) : bool * world :=
  (false, snd (decodeHexMessage atan2 cfg now now_ms msg mm0 (c_string (c_buf c)) w)).

(** A fresh client, as [modesAcceptClients] creates it. *)
Definition client_init (fd service : Z) : client :=
  {| c_fd := fd; c_service := service;
     c_buf := replicate (MODES_CLIENT_BUF_SIZE + 1) 0; c_buflen := 0 |}.

Definition default_config : config :=
  {| fix_errors := true; aggressive := false; check_crc := true; stats := false;
     interactive := false; net := true; stat_http_requests := 0;
     stat_sbs_connections := 0; stat_trajectory_connections := 0 |}.

Definition world_init : world :=
  {| w_icao_cache := icao_cache_init; w_aircrafts := []; w_out := [] |}.

(** ** The raw output *)

(** The character [sprintf("%X")] prints for a value below 16. *)
Definition hex_digit_upper (v : Z) : Z := if v <? 10 then 48 + v else 55 + v.

(** [sprintf(p, "%02X", b)] for an [unsigned char] [b]: two characters. *)
Definition sprintf_02X (b : Z) : list Z :=
  [hex_digit_upper (Z.shiftr b 4); hex_digit_upper (Z.land b 15)].

(** The record [modesSendRawOutput] builds: ['*'], two digits for each of
    the [msgbits/8] bytes, [';'] and a newline. *)
Definition raw_output_line (mm : modesMessage) : list Z :=
  [42] ++ flat_map sprintf_02X (take (mm_msgbits mm / 8) (mm_msg mm)) ++ [59; 10].

(** ** The table of network clients *)

Definition MODES_NET_MAX_FD : nat := 1024.

(** The listening sockets [Modes.ros], [Modes.ris], [Modes.https],
    [Modes.sbsos] and [Modes.trs]. *)
Record sockets := { ros : Z; ris : Z; https : Z; sbsos : Z; trs : Z }.

(** [modesNetServices[j].socket], in the order of the table. *)
Definition modesNetServices (s : sockets) : list Z :=
  [ros s; ris s; https s; sbsos s; trs s].

(** [Modes.clients] (a null pointer is [None]), [Modes.maxfd] and the two
    connection counters. *)
Record net_state := {
  clients : list (option client);
  maxfd : Z;
  net_stat_sbs_connections : Z;
  net_stat_trajectory_connections : Z
}.

(** The table as [modesInitNet] leaves it (the counters are zeroed by
    [modesInit]). *)
Definition modesInitNet : net_state :=
  {| clients := replicate MODES_NET_MAX_FD None; maxfd := -1;
     net_stat_sbs_connections := 0; net_stat_trajectory_connections := 0 |}.

(** [for (j = n-1; j >= 0; j--) if (Modes.clients[j]) { maxfd = j; break; }]
    after [maxfd = -1]. *)
Fixpoint scan_down (cl : list (option client)) (n : nat) : Z :=
  match n with
  | O => -1
  | S j => match cl !!! j with
           | Some _ => Z.of_nat j
           | None => scan_down cl j
           end
  end.

(** [modesFreeClient(fd)]. *)
Definition modesFreeClient (fd : Z) (st : net_state) : net_state :=
  let cl := <[Z.to_nat fd := None]> (clients st) in
  {| clients := cl;
     maxfd := if maxfd st =? fd then scan_down cl (Z.to_nat fd) else maxfd st;
     net_stat_sbs_connections := net_stat_sbs_connections st;
     net_stat_trajectory_connections := net_stat_trajectory_connections st |}.

(** The body of the loop of [modesAcceptClients] for an accepted
    descriptor below [MODES_NET_MAX_FD]; [buf] is what [malloc] left in
    the buffer of the new client. *)
Definition accept_client (s : sockets) (service fd : Z) (buf : list Z)
    (st : net_state) : net_state :=
  {| clients := <[Z.to_nat fd := Some {| c_fd := fd; c_service := service;
                                         c_buf := buf; c_buflen := 0 |}]> (clients st);
     maxfd := if maxfd st <? fd then fd else maxfd st;
     net_stat_sbs_connections :=
       if service =? sbsos s then net_stat_sbs_connections st + 1
       else net_stat_sbs_connections st;
     net_stat_trajectory_connections :=
       if service =? trs s then net_stat_trajectory_connections st + 1
       else net_stat_trajectory_connections st |}.

(** [modesAcceptClients()], from service [j] on.  [accepts] lists the
    results of the successive calls of [anetTcpAccept], each with the
    memory [malloc] hands out if a client is created; past its end
    [anetTcpAccept] reports -1. *)
Fixpoint modesAcceptClients_loop (s : sockets) (accepts : list (Z * list Z))
    (j : nat) (st : net_state) {struct accepts} : net_state :=
  match modesNetServices s !! j with
  | None => st
  | Some service =>
      match accepts with
      | [] => st
      | (fd, buf) :: rest =>
          if fd =? -1 then modesAcceptClients_loop s rest (S j) st
          else if Z.of_nat MODES_NET_MAX_FD <=? fd then st
          else modesAcceptClients_loop s rest j (accept_client s service fd buf st)
      end
  end.

Definition modesAcceptClients (s : sockets) (accepts : list (Z * list Z))
    (st : net_state) : net_state :=
  modesAcceptClients_loop s accepts 0 st.

(** [modesSendAllClients(service, msg, len)], from [j] on.  [write_ok fd]
    tells whether [write(fd, msg, len)] returns [len].  Returns the table
    and the writes made, oldest first. *)
Fixpoint modesSendAllClients_loop (service : Z) (msg : list Z) (write_ok : Z -> bool)
    (fuel j : nat) (st : net_state) (written : list (Z * list Z))
  : net_state * list (Z * list Z) :=
  match fuel with
  | O => (st, written)
  | S fuel' =>
      if Z.of_nat j <=? maxfd st then
        match clients st !!! j with
        | Some c =>
            if c_service c =? service then
              let st' := if write_ok (Z.of_nat j) then st
                         else modesFreeClient (Z.of_nat j) st in
              modesSendAllClients_loop service msg write_ok fuel' (S j) st'
                (written ++ [(Z.of_nat j, msg)])
            else modesSendAllClients_loop service msg write_ok fuel' (S j) st written
        | None => modesSendAllClients_loop service msg write_ok fuel' (S j) st written
        end
      else (st, written)
  end.

Definition modesSendAllClients (service : Z) (msg : list Z) (write_ok : Z -> bool)
    (st : net_state) : net_state * list (Z * list Z) :=
  modesSendAllClients_loop service msg write_ok MODES_NET_MAX_FD 0 st [].

(** [modesSendRawOutput(mm)]. *)
Definition modesSendRawOutput (s : sockets) (mm : modesMessage) (write_ok : Z -> bool)
    (st : net_state) : net_state * list (Z * list Z) :=
  modesSendAllClients (ros s) (raw_output_line mm) write_ok st.

(** ** The line reader of the serial port *)

Definition MODES_HEX_LEN : nat := 64.

(** The fields of [Modes] the reader thread works on. *)
Record hex_state := {
  hex_buffer : list Z;        (* remainder hex string *)
  hex_buffer_len : Z;
  hex_buffer_idx : Z;
  hex_data : list Z;
  hex_data_len : Z;
  exit_flag : bool            (* Modes.exit *)
}.

(** How the inner loop of [readHexData] ends. *)
Inductive line_result :=
| LineReady (st : hex_state)      (* a newline was met, the line is terminated *)
| LineExit (st : hex_state)       (* end of the file given by --file *)
| LineFull (st : hex_state)       (* MODES_HEX_LEN characters and no newline:
                                     the loop is left without a terminator *)
| LineOutOfBounds                 (* the terminator is stored at
                                     hex_data[MODES_HEX_LEN], outside the array *)
| LineBlocked.                    (* [read] does not return *)

(** [Modes.hex_buffer_len = read(Modes.fd, Modes.hex_buffer, MODES_HEX_LEN)]. *)
Definition read_hex_buffer (r : read_result) (st : hex_state) : hex_state :=
  match r with
  | ReadData d =>
      let d := take MODES_HEX_LEN d in
      {| hex_buffer := d ++ drop (length d) (hex_buffer st);
         hex_buffer_len := Z.of_nat (length d);
         hex_buffer_idx := hex_buffer_idx st;
         hex_data := hex_data st; hex_data_len := hex_data_len st;
         exit_flag := exit_flag st |}
  | ReadEOF =>
      {| hex_buffer := hex_buffer st; hex_buffer_len := 0;
         hex_buffer_idx := hex_buffer_idx st;
         hex_data := hex_data st; hex_data_len := hex_data_len st;
         exit_flag := exit_flag st |}
  | ReadEAGAIN | ReadError =>
      {| hex_buffer := hex_buffer st; hex_buffer_len := -1;
         hex_buffer_idx := hex_buffer_idx st;
         hex_data := hex_data st; hex_data_len := hex_data_len st;
         exit_flag := exit_flag st |}
  end.

(** The inner [while (1)] of [readHexData], entered after
    [Modes.hex_data_len = 0]; [file] tells whether [Modes.filename] is
    set, [reads] lists the outcomes of the successive calls of [read],
    [fuel] bounds the iterations. *)
Fixpoint readHexData_line (file : bool) (fuel : nat) (reads : list read_result)
    (st : hex_state) : line_result :=
  match fuel with
  | O => LineBlocked
  | S fuel' =>
      if hex_buffer_len st <=? hex_buffer_idx st then
        match reads with
        | [] => LineBlocked
        | r :: reads' =>
            let st := read_hex_buffer r st in
            if file && (hex_buffer_len st =? 0) then
              LineExit {| hex_buffer := hex_buffer st;
                          hex_buffer_len := hex_buffer_len st;
                          hex_buffer_idx := hex_buffer_idx st;
                          hex_data := hex_data st; hex_data_len := hex_data_len st;
                          exit_flag := true |}
            else
              readHexData_line file fuel' reads'
                {| hex_buffer := hex_buffer st; hex_buffer_len := hex_buffer_len st;
                   hex_buffer_idx := 0;
                   hex_data := hex_data st; hex_data_len := hex_data_len st;
                   exit_flag := exit_flag st |}
        end
      else if hex_buffer st !!! Z.to_nat (hex_buffer_idx st) =? 10 then
        if hex_data_len st <? Z.of_nat MODES_HEX_LEN then
          LineReady {| hex_buffer := hex_buffer st; hex_buffer_len := hex_buffer_len st;
                       hex_buffer_idx := hex_buffer_idx st + 1;
                       hex_data := <[Z.to_nat (hex_data_len st) := 0]> (hex_data st);
                       hex_data_len := hex_data_len st;
                       exit_flag := exit_flag st |}
        else LineOutOfBounds
      else if Z.of_nat MODES_HEX_LEN <=? hex_data_len st then LineFull st
      else
        readHexData_line file fuel' reads
          {| hex_buffer := hex_buffer st; hex_buffer_len := hex_buffer_len st;
             hex_buffer_idx := hex_buffer_idx st + 1;
             hex_data := <[Z.to_nat (hex_data_len st) :=
                             hex_buffer st !!! Z.to_nat (hex_buffer_idx st)]> (hex_data st);
             hex_data_len := hex_data_len st + 1;
             exit_flag := exit_flag st |}
  end.

(** ** Vocabulary of the properties

    The predicates the statements below are written with, the frames and
    records they are run on, and the checkers behind the proofs by
    computation. *)

(** The two words of the slot an address hashes to. *)
Definition slot_addr (addr : Z) (icao_cache : list Z) : Z :=
  icao_cache !!! (Z.to_nat (ICAOCacheHashAddress addr) * 2)%nat.
Definition slot_time (addr : Z) (icao_cache : list Z) : Z :=
  icao_cache !!! (Z.to_nat (ICAOCacheHashAddress addr) * 2 + 1)%nat.

(** A run of later insertions [(address, time)], in order. *)
Definition insertions (later : list (Z * Z)) (icao_cache : list Z) : list Z :=
  fold_left (fun c p => addRecentlySeenICAOAddr (fst p) (snd p) c) later icao_cache.

(** The address [(aa1 << 16) | (aa2 << 8) | aa3] of a decoded message. *)
Definition mm_addr (mm : modesMessage) : Z :=
  Z.lor (Z.lor (Z.shiftl (mm_aa1 mm) 16) (Z.shiftl (mm_aa2 mm) 8)) (mm_aa3 mm).

(** The decoder on the 13-bit identity field [x] (message bits 20 to 32:
    the low five bits of byte 2, then byte 3). *)
Definition identity_of_field (x : Z) : Z :=
  decode_identity (Z.shiftr x 8) (Z.land x 0xff).

(** The twelve code bits of the field: every bit but X (ZERO), 0x40. *)
Definition code_bits (x : Z) : Z := Z.land x 0x1fbf.

(** The field (with X clear) that decodes to the digits [a b c d]. *)
Definition field_of_digits (a b c d : Z) : Z :=
  let bit v k := Z.land (Z.shiftr v k) 1 in
  Z.lor (Z.shiftl (bit c 0) 12)
 (Z.lor (Z.shiftl (bit a 0) 11)
 (Z.lor (Z.shiftl (bit c 1) 10)
 (Z.lor (Z.shiftl (bit a 1) 9)
 (Z.lor (Z.shiftl (bit c 2) 8)
 (Z.lor (Z.shiftl (bit a 2) 7)
 (Z.lor (Z.shiftl (bit b 0) 5)
 (Z.lor (Z.shiftl (bit d 0) 4)
 (Z.lor (Z.shiftl (bit b 1) 3)
 (Z.lor (Z.shiftl (bit d 1) 2)
 (Z.lor (Z.shiftl (bit b 2) 1) (bit d 2))))))))))).

(** The field recovered from a decoded squawk. *)
Definition field_of_identity (v : Z) : Z :=
  field_of_digits (v / 1000) (v / 100 mod 10) (v / 10 mod 10) (v mod 10).

(** [p] holds of the [n] integers from [lo] on. *)
Fixpoint forall_from (lo : Z) (n : nat) (p : Z -> bool) : bool :=
  match n with
  | O => true
  | S n' => p lo && forall_from (lo + 1) n' p
  end.

(** [p] holds of [0 .. n-1]. *)
Definition forall_below (n : nat) (p : Z -> bool) : bool := forall_from 0 n p.

(** The position [decodeCPR] writes when it takes the even snapshot as
    basis, and when it takes the odd one. *)
Definition cpr_position_even (a : aircraft) : float * float :=
  (cpr_rlat0 a, cpr_wrap_lon (cpr_lon_even a)).
Definition cpr_position_odd (a : aircraft) : float * float :=
  (cpr_rlat1 a, cpr_wrap_lon (cpr_lon_odd a)).

(** Both rows lie in the same latitude zone. *)
Definition same_zone (a : aircraft) : Prop :=
  cprNLFunction (cpr_rlat0 a) = cprNLFunction (cpr_rlat1 a).

(** The record of the worked example with both messages captured at the
    same millisecond. *)
Definition cpr_example_tie : aircraft :=
  set_even_cpr (set_odd_cpr (interactiveCreateAircraft 0x4840D6 1000) 88385 125818 1000000)
               92095 39846 1000000.

(** The record a position message leaves just before the time test: seen
    and altitude updated, the odd or even snapshot stored. *)
Definition position_stored (now now_ms : Z) (mm : modesMessage) (a : aircraft)
  : aircraft :=
  store_cpr now_ms mm (set_altitude (set_seen a now) (mm_altitude mm)).

(** The two capture timestamps are at most 10,000 ms apart. *)
Definition captured_close (a : aircraft) : Prop :=
  Z.abs (ac_even_cprtime a - ac_odd_cprtime a) <= 10000.

(** A snapshot is present once a message stored it: a fresh record has
    capture time 0, a stored snapshot carries the clock's reading. *)
Definition snapshot_present (cprtime : Z) : Prop := cprtime <> 0.

(** An odd airborne position frame (type 11) with raw latitude 0 and raw
    longitude 65536, with a valid CRC. *)
Definition frame_pos_odd : list Z :=
  [0x8D; 0x48; 0x40; 0xD6; 0x58; 0xC3; 0x84; 0x00; 0x01; 0x00; 0x00; 0x2B; 0xAF; 0x36].

(** The frame above as the decoder reads it. *)
Definition mm_pos_odd : modesMessage :=
  fst (decodeModesMessage atan2_stub true false 5 icao_cache_init mm_zero frame_pos_odd).

(** A record with the even snapshot of the worked example; the odd
    message arrives 20 seconds later, too late to be paired. *)
Definition ac_even_only : aircraft :=
  set_even_cpr (interactiveCreateAircraft 0x4840D6 1000) 92095 39846 1000000.

(** A raw-input client that sends 1024 letters and no newline. *)
Definition flood : list Z := replicate 1024 65.

(** Message bit [j] as the source tests it: [msg[j/8] & bitmask]. *)
Definition bit_of (msg : list Z) (j : nat) : bool :=
  negb (Z.land (msg !!! (j / 8)%nat) (bitmask j) =? 0).

(** The table entry bit [j] contributes, or 0. *)
Definition contrib (msg : list Z) (offset j : nat) : Z :=
  if bit_of msg j then modes_checksum_table !!! (j + offset)%nat else 0.

(** Exclusive-or of [g j] over the indices of [l], from [c]. *)
Definition xor_fold (g : nat -> Z) (l : list nat) (c : Z) : Z :=
  fold_left (fun crc j => Z.lxor crc (g j)) l c.

(** The table offset of a [bits]-bit message. *)
Definition table_offset (bits : nat) : nat :=
  if (bits =? 112)%nat then 0%nat else (112 - 56)%nat.

(** Every cell of the buffer holds an [unsigned char]. *)
Definition bytes_ok (msg : list Z) : Prop :=
  Forall (fun b => 0 <= b < 256) msg.

(** The three bytes of a stored CRC, and a mask [m] applied to one of them. *)
Definition crc3 (b1 b2 b3 : Z) : Z :=
  Z.lor (Z.lor (Z.shiftl b1 16) (Z.shiftl b2 8)) b3.

(** What flipping bit [k] does to the stored CRC of a [bits]-bit
    message: bit [bits-1-k] of it when [k] is one of the last 24 bits. *)
Definition crc_bit (bits k : nat) : Z :=
  if (bits - 24 <=? k)%nat then 2 ^ Z.of_nat (bits - 1 - k) else 0.

(** The CRC residual of a buffer: stored CRC xor computed CRC. *)
Definition residual (msg : list Z) (bits : nat) : Z :=
  Z.lxor (trailing_crc msg bits) (modesChecksum msg bits).

(** The residual a flip of bit [k] alone produces. *)
Definition syndrome (bits k : nat) : Z :=
  Z.lxor (crc_bit bits k) (modes_checksum_table !!! (k + table_offset bits)%nat).

(** The syndromes of the bits of a [bits]-bit message are pairwise distinct. *)
Definition syndromes_distinct (bits : nat) : bool :=
  forallb (fun j => forallb (fun k => implb (syndrome bits j =? syndrome bits k)
                                            (j =? k)%nat)
                            (seq 0 bits))
          (seq 0 bits).

(** No single flipped bit leaves the residual at zero. *)
Definition syndromes_nonzero (bits : nat) : bool :=
  forallb (fun k => negb (syndrome bits k =? 0)) (seq 0 bits).

(** [r] is a nearest integer to the square root of [n]:
    [|r - sqrt n| <= 1/2], without the square root. *)
Definition nearest_int_to_sqrt (r n : Z) : Prop :=
  0 <= r /\ (2 * r - 1) * (2 * r - 1) <= 4 * n <= (2 * r + 1) * (2 * r + 1).

(** The conversion truncates: on [ew, ns], the value [v] stored has
    [v*v <= ns*ns + ew*ew < (v+1)*(v+1)]. *)
Definition velocity_check (ew ns : Z) : bool :=
  let v := decode_velocity ew ns in
  let n := ns * ns + ew * ew in
  (0 <=? v) && (v * v <=? n) && (n <? (v + 1) * (v + 1)).

(** A velocity frame of subtype 1 with the magnitudes of scenario 6:
    E/W 9, N/S 160. *)
Definition frame_vel : list Z :=
  [0x8D; 0x48; 0x50; 0x20; 0x99; 0x44; 0x09; 0x94; 0x08; 0x38; 0x17; 0x5B; 0x28; 0x4F].

(** A velocity frame of subtype 1 with E/W 2 and N/S 2, with a valid CRC. *)
Definition frame_vel_2_2 : list Z :=
  [0x8D; 0x48; 0x40; 0xD6; 0x99; 0x00; 0x02; 0x00; 0x40; 0x00; 0x00; 0x19; 0x35; 0x19].

(** A DF4 (altitude reply) frame of address ABCDEF at 36,000 ft: its last
    three bytes are the address xor the CRC.  The second half of the
    14-byte buffer is not part of the frame. *)
Definition frame_df4 : list Z :=
  [0x20; 0x00; 0x17; 0x18; 0xE1; 0xC3; 0x84; 0; 0; 0; 0; 0; 0; 0].

(** The computed CRC of a [bits]-bit buffer equals the CRC it carries. *)
Definition crc_valid (msg : list Z) (bits : nat) : Prop :=
  modesChecksum msg bits = trailing_crc msg bits.

(** The table entries of the 24 parity bits are zero. *)
Definition parity_entries_zero : bool :=
  forallb (fun j => modes_checksum_table !!! j =? 0) (seq 88 24).

(** The outcome of the single-bit loop: nothing found, or the first bit
    whose flip validates the CRC. *)
Definition single_repair_outcome (msg : list Z) (bits : nat) (r : Z * list Z) : Prop :=
  (fst r = -1 /\ snd r = msg /\
   forall k : nat, (k < bits)%nat -> ~ crc_valid (flip_bit msg k) bits) \/
  (exists k : nat, (k < bits)%nat /\ fst r = Z.of_nat k /\ snd r = flip_bit msg k /\
     crc_valid (flip_bit msg k) bits /\
     forall k' : nat, (k' < k)%nat -> ~ crc_valid (flip_bit msg k') bits).

(** The outcome of the two-bit loop: nothing found, or the first pair
    [j < i] (in the order of the loops) whose flips validate the CRC,
    returned as [j | (i << 8)]. *)
Definition double_repair_outcome (msg : list Z) (bits : nat) (r : Z * list Z) : Prop :=
  (fst r = -1 /\ snd r = msg /\
   forall j i : nat, (j < i < bits)%nat ->
     ~ crc_valid (flip_bit (flip_bit msg j) i) bits) \/
  (exists j i : nat, (j < i < bits)%nat /\
     fst r = Z.lor (Z.of_nat j) (Z.shiftl (Z.of_nat i) 8) /\
     snd r = flip_bit (flip_bit msg j) i /\
     crc_valid (flip_bit (flip_bit msg j) i) bits /\
     forall j' i' : nat, (j' < i' < bits)%nat ->
       (j' < j)%nat \/ (j' = j /\ (i' < i)%nat) ->
       ~ crc_valid (flip_bit (flip_bit msg j') i') bits).

(** The residual the flips of bits [j] and [i] produce together. *)
Definition pair_syndrome (bits j i : nat) : Z :=
  Z.lxor (syndrome bits j) (syndrome bits i).

(** The pairs [j < i] in the order [fixTwoBitsErrors] visits them. *)
Definition bit_pairs (bits : nat) : list (nat * nat) :=
  flat_map (fun j => List.map (fun i => (j, i)) (seq (S j) (bits - S j))) (seq 0 bits).

(** The pairs indexed by their syndrome. *)
Definition pair_table (bits : nat) : Pmap (nat * nat) :=
  fold_left (fun m p => <[Z.to_pos (pair_syndrome bits (fst p) (snd p)) := p]> m)
            (bit_pairs bits) ∅.

(** Looking a pair's syndrome up gives the pair back: no two pairs share
    a syndrome. *)
Definition pair_syndromes_distinct (bits : nat) : bool :=
  let t := pair_table bits in
  forallb (fun p => match t !! Z.to_pos (pair_syndrome bits (fst p) (snd p)) with
                    | Some q => (fst q =? fst p)%nat && (snd q =? snd p)%nat
                    | None => false
                    end)
          (bit_pairs bits).

(** No single bit has the syndrome of a pair. *)
Definition pair_syndromes_apart (bits : nat) : bool :=
  let t := pair_table bits in
  forallb (fun k => match t !! Z.to_pos (syndrome bits k) with
                    | Some _ => false
                    | None => true
                    end)
          (seq 0 bits).

(** [m] is [msg] with one bit, or (two-bit repair of a DF17 frame) two
    bits flipped, as the error code [e] tells. *)
Definition repaired_from (ag : bool) (msgtype : Z) (bits : nat)
    (msg : list Z) (e : Z) (m : list Z) : Prop :=
  (exists k : nat, (k < bits)%nat /\ e = Z.of_nat k /\ m = flip_bit msg k) \/
  (ag = true /\ msgtype = 17 /\
   exists j i : nat, (j < i < bits)%nat /\
     e = Z.lor (Z.of_nat j) (Z.shiftl (Z.of_nat i) 8) /\
     m = flip_bit (flip_bit msg j) i).

(** Every table entry is a 24-bit number. *)
Definition table_entries_24bit : bool :=
  forallb (fun x => (0 <=? x) && (x <? 2 ^ 24)) modes_checksum_table.

(** The downlink formats whose last 24 bits are the CRC XOR the address. *)
Definition address_parity_format (df : Z) : bool :=
  (df =? 0) || (df =? 4) || (df =? 5) || (df =? 16) ||
  (df =? 20) || (df =? 21) || (df =? 24).

(** The record a lookup of [addr] designates. *)
Definition tracked (addr : Z) (aircrafts : list aircraft) : option aircraft :=
  option_map snd (interactiveFindAircraft addr aircrafts).

(** The addresses of the list, in order. *)
Definition addresses (aircrafts : list aircraft) : list Z := List.map ac_addr aircrafts.

(** What an update never changes, and what it always sets. *)
Definition heard (now : Z) (a a' : aircraft) : Prop :=
  ac_addr a' = ac_addr a /\ ac_hexaddr a' = ac_hexaddr a /\
  ac_seen a' = now /\ ac_messages a' = ac_messages a + 1.

(** A list with one aircraft, and a message from another one. *)
Definition one_aircraft : list aircraft := [interactiveCreateAircraft 0xABCDEF 900].
Definition mm_klm : modesMessage :=
  fst (decodeModesMessage atan2_stub true false 1000 icao_cache_init mm_zero frame_klm).

(** Two aircraft, last heard at 900 and at 1000. *)
Definition two_aircraft : list aircraft :=
  [interactiveCreateAircraft 0x4840D6 1000; interactiveCreateAircraft 0xABCDEF 900].

(** The table is consistent: [maxfd] is -1 when no client is connected,
    and the greatest descriptor with a client otherwise. *)
Definition table_ok (st : net_state) : Prop :=
  length (clients st) = MODES_NET_MAX_FD /\
  -1 <= maxfd st < Z.of_nat MODES_NET_MAX_FD /\
  (forall j : nat, clients st !!! j <> None -> Z.of_nat j <= maxfd st) /\
  (0 <= maxfd st -> clients st !!! Z.to_nat (maxfd st) <> None).

(** Client [j] of the table listens to [service]. *)
Definition subscribed (service : Z) (st : net_state) (j : nat) : bool :=
  match clients st !!! j with
  | Some c => c_service c =? service
  | None => false
  end.

(** Listening sockets 3 to 7, and a table with a raw-output client on
    descriptor 8, an SBS client on 9 and a raw-output client on 10. *)
Definition sockets_example : sockets :=
  {| ros := 3; ris := 4; https := 5; sbsos := 6; trs := 7 |}.
Definition table_example : net_state :=
  modesAcceptClients sockets_example
    [(8, replicate 1025 0); (10, replicate 1025 0); (-1, []); (-1, []); (-1, []);
     (9, replicate 1025 0); (-1, []); (-1, [])]
    modesInitNet.

(** The altitude of a field: 25 feet times an 11-bit number, less 1000. *)
Definition altitude_ok (a : Z) : Prop :=
  -1000 <= a <= 50175 /\ (a + 1000) mod 25 = 0.

(** A DF4 frame whose altitude field has the M and Q bits clear: the
    altitude stored is 0 and the unit feet. *)
Definition frame_df4_gillham : list Z :=
  [0x20; 0x00; 0x0A; 0x28; 0x00; 0x00; 0x00; 0; 0; 0; 0; 0; 0; 0].

(** The characters read and not yet consumed. *)
Definition unread (st : hex_state) : list Z :=
  drop (Z.to_nat (hex_buffer_idx st)) (take (Z.to_nat (hex_buffer_len st)) (hex_buffer st)).

(** The reader between two lines: the buffers have their size, the
    indices are inside them, and the line under construction is empty. *)
Definition reader_ok (st : hex_state) : Prop :=
  length (hex_buffer st) = MODES_HEX_LEN /\ length (hex_data st) = MODES_HEX_LEN /\
  0 <= hex_buffer_idx st /\ hex_buffer_len st <= Z.of_nat MODES_HEX_LEN.

(** The data of the reads, in order. *)
Definition chunks_data (chunks : list (list Z)) : list read_result :=
  List.map ReadData chunks.

(** The reader in the middle of a line: [done] is stored in [hex_data]. *)
Definition reading (done : list Z) (st : hex_state) : Prop :=
  reader_ok st /\ hex_data_len st = Z.of_nat (length done) /\
  take (length done) (hex_data st) = done.

(** One iteration that refills the buffer from a read of [c]. *)
Definition refilled (c : list Z) (st : hex_state) : hex_state :=
  {| hex_buffer := c ++ drop (length c) (hex_buffer st);
     hex_buffer_len := Z.of_nat (length c); hex_buffer_idx := 0;
     hex_data := hex_data st; hex_data_len := hex_data_len st;
     exit_flag := exit_flag st |}.

(** The reader as [modesInit] leaves it. *)
Definition hex_state_init : hex_state :=
  {| hex_buffer := replicate MODES_HEX_LEN 0; hex_buffer_len := 0; hex_buffer_idx := 0;
     hex_data := replicate MODES_HEX_LEN 0; hex_data_len := 0; exit_flag := false |}.

(** * Properties *)

(** ** The embedding on the scenarios of the specification *)

(** Scenario 1: the CRC of the frame is valid. *)
Example frame_klm_crc :
  modesChecksum frame_klm 112 = trailing_crc frame_klm 112.
Proof. reflexivity. Qed.

(** Scenario 4 on the repair function: bit 37 flipped. *)
Example frame_klm_repair :
  fixSingleBitErrors (flip_bit frame_klm 37) 112 = (37, frame_klm).
Proof. vm_compute. reflexivity. Qed.

(** The conversions on a negative fraction, and back and forth. *)
Example int_of_double_trunc : int_of_double (-2.75)%float = -2.
Proof. reflexivity. Qed.

Example floor_int_neg : floor_int (-2.75)%float = -3.
Proof. reflexivity. Qed.

Example double_int_roundtrip : int_of_double (double_of_int (-131071)) = -131071.
Proof. reflexivity. Qed.

(** Scenario 1: the DF17 identification frame. *)
Example scenario_klm :
  let mm := fst (decodeModesMessage atan2_stub true false 1000 icao_cache_init mm_zero frame_klm) in
  mm_msgtype mm = 17 /\ mm_crcok mm = true /\ mm_metype mm = 4 /\
  (mm_aa1 mm, mm_aa2 mm, mm_aa3 mm) = (0x48, 0x40, 0xD6) /\
  mm_flight mm = "KLM1023 "%string /\ mm_errorbit mm = -1.
Proof. vm_compute. repeat split; reflexivity. Qed.

(** The resolver on the worked example. *)
Example cpr_example_position :
  let a := decodeCPR cpr_example in
  ac_lat a = 10.215774536132812%float /\ ac_lon a = 123.88881877317266%float.
Proof. vm_compute. split; reflexivity. Qed.

(** A hex record and its bytes. *)
Example hexToBin_klm :
  hexToBin (cstr "*8D4840D6202CC371C32CE0576098;") (replicate 14 0) = (0, frame_klm).
Proof. vm_compute. reflexivity. Qed.

Example well_formed_klm :
  well_formed_line (cstr " *8D4840D6202CC371C32CE0576098; ") = true.
Proof. vm_compute. reflexivity. Qed.

(** One read that brings a complete record and the start of the next:
    the record is decoded, displayed and sent on; five bytes stay in the
    buffer. *)
Example raw_in_two_lines :
  let '(c, w, freed) :=
    modesReadFromClient world (cstr (String "010" EmptyString))
      (raw_in_handler atan2_stub default_config 1000 1000000 (replicate 14 0) mm_zero)
      [ReadData (cstr "*8D4840D6202CC371C32CE0576098;" ++ [10] ++ cstr "*8D48"); ReadEAGAIN]
      (client_init 7 1) world_init in
  freed = false /\ c_buflen c = 5%nat /\ length (w_out w) = 2%nat.
Proof. vm_compute. repeat split; reflexivity. Qed.

(** ** Frame length (C9) *)

Lemma modesMessageLenByType_long (type : Z) :
  modesMessageLenByType type = 112%nat <->
  type = 16 \/ type = 17 \/ type = 19 \/ type = 20 \/ type = 21.
Proof.
  unfold modesMessageLenByType, MODES_LONG_MSG_BITS, MODES_SHORT_MSG_BITS.
  destruct (type =? 16) eqn:E16; [apply Z.eqb_eq in E16; tauto|].
  destruct (type =? 17) eqn:E17; [apply Z.eqb_eq in E17; tauto|].
  destruct (type =? 19) eqn:E19; [apply Z.eqb_eq in E19; tauto|].
  destruct (type =? 20) eqn:E20; [apply Z.eqb_eq in E20; tauto|].
  destruct (type =? 21) eqn:E21; [apply Z.eqb_eq in E21; tauto|].
  apply Z.eqb_neq in E16, E17, E19, E20, E21. simpl.
  split; [discriminate | intros H; decompose [or] H; contradiction].
Qed.

Lemma modesMessageLenByType_cases (type : Z) :
  modesMessageLenByType type = 112%nat \/ modesMessageLenByType type = 56%nat.
Proof.
  unfold modesMessageLenByType, MODES_LONG_MSG_BITS, MODES_SHORT_MSG_BITS.
  destruct (_ || _); auto.
Qed.

(** The fields of the decoded message that do not depend on the repair. *)
Lemma decode_msgtype atan2 fe ag now cache mm0 msg0 :
  mm_msgtype (fst (decodeModesMessage atan2 fe ag now cache mm0 msg0))
  = Z.shiftr (msg0 !!! 0%nat) 3.
Proof.
  unfold decodeModesMessage.
  destruct (decode_repair _ _ _ _ _ _ _) as [[[e m] c] ok]. simpl.
  rewrite lookup_total_take_lt; [reflexivity | unfold MODES_LONG_MSG_BYTES; lia].
Qed.

Lemma decode_msgbits atan2 fe ag now cache mm0 msg0 :
  mm_msgbits (fst (decodeModesMessage atan2 fe ag now cache mm0 msg0))
  = modesMessageLenByType (Z.shiftr (msg0 !!! 0%nat) 3).
Proof.
  unfold decodeModesMessage.
  destruct (decode_repair _ _ _ _ _ _ _) as [[[e m] c] ok]. simpl.
  rewrite lookup_total_take_lt; [reflexivity | unfold MODES_LONG_MSG_BYTES; lia].
Qed.

(** C9: the bit length of every decoded frame is 112 exactly when its
    downlink format, the high five bits of byte 0, is one of 16, 17, 19,
    20, 21, and it is 56 for every other downlink format. *)
Theorem C9_bit_length_by_downlink_format :
  forall atan2 fe ag now cache mm0 (msg0 : list Z),
    let mm := fst (decodeModesMessage atan2 fe ag now cache mm0 msg0) in
    let df := Z.shiftr (msg0 !!! 0%nat) 3 in
    mm_msgtype mm = df /\
    (mm_msgbits mm = 112%nat <-> df = 16 \/ df = 17 \/ df = 19 \/ df = 20 \/ df = 21) /\
    (~ (df = 16 \/ df = 17 \/ df = 19 \/ df = 20 \/ df = 21) -> mm_msgbits mm = 56%nat).
Proof.
  intros atan2 fe ag now cache mm0 msg0 mm df. subst mm df.
  rewrite decode_msgtype, decode_msgbits.
  split; [reflexivity|]. split; [apply modesMessageLenByType_long|].
  intros Hn. destruct (modesMessageLenByType_cases (Z.shiftr (msg0 !!! 0%nat) 3)) as [H|H];
    [apply modesMessageLenByType_long in H; contradiction | exact H].
Qed.

(** ** The recency cache (C4) *)

Lemma ICAOCacheHashAddress_range (a : Z) :
  0 <= ICAOCacheHashAddress a < 1024.
Proof.
  unfold ICAOCacheHashAddress, MODES_ICAO_CACHE_LEN.
  set (x := Z.lxor _ _).
  change (1024 - 1) with (Z.ones 10).
  rewrite Z.land_ones by lia.
  apply Z.mod_pos_bound. lia.
Qed.

Lemma slot_addr_insert (addr t : Z) (icao_cache : list Z) :
  length icao_cache = 2048%nat ->
  slot_addr addr (addRecentlySeenICAOAddr addr t icao_cache) = addr.
Proof.
  intros Hlen. unfold slot_addr, addRecentlySeenICAOAddr.
  pose proof (ICAOCacheHashAddress_range addr) as Hh.
  rewrite list_lookup_total_insert_ne by lia.
  apply list_lookup_total_insert_eq. lia.
Qed.

Lemma slot_time_insert (addr t : Z) (icao_cache : list Z) :
  length icao_cache = 2048%nat ->
  slot_time addr (addRecentlySeenICAOAddr addr t icao_cache) = u32 t.
Proof.
  intros Hlen. unfold slot_time, addRecentlySeenICAOAddr.
  pose proof (ICAOCacheHashAddress_range addr) as Hh.
  apply list_lookup_total_insert_eq. rewrite length_insert. lia.
Qed.

(** An insertion of an address that hashes elsewhere leaves the slot alone. *)
Lemma slot_insert_other (addr other t : Z) (icao_cache : list Z) :
  ICAOCacheHashAddress other <> ICAOCacheHashAddress addr ->
  slot_addr addr (addRecentlySeenICAOAddr other t icao_cache) = slot_addr addr icao_cache /\
  slot_time addr (addRecentlySeenICAOAddr other t icao_cache) = slot_time addr icao_cache.
Proof.
  intros Hne. unfold slot_addr, slot_time, addRecentlySeenICAOAddr.
  pose proof (ICAOCacheHashAddress_range addr) as Hh.
  pose proof (ICAOCacheHashAddress_range other) as Ho.
  rewrite !list_lookup_total_insert_ne by lia. split; reflexivity.
Qed.

(** What the lookup tests, on the two words of the slot. *)
Lemma ICAOAddressWasRecentlySeen_slot (addr now : Z) (icao_cache : list Z) :
  ICAOAddressWasRecentlySeen addr now icao_cache = true <->
  slot_addr addr icao_cache <> 0 /\
  slot_addr addr icao_cache = addr /\
  now - slot_time addr icao_cache <= 60.
Proof.
  unfold ICAOAddressWasRecentlySeen, MODES_ICAO_CACHE_TTL.
  fold (slot_addr addr icao_cache). fold (slot_time addr icao_cache).
  rewrite !andb_true_iff, negb_true_iff, Z.eqb_neq, Z.eqb_eq, Z.leb_le. tauto.
Qed.

Lemma ICAOAddressWasRecentlySeen_insert_other (addr now other t1 : Z) (icao_cache : list Z) :
  ICAOCacheHashAddress other <> ICAOCacheHashAddress addr ->
  ICAOAddressWasRecentlySeen addr now (addRecentlySeenICAOAddr other t1 icao_cache)
  = ICAOAddressWasRecentlySeen addr now icao_cache.
Proof.
  intros Hne. unfold ICAOAddressWasRecentlySeen.
  fold (slot_addr addr (addRecentlySeenICAOAddr other t1 icao_cache)).
  fold (slot_time addr (addRecentlySeenICAOAddr other t1 icao_cache)).
  fold (slot_addr addr icao_cache). fold (slot_time addr icao_cache).
  destruct (slot_insert_other addr other t1 icao_cache Hne) as [-> ->].
  reflexivity.
Qed.

Lemma ICAOAddressWasRecentlySeen_insertions (addr now : Z) (later : list (Z * Z)) :
  List.Forall (fun p => ICAOCacheHashAddress (fst p) <> ICAOCacheHashAddress addr) later ->
  forall icao_cache : list Z,
    ICAOAddressWasRecentlySeen addr now (insertions later icao_cache)
    = ICAOAddressWasRecentlySeen addr now icao_cache.
Proof.
  unfold insertions. induction 1 as [|p later Hp _ IH]; intros icao_cache; [reflexivity|].
  cbn [fold_left]. rewrite IH. apply ICAOAddressWasRecentlySeen_insert_other. exact Hp.
Qed.

(** C4, as the code has it: a lookup answers true exactly when the slot
    the address hashes to holds a non-zero address equal to it and the
    lookup time minus the stored timestamp is at most 60 seconds.  The
    timestamp stored is the time of insertion as a 32-bit unsigned value.
    So, after the insertion of a non-zero address at time [t0], a lookup
    at time [now] answers true exactly when [now - t0 mod 2^32 <= 60], in
    particular when [0 <= t0 < 2^32] and the lookup comes within 60 s;
    later insertions that hash to other slots do not change the answer,
    and the insertion of a different address that hashes to the same slot
    makes it false. *)
Theorem C4_contains_recent :
  forall (addr now : Z) (icao_cache : list Z),
    (ICAOAddressWasRecentlySeen addr now icao_cache = true <->
       slot_addr addr icao_cache <> 0 /\
       slot_addr addr icao_cache = addr /\
       now - slot_time addr icao_cache <= 60) /\
    (forall t0, length icao_cache = 2048%nat ->
       slot_addr addr (addRecentlySeenICAOAddr addr t0 icao_cache) = addr /\
       slot_time addr (addRecentlySeenICAOAddr addr t0 icao_cache) = t0 mod 2 ^ 32) /\
    (forall t0 later, length icao_cache = 2048%nat -> addr <> 0 ->
       List.Forall (fun p => ICAOCacheHashAddress (fst p) <> ICAOCacheHashAddress addr) later ->
       (ICAOAddressWasRecentlySeen addr now
          (insertions later (addRecentlySeenICAOAddr addr t0 icao_cache)) = true
        <-> now - t0 mod 2 ^ 32 <= 60)) /\
    (forall t0, length icao_cache = 2048%nat -> addr <> 0 ->
       0 <= t0 < 2 ^ 32 -> now - t0 <= 60 ->
       ICAOAddressWasRecentlySeen addr now
         (addRecentlySeenICAOAddr addr t0 icao_cache) = true) /\
    (forall other t1,
       ICAOCacheHashAddress other <> ICAOCacheHashAddress addr ->
       ICAOAddressWasRecentlySeen addr now
         (addRecentlySeenICAOAddr other t1 icao_cache)
       = ICAOAddressWasRecentlySeen addr now icao_cache) /\
    (forall other t1, length icao_cache = 2048%nat ->
       other <> addr -> ICAOCacheHashAddress other = ICAOCacheHashAddress addr ->
       ICAOAddressWasRecentlySeen addr now
         (addRecentlySeenICAOAddr other t1 icao_cache) = false).
Proof.
  intros addr now icao_cache.
  assert (Hins : forall t0, length icao_cache = 2048%nat ->
            slot_addr addr (addRecentlySeenICAOAddr addr t0 icao_cache) = addr /\
            slot_time addr (addRecentlySeenICAOAddr addr t0 icao_cache) = t0 mod 2 ^ 32).
  { intros t0 Hlen. split; [apply slot_addr_insert | apply slot_time_insert]; exact Hlen. }
  assert (Hone : forall t0, length icao_cache = 2048%nat -> addr <> 0 ->
            (ICAOAddressWasRecentlySeen addr now
               (addRecentlySeenICAOAddr addr t0 icao_cache) = true
             <-> now - t0 mod 2 ^ 32 <= 60)).
  { intros t0 Hlen Hnz. rewrite ICAOAddressWasRecentlySeen_slot.
    destruct (Hins t0 Hlen) as [-> ->]. tauto. }
  split; [apply ICAOAddressWasRecentlySeen_slot|].
  split; [exact Hins|].
  split; [|split; [|split]].
  - intros t0 later Hlen Hnz Hlater.
    rewrite ICAOAddressWasRecentlySeen_insertions by exact Hlater.
    apply Hone; assumption.
  - intros t0 Hlen Hnz Ht0 Hage. apply Hone; [assumption | assumption |].
    rewrite Z.mod_small by exact Ht0. exact Hage.
  - intros other t1 Hne. apply ICAOAddressWasRecentlySeen_insert_other. exact Hne.
  - intros other t1 Hlen Hne Hhash.
    apply not_true_is_false. rewrite ICAOAddressWasRecentlySeen_slot.
    intros [_ [Heq _]]. apply Hne. rewrite <- Heq.
    unfold slot_addr. rewrite <- Hhash. symmetry.
    apply slot_addr_insert. exact Hlen.
Qed.

(** An address inserted at second 1000, followed by the insertion of
    another address in another slot, and looked up 30 seconds later. *)
Lemma C4_witness :
  ICAOAddressWasRecentlySeen 0xABCDEF 1030
    (insertions [(0x4840D6, 1010)]
       (addRecentlySeenICAOAddr 0xABCDEF 1000 icao_cache_init)) = true.
Proof.
  refine (proj2 (proj1 (proj2 (proj2 (C4_contains_recent 0xABCDEF 1030 icao_cache_init)))
                   1000 [(0x4840D6, 1010)] _ _ _) _).
  - reflexivity.
  - discriminate.
  - constructor; [vm_compute; discriminate | constructor].
  - vm_compute. discriminate.
Defined.

(** The timestamp is stored in 32 bits: an insertion at second 2^32 + 10
    stores 10, and a lookup in the same second finds an age of 2^32. *)
Example ICAOAddressWasRecentlySeen_time_wrap :
  ICAOAddressWasRecentlySeen 0xABCDEF (2 ^ 32 + 10)
    (addRecentlySeenICAOAddr 0xABCDEF (2 ^ 32 + 10) icao_cache_init) = false.
Proof. vm_compute. reflexivity. Qed.

(** The claim as worded, without the non-zero test, fails at address 0:
    just after [insert(0)] the slot holds an address equal to 0 with age 0,
    and the lookup answers false. *)
Lemma C4_counterexample_zero_address :
  ~ (forall (addr now : Z) (icao_cache : list Z),
       ICAOAddressWasRecentlySeen addr now icao_cache = true <->
       slot_addr addr icao_cache = addr /\ now - slot_time addr icao_cache <= 60).
Proof.
  intros H.
  specialize (H 0 100 (addRecentlySeenICAOAddr 0 100 icao_cache_init)).
  assert (Hf : ICAOAddressWasRecentlySeen 0 100
                 (addRecentlySeenICAOAddr 0 100 icao_cache_init) = false)
    by (vm_compute; reflexivity).
  rewrite Hf in H. destruct H as [_ H].
  assert (Hc : false = true);
    [apply H; vm_compute; split; [reflexivity | discriminate] | discriminate].
Qed.

(** ** Admission to the recency cache (C2) *)

(** The cache after [decodeModesMessage], in terms of the decoded fields. *)
Lemma decode_cache atan2 fe ag now cache mm0 msg0 :
  let mm := fst (decodeModesMessage atan2 fe ag now cache mm0 msg0) in
  snd (decodeModesMessage atan2 fe ag now cache mm0 msg0)
  = if ((mm_msgtype mm =? 11) || (mm_msgtype mm =? 17)) && mm_crcok mm
       && (mm_errorbit mm =? -1)
    then addRecentlySeenICAOAddr (mm_addr mm) now cache
    else cache.
Proof.
  unfold decodeModesMessage, mm_addr.
  destruct (decode_repair _ _ _ _ _ _ _) as [[[e m] c] ok]. simpl.
  destruct (_ =? 11); destruct (_ =? 17); simpl; reflexivity.
Qed.

(** The repair step ends with a valid CRC and no corrected bit exactly
    when the CRC was valid to begin with. *)
Lemma decode_repair_untouched fe ag (msg : list Z) msgtype msgbits crc0 crcok0 :
  let r := decode_repair fe ag msg msgtype msgbits crc0 crcok0 in
  (snd r = true /\ fst (fst (fst r)) = -1) <-> crcok0 = true.
Proof.
  unfold decode_repair.
  destruct crcok0; cbn [negb andb]; [cbn [fst snd]; tauto|].
  destruct (fe && ((msgtype =? 11) || (msgtype =? 17)));
    [|cbn [fst snd]; split; [intros [H _]; exact H | discriminate]].
  destruct (fixSingleBitErrors msg msgbits) as [e1 m1].
  destruct (Z.eqb_spec e1 (-1)) as [E1|E1]; cbn [negb].
  - destruct (ag && (msgtype =? 17)).
    + destruct (fixTwoBitsErrors m1 msgbits) as [e2 m2].
      destruct (Z.eqb_spec e2 (-1)) as [E2|E2]; cbn [negb fst snd];
        split; try discriminate; intros [H1 H2]; congruence.
    + cbn [fst snd]. split; [intros [H _]; exact H | discriminate].
  - cbn [fst snd]. split; [intros [_ H]; contradiction | discriminate].
Qed.

Lemma decode_admitted_received atan2 fe ag now cache mm0 (msg0 : list Z) :
  let mm := fst (decodeModesMessage atan2 fe ag now cache mm0 msg0) in
  let msg := take MODES_LONG_MSG_BYTES msg0 in
  mm_msgtype mm = 11 \/ mm_msgtype mm = 17 ->
  (mm_crcok mm = true /\ mm_errorbit mm = -1 <->
   trailing_crc msg (mm_msgbits mm) = modesChecksum msg (mm_msgbits mm)).
Proof.
  unfold decodeModesMessage. cbv zeta.
  match goal with
  | |- context [decode_repair ?a ?b ?c ?d ?e ?f ?g] =>
      pose proof (decode_repair_untouched a b c d e f g) as H;
      destruct (decode_repair a b c d e f g) as [[[e1 m] c1] ok]
  end.
  cbv zeta in H. cbn [fst snd] in H.
  cbn [fst mm_msgtype mm_crcok mm_errorbit mm_msgbits].
  intros Hdf.
  assert (H1117 : ((Z.shiftr (take MODES_LONG_MSG_BYTES msg0 !!! 0%nat) 3 =? 11)
                   || (Z.shiftr (take MODES_LONG_MSG_BYTES msg0 !!! 0%nat) 3 =? 17)) = true)
    by (destruct Hdf as [-> | ->]; reflexivity).
  rewrite H1117. rewrite H. apply Z.eqb_eq.
Qed.

(** An insertion writes the two words of the address's slot and nothing
    else. *)
Lemma addRecentlySeenICAOAddr_elsewhere (addr t : Z) (icao_cache : list Z) (i : nat) :
  i <> (Z.to_nat (ICAOCacheHashAddress addr) * 2)%nat ->
  i <> (Z.to_nat (ICAOCacheHashAddress addr) * 2 + 1)%nat ->
  addRecentlySeenICAOAddr addr t icao_cache !!! i = icao_cache !!! i.
Proof.
  intros H0 H1. unfold addRecentlySeenICAOAddr. cbv zeta.
  rewrite !list_lookup_total_insert_ne by (intros E; symmetry in E; contradiction).
  reflexivity.
Qed.

Lemma length_addRecentlySeenICAOAddr (addr t : Z) (icao_cache : list Z) :
  length (addRecentlySeenICAOAddr addr t icao_cache) = length icao_cache.
Proof. unfold addRecentlySeenICAOAddr. cbv zeta. rewrite !length_insert. reflexivity. Qed.

(** C2: decoding a frame writes an address into the recency cache exactly
    when the frame is DF11 or DF17, its CRC is valid and no bit was
    corrected ([errorbit = -1]).  When it does, the slot the frame's
    address hashes to holds that address and the time of the call (as a
    32-bit value) afterwards, and every other word of the cache is as it
    was; in every other case, in particular after a single-bit or a
    two-bit repair, the cache is left as it was, so a cache that has
    changed tells that the frame was admitted.  For a DF11 or DF17 frame,
    "CRC valid and no bit corrected" says that the CRC of the frame as
    received was valid. *)
Theorem C2_cache_admission :
  forall atan2 fe ag now cache mm0 (msg0 : list Z),
    let mm := fst (decodeModesMessage atan2 fe ag now cache mm0 msg0) in
    let cache' := snd (decodeModesMessage atan2 fe ag now cache mm0 msg0) in
    let received := take MODES_LONG_MSG_BYTES msg0 in
    let admitted := (mm_msgtype mm = 11 \/ mm_msgtype mm = 17) /\
                    mm_crcok mm = true /\ mm_errorbit mm = -1 in
    (admitted -> cache' = addRecentlySeenICAOAddr (mm_addr mm) now cache) /\
    (~ admitted -> cache' = cache) /\
    (mm_errorbit mm <> -1 -> cache' = cache) /\
    (admitted <->
       (mm_msgtype mm = 11 \/ mm_msgtype mm = 17) /\
       trailing_crc received (mm_msgbits mm) = modesChecksum received (mm_msgbits mm)) /\
    (admitted -> length cache = 2048%nat ->
       slot_addr (mm_addr mm) cache' = mm_addr mm /\
       slot_time (mm_addr mm) cache' = now mod 2 ^ 32 /\
       length cache' = 2048%nat /\
       forall i : nat,
         i <> (Z.to_nat (ICAOCacheHashAddress (mm_addr mm)) * 2)%nat ->
         i <> (Z.to_nat (ICAOCacheHashAddress (mm_addr mm)) * 2 + 1)%nat ->
         cache' !!! i = cache !!! i) /\
    (cache' <> cache -> admitted).
Proof.
  intros atan2 fe ag now cache mm0 msg0 mm cache' received admitted.
  assert (Hrecv : admitted <->
            (mm_msgtype mm = 11 \/ mm_msgtype mm = 17) /\
            trailing_crc received (mm_msgbits mm) = modesChecksum received (mm_msgbits mm)).
  { subst admitted. split; intros [Hdf H]; (split; [exact Hdf|]);
      apply (decode_admitted_received atan2 fe ag now cache mm0 msg0 Hdf); exact H. }
  assert (Hcases : (admitted /\ cache' = addRecentlySeenICAOAddr (mm_addr mm) now cache) \/
                   (~ admitted /\ cache' = cache)).
  { subst cache' admitted. rewrite decode_cache. fold mm.
    destruct (mm_msgtype mm =? 11) eqn:E11; destruct (mm_msgtype mm =? 17) eqn:E17;
      destruct (mm_crcok mm) eqn:Eok; destruct (mm_errorbit mm =? -1) eqn:Ee; simpl;
      rewrite ?Z.eqb_eq, ?Z.eqb_neq in *;
      first [ left; split; [tauto | reflexivity]
            | right; split; [|reflexivity]; intros [Hdf [Hok He]];
              first [discriminate | contradiction | destruct Hdf; contradiction] ]. }
  split; [|split; [|split; [|split; [exact Hrecv|split]]]]; clear Hrecv.
  - intros Ha. destruct Hcases as [[_ H] | [Hn _]]; [exact H | contradiction].
  - intros Hn. destruct Hcases as [[Ha _] | [_ H]]; [contradiction | exact H].
  - intros He. destruct Hcases as [[[_ [_ Ha]] _] | [_ H]]; [contradiction | exact H].
  - intros Ha Hlen. destruct Hcases as [[_ H] | [Hn _]]; [|contradiction].
    rewrite H. split; [apply slot_addr_insert; exact Hlen|].
    split; [apply slot_time_insert; exact Hlen|].
    split; [rewrite length_addRecentlySeenICAOAddr; exact Hlen|].
    intros i H0 H1. apply addRecentlySeenICAOAddr_elsewhere; assumption.
  - intros Hne. destruct Hcases as [[Ha _] | [_ H]]; [exact Ha | contradiction].
Qed.

(** The scenario frame, a DF17 frame with a valid CRC, decoded on the
    empty cache: the slot of its address 4840D6 holds the address and the
    time of the call afterwards. *)
Lemma C2_witness :
  let cache' := snd (decodeModesMessage atan2_stub true false 1000 icao_cache_init
                       mm_zero frame_klm) in
  slot_addr 0x4840D6 cache' = 0x4840D6 /\ slot_time 0x4840D6 cache' = 1000.
Proof.
  destruct (C2_cache_admission atan2_stub true false 1000 icao_cache_init mm_zero frame_klm)
    as [_ [_ [_ [_ [H _]]]]].
  cbv zeta in H.
  destruct (H ltac:(vm_compute; split; [right; reflexivity | split; reflexivity]) eq_refl)
    as [Ha [Ht _]].
  cbv zeta. split; [exact Ha | exact Ht].
Defined.

(** ** The squawk decoder (C6) *)

Lemma forall_from_spec (lo : Z) (n : nat) (p : Z -> bool) :
  forall_from lo n p = true -> forall x, lo <= x < lo + Z.of_nat n -> p x = true.
Proof.
  revert lo. induction n as [|n IH]; intros lo H x Hx; [lia|].
  cbn [forall_from] in H. apply andb_true_iff in H as [Hlo Hrest].
  destruct (Z.eq_dec x lo) as [->|Hne]; [exact Hlo|].
  apply (IH (lo + 1)); [exact Hrest | lia].
Qed.

Lemma forall_below_spec (n : nat) (p : Z -> bool) :
  forall_below n p = true -> forall x, 0 <= x < Z.of_nat n -> p x = true.
Proof. intros H x Hx. apply (forall_from_spec 0 n p H). lia. Qed.

(** Decoding loses exactly the X bit: the code bits come back. *)
Lemma field_of_identity_of_field (x : Z) :
  0 <= x < 8192 -> field_of_identity (identity_of_field x) = code_bits x.
Proof.
  intros Hx.
  apply Z.eqb_eq.
  apply (forall_below_spec 8192
           (fun x => field_of_identity (identity_of_field x) =? code_bits x));
    [vm_compute; reflexivity | exact Hx].
Qed.

Lemma identity_of_code_bits (x : Z) :
  0 <= x < 8192 -> identity_of_field (code_bits x) = identity_of_field x.
Proof.
  intros Hx.
  apply Z.eqb_eq.
  apply (forall_below_spec 8192
           (fun x => identity_of_field (code_bits x) =? identity_of_field x));
    [vm_compute; reflexivity | exact Hx].
Qed.

(** Every four octal digits are the squawk of a field with X clear. *)
Lemma identity_of_field_of_digits (a b c d : Z) :
  0 <= a < 8 -> 0 <= b < 8 -> 0 <= c < 8 -> 0 <= d < 8 ->
  let x := field_of_digits a b c d in
  0 <= x < 8192 /\ code_bits x = x /\
  identity_of_field x = a * 1000 + b * 100 + c * 10 + d.
Proof.
  intros Ha Hb Hc Hd.
  assert (H : forall_below 8 (fun a => forall_below 8 (fun b =>
              forall_below 8 (fun c => forall_below 8 (fun d =>
                let x := field_of_digits a b c d in
                (0 <=? x) && (x <? 8192) && (code_bits x =? x) &&
                (identity_of_field x =? a * 1000 + b * 100 + c * 10 + d))))) = true)
    by (vm_compute; reflexivity).
  pose proof (forall_below_spec 8 _ H a Ha) as H1. cbv beta in H1.
  pose proof (forall_below_spec 8 _ H1 b Hb) as H2. cbv beta in H2.
  pose proof (forall_below_spec 8 _ H2 c Hc) as H3. cbv beta in H3.
  pose proof (forall_below_spec 8 _ H3 d Hd) as H4. cbv beta zeta in H4.
  rewrite !andb_true_iff in H4.
  destruct H4 as [[[H4a H4b] H4c] H4d].
  apply Z.leb_le in H4a. apply Z.ltb_lt in H4b.
  apply Z.eqb_eq in H4c, H4d. auto.
Qed.

(** The decoded squawk is four octal digits. *)
Lemma identity_of_field_digits (x : Z) :
  0 <= x < 8192 ->
  exists a b c d, 0 <= a < 8 /\ 0 <= b < 8 /\ 0 <= c < 8 /\ 0 <= d < 8 /\
    identity_of_field x = a * 1000 + b * 100 + c * 10 + d.
Proof.
  intros Hx.
  set (v := identity_of_field x).
  exists (v / 1000), (v / 100 mod 10), (v / 10 mod 10), (v mod 10).
  assert (H : forall_below 8192 (fun x =>
            let v := identity_of_field x in
            (0 <=? v / 1000) && (v / 1000 <? 8) &&
            (v / 100 mod 10 <? 8) && (v / 10 mod 10 <? 8) && (v mod 10 <? 8) &&
            (v =? v / 1000 * 1000 + v / 100 mod 10 * 100 + v / 10 mod 10 * 10 + v mod 10))
            = true) by (vm_compute; reflexivity).
  pose proof (forall_below_spec 8192 _ H x Hx) as H1. cbv beta zeta in H1. fold v in H1.
  rewrite !andb_true_iff in H1.
  destruct H1 as [[[[[Ha Ha'] Hb] Hc] Hd] Hv].
  apply Z.leb_le in Ha. apply Z.ltb_lt in Ha', Hb, Hc, Hd. apply Z.eqb_eq in Hv.
  pose proof (Z.mod_pos_bound (v / 100) 10 ltac:(lia)).
  pose proof (Z.mod_pos_bound (v / 10) 10 ltac:(lia)).
  pose proof (Z.mod_pos_bound v 10 ltac:(lia)).
  repeat split; try lia.
Qed.

(** The squawk block reads the low five bits of byte 2 and byte 3. *)
Lemma decode_identity_low_bits (msg2 msg3 : Z) :
  decode_identity (Z.land msg2 0x1f) msg3 = decode_identity msg2 msg3.
Proof.
  unfold decode_identity. rewrite <- !(Z.land_assoc msg2). reflexivity.
Qed.

Lemma field_bytes (m msg3 : Z) :
  0 <= m -> 0 <= msg3 < 256 ->
  Z.shiftr (Z.lor (Z.shiftl m 8) msg3) 8 = m /\
  Z.land (Z.lor (Z.shiftl m 8) msg3) 0xff = msg3.
Proof.
  intros Hm H3. split.
  - rewrite Z.shiftr_lor, Z.shiftr_shiftl_l by lia.
    rewrite (Z.shiftr_div_pow2 msg3) by lia.
    rewrite (Z.div_small msg3) by lia.
    rewrite Z.lor_0_r. reflexivity.
  - rewrite Z.land_lor_distr_l. change 0xff with (Z.ones 8).
    rewrite !Z.land_ones by lia. rewrite Z.shiftl_mul_pow2 by lia.
    rewrite Z.mod_mul by lia. rewrite Z.mod_small by lia. reflexivity.
Qed.

Lemma decode_identity_field (msg2 msg3 : Z) :
  0 <= msg2 < 256 -> 0 <= msg3 < 256 ->
  decode_identity msg2 msg3
  = identity_of_field (Z.lor (Z.shiftl (Z.land msg2 0x1f) 8) msg3).
Proof.
  intros H2 H3. unfold identity_of_field.
  assert (Hm : 0 <= Z.land msg2 0x1f) by (apply Z.land_nonneg; lia).
  destruct (field_bytes (Z.land msg2 0x1f) msg3 Hm H3) as [-> ->].
  symmetry. apply decode_identity_low_bits.
Qed.

Lemma decode_identity_mm atan2 fe ag now cache mm0 msg0 :
  let mm := fst (decodeModesMessage atan2 fe ag now cache mm0 msg0) in
  mm_identity mm = decode_identity (mm_msg mm !!! 2%nat) (mm_msg mm !!! 3%nat).
Proof.
  unfold decodeModesMessage.
  destruct (decode_repair _ _ _ _ _ _ _) as [[[e m] c] ok]. reflexivity.
Qed.

(** C6, as the code has it: the squawk decoder never reads the X (ZERO)
    bit.  Two 13-bit fields decode to the same squawk exactly when they
    agree on the twelve code bits, so the decoder is a bijection between
    the fields with X clear and the four-octal-digit values
    [a*1000 + b*100 + c*10 + d]; the decoded message carries the decoder's
    value on the field made of the low five bits of byte 2 and byte 3. *)
Theorem C6_squawk_bijection_on_code_bits :
  (forall x y, 0 <= x < 8192 -> 0 <= y < 8192 ->
     (identity_of_field x = identity_of_field y <-> code_bits x = code_bits y)) /\
  (forall x, 0 <= x < 8192 ->
     exists a b c d, 0 <= a < 8 /\ 0 <= b < 8 /\ 0 <= c < 8 /\ 0 <= d < 8 /\
       identity_of_field x = a * 1000 + b * 100 + c * 10 + d) /\
  (forall a b c d, 0 <= a < 8 -> 0 <= b < 8 -> 0 <= c < 8 -> 0 <= d < 8 ->
     exists x, 0 <= x < 8192 /\ code_bits x = x /\
       identity_of_field x = a * 1000 + b * 100 + c * 10 + d) /\
  (forall atan2 fe ag now cache mm0 (msg0 : list Z),
     let mm := fst (decodeModesMessage atan2 fe ag now cache mm0 msg0) in
     let msg2 := mm_msg mm !!! 2%nat in
     let msg3 := mm_msg mm !!! 3%nat in
     0 <= msg2 < 256 -> 0 <= msg3 < 256 ->
     mm_identity mm
     = identity_of_field (Z.lor (Z.shiftl (Z.land msg2 0x1f) 8) msg3)).
Proof.
  split; [|split; [|split]].
  - intros x y Hx Hy. split; intros H.
    + rewrite <- (field_of_identity_of_field x Hx), <- (field_of_identity_of_field y Hy).
      rewrite H. reflexivity.
    + rewrite <- (identity_of_code_bits x Hx), <- (identity_of_code_bits y Hy).
      rewrite H. reflexivity.
  - exact identity_of_field_digits.
  - intros a b c d Ha Hb Hc Hd.
    exists (field_of_digits a b c d).
    exact (identity_of_field_of_digits a b c d Ha Hb Hc Hd).
  - intros atan2 fe ag now cache mm0 msg0 mm msg2 msg3 H2 H3.
    subst mm msg2 msg3. rewrite decode_identity_mm.
    apply decode_identity_field; assumption.
Qed.

(** Squawk 7777 with and without the X bit. *)
Lemma C6_witness :
  identity_of_field 0x1fff = identity_of_field 0x1fbf /\ identity_of_field 0x1fff = 7777.
Proof.
  split; [|reflexivity].
  refine (proj2 (proj1 C6_squawk_bijection_on_code_bits 0x1fff 0x1fbf _ _) _).
  - lia.
  - lia.
  - reflexivity.
Defined.

(** The decoder is not injective on the 13 interleaved bits: the fields
    0x0040 (only X set) and 0x0000 both decode to squawk 0. *)
Lemma C6_counterexample_x_bit :
  ~ (forall x y, 0 <= x < 8192 -> 0 <= y < 8192 ->
       identity_of_field x = identity_of_field y -> x = y).
Proof.
  intros H. specialize (H 0x40 0 ltac:(lia) ltac:(lia) eq_refl). discriminate H.
Qed.

(** ** The CPR resolver and the position update (C10, C5) *)

Lemma decodeCPR_abort (a : aircraft) :
  ~ same_zone a -> decodeCPR a = a.
Proof.
  unfold same_zone, decodeCPR. cbv zeta. intros H.
  apply Z.eqb_neq in H. rewrite H. reflexivity.
Qed.

Lemma decodeCPR_resolved (a : aircraft) :
  same_zone a ->
  (ac_lat (decodeCPR a), ac_lon (decodeCPR a)) =
  if ac_even_cprtime a >? ac_odd_cprtime a
  then cpr_position_even a else cpr_position_odd a.
Proof.
  unfold same_zone, decodeCPR. cbv zeta. intros H.
  apply Z.eqb_eq in H. rewrite H. cbn [negb].
  unfold cpr_position_even, cpr_position_odd.
  destruct (ac_even_cprtime a >? ac_odd_cprtime a); reflexivity.
Qed.

(** [decodeCPR] writes nothing but [lat] and [lon]. *)
Lemma decodeCPR_times (a : aircraft) :
  ac_even_cprtime (decodeCPR a) = ac_even_cprtime a /\
  ac_odd_cprtime (decodeCPR a) = ac_odd_cprtime a.
Proof.
  unfold decodeCPR. cbv zeta.
  destruct (negb (cprNLFunction (cpr_rlat0 a) =? cprNLFunction (cpr_rlat1 a)));
    [split; reflexivity|].
  destruct (ac_even_cprtime a >? ac_odd_cprtime a); split; reflexivity.
Qed.

(** C10: when the resolver produces a position, the even snapshot is the
    basis of latitude and longitude exactly when its capture timestamp
    is strictly greater than the odd one's; with equal timestamps the odd
    snapshot determines the position. *)
Theorem C10_even_basis_iff_strictly_newer :
  forall a : aircraft,
    same_zone a ->
    (ac_odd_cprtime a < ac_even_cprtime a ->
       (ac_lat (decodeCPR a), ac_lon (decodeCPR a)) = cpr_position_even a) /\
    (ac_even_cprtime a <= ac_odd_cprtime a ->
       (ac_lat (decodeCPR a), ac_lon (decodeCPR a)) = cpr_position_odd a) /\
    (ac_even_cprtime a = ac_odd_cprtime a ->
       (ac_lat (decodeCPR a), ac_lon (decodeCPR a)) = cpr_position_odd a).
Proof.
  intros a Hz. rewrite (decodeCPR_resolved a Hz).
  destruct (Z.gtb_spec (ac_even_cprtime a) (ac_odd_cprtime a)) as [Hgt|Hle];
    repeat split; intros; try reflexivity; lia.
Qed.

Lemma cpr_example_tie_same_zone : same_zone cpr_example_tie.
Proof. vm_compute. reflexivity. Qed.

Lemma C10_witness_tie :
  same_zone cpr_example_tie /\
  ac_even_cprtime cpr_example_tie = ac_odd_cprtime cpr_example_tie /\
  (ac_lat (decodeCPR cpr_example_tie), ac_lon (decodeCPR cpr_example_tie))
  = cpr_position_odd cpr_example_tie /\
  cpr_position_odd cpr_example_tie <> cpr_position_even cpr_example_tie.
Proof.
  split; [exact cpr_example_tie_same_zone|].
  split; [reflexivity|].
  split.
  - exact (proj2 (proj2 (C10_even_basis_iff_strictly_newer cpr_example_tie
                           cpr_example_tie_same_zone)) eq_refl).
  - intros H. apply (f_equal (fun p => PrimFloat.eqb (fst p) 10.215774536132812%float)) in H.
    vm_compute in H. discriminate H.
Defined.

Lemma receive_update_position (now now_ms : Z) (mm : modesMessage) (a : aircraft) :
  mm_msgtype mm = 17 -> 9 <= mm_metype mm <= 18 ->
  receive_update now now_ms mm a = receive_position now_ms mm (set_seen a now).
Proof.
  intros Hdf Hme. unfold receive_update. cbv zeta. rewrite Hdf.
  change ((17 =? 0) || (17 =? 4) || (17 =? 20)) with false.
  change (17 =? 17) with true. cbv iota.
  replace ((1 <=? mm_metype mm) && (mm_metype mm <=? 4)) with false
    by (symmetry; apply andb_false_iff; right; apply Z.leb_gt; lia).
  replace ((9 <=? mm_metype mm) && (mm_metype mm <=? 18)) with true
    by (symmetry; apply andb_true_iff; split; apply Z.leb_le; lia).
  reflexivity.
Qed.

Lemma position_stored_lat_lon (now now_ms : Z) (mm : modesMessage) (a : aircraft) :
  ac_lat (position_stored now now_ms mm a) = ac_lat a /\
  ac_lon (position_stored now now_ms mm a) = ac_lon a.
Proof.
  unfold position_stored, store_cpr.
  destruct (negb (mm_fflag mm =? 0)); split; reflexivity.
Qed.

Lemma position_stored_times (now now_ms : Z) (mm : modesMessage) (a : aircraft) :
  ac_even_cprtime (position_stored now now_ms mm a) = now_ms \/
  ac_odd_cprtime (position_stored now now_ms mm a) = now_ms.
Proof.
  unfold position_stored, store_cpr.
  destruct (negb (mm_fflag mm =? 0)); [right | left]; reflexivity.
Qed.

(** C5, as the code has it: the position update of a DF17 airborne
    position message assigns a new latitude and longitude exactly when,
    after the snapshot is stored, the two capture timestamps differ by at
    most 10,000 ms and NL(rlat_even) = NL(rlat_odd); in every other case
    lat and lon are left as they were.  Presence of the two snapshots is
    not tested on its own: a snapshot never received has capture time 0,
    so the time test implies both are present whenever the clock reads
    more than 10,000 ms. *)
Theorem C5_position_update :
  forall (now now_ms : Z) (mm : modesMessage) (a : aircraft),
    mm_msgtype mm = 17 -> 9 <= mm_metype mm <= 18 ->
    let s := position_stored now now_ms mm a in
    let a' := receive_update now now_ms mm a in
    (captured_close s /\ same_zone s ->
       (ac_lat a', ac_lon a') =
       if ac_even_cprtime s >? ac_odd_cprtime s
       then cpr_position_even s else cpr_position_odd s) /\
    (~ (captured_close s /\ same_zone s) ->
       ac_lat a' = ac_lat a /\ ac_lon a' = ac_lon a) /\
    (10000 < now_ms -> captured_close s ->
       snapshot_present (ac_even_cprtime s) /\ snapshot_present (ac_odd_cprtime s)).
Proof.
  intros now now_ms mm a Hdf Hme s a'. subst a'.
  rewrite (receive_update_position now now_ms mm a Hdf Hme).
  unfold receive_position. cbv zeta.
  change (store_cpr now_ms mm (set_altitude (set_seen a now) (mm_altitude mm))) with s.
  unfold captured_close.
  destruct (position_stored_lat_lon now now_ms mm a) as [Hlat Hlon].
  fold s in Hlat, Hlon.
  destruct (Z.leb_spec (Z.abs (ac_even_cprtime s - ac_odd_cprtime s)) 10000) as [Hc|Hc].
  - split; [|split].
    + intros [_ Hz]. apply decodeCPR_resolved. exact Hz.
    + intros Hn. rewrite decodeCPR_abort by tauto. auto.
    + intros Hclock _. unfold snapshot_present.
      destruct (position_stored_times now now_ms mm a) as [H|H]; fold s in H; lia.
  - split; [|split].
    + intros [H _]. lia.
    + intros _. auto.
    + intros _ H. lia.
Qed.

Lemma C5_witness :
  mm_msgtype mm_pos_odd = 17 /\ 9 <= mm_metype mm_pos_odd <= 18 /\
  ~ captured_close (position_stored 1020 1020000 mm_pos_odd ac_even_only) /\
  ac_lat (receive_update 1020 1020000 mm_pos_odd ac_even_only) = ac_lat ac_even_only /\
  ac_lon (receive_update 1020 1020000 mm_pos_odd ac_even_only) = ac_lon ac_even_only.
Proof.
  assert (Hdf : mm_msgtype mm_pos_odd = 17) by (vm_compute; reflexivity).
  assert (Hme : 9 <= mm_metype mm_pos_odd <= 18) by (vm_compute; split; discriminate).
  assert (Hfar : ~ captured_close (position_stored 1020 1020000 mm_pos_odd ac_even_only))
    by (vm_compute; intros H; apply H; reflexivity).
  split; [exact Hdf|]. split; [exact Hme|]. split; [exact Hfar|].
  refine (proj1 (proj2 (C5_position_update 1020 1020000 mm_pos_odd ac_even_only
                          Hdf Hme)) _).
  intros [Hc _]. exact (Hfar Hc).
Defined.

(** The claim as worded fails when the clock reads less than 10,000 ms:
    on a record just created, with no even snapshot, one odd message
    received at 5,000 ms moves the longitude from 0 to -176.9 degrees. *)
Lemma C5_counterexample_absent_snapshot :
  ~ (forall (now now_ms : Z) (mm : modesMessage) (a : aircraft),
       mm_msgtype mm = 17 -> 9 <= mm_metype mm <= 18 ->
       let s := position_stored now now_ms mm a in
       let a' := receive_update now now_ms mm a in
       ac_lat a' <> ac_lat a \/ ac_lon a' <> ac_lon a ->
       snapshot_present (ac_even_cprtime s) /\ snapshot_present (ac_odd_cprtime s) /\
       captured_close s /\ same_zone s).
Proof.
  intros H.
  specialize (H 5 5000 mm_pos_odd (interactiveCreateAircraft 0x4840D6 5)).
  cbv zeta in H.
  assert (Hdf : mm_msgtype mm_pos_odd = 17) by (vm_compute; reflexivity).
  assert (Hme : 9 <= mm_metype mm_pos_odd <= 18) by (vm_compute; split; discriminate).
  specialize (H Hdf Hme).
  assert (Hlon : ac_lon (receive_update 5 5000 mm_pos_odd
                           (interactiveCreateAircraft 0x4840D6 5))
                 = (-176.89655172413794)%float) by (vm_compute; reflexivity).
  destruct H as [Heven _].
  - right. rewrite Hlon. intros E.
    apply (f_equal (fun x => PrimFloat.ltb x 0%float)) in E.
    vm_compute in E. discriminate E.
  - apply Heven. vm_compute. reflexivity.
Qed.

(** ** A full client buffer (C8) *)

Section ReadFromClientFacts.

Variable W : Type.
Variable sep : list Z.
Variable handler : client -> W -> bool * W.

Lemma scan_messages_none (fuel : nat) (c : client) (w : W) (fullmsg : bool) :
  strstr (c_string (c_buf c)) sep = None ->
  scan_messages W sep handler fuel c w fullmsg = (c, w, fullmsg, false).
Proof.
  intros H. destruct fuel as [|fuel]; [reflexivity|].
  cbn [scan_messages]. rewrite H. reflexivity.
Qed.

(** One pass of the loop on a read that fills the buffer and brings no
    separator: the loop goes on with the same client, [buflen] reset. *)
Lemma read_fills_buffer (reads : list read_result) (c : client) (w : W) (d : list Z) :
  (0 < length d)%nat ->
  (c_buflen c + length d = MODES_CLIENT_BUF_SIZE)%nat ->
  let buf := <[MODES_CLIENT_BUF_SIZE := 0]> (buf_write (c_buf c) (c_buflen c) d) in
  strstr (c_string buf) sep = None ->
  modesReadFromClient W sep handler (ReadData d :: reads) c w
  = modesReadFromClient W sep handler reads (set_buf c buf 0) w.
Proof.
  intros Hd Hfull buf Hsep.
  cbn [modesReadFromClient]. cbv zeta.
  assert (Hleft : (MODES_CLIENT_BUF_SIZE - c_buflen c = length d)%nat) by lia.
  rewrite Hleft. rewrite take_ge by lia.
  destruct (Nat.eqb_spec (length d) 0) as [E|_]; [lia|].
  rewrite Hfull. fold buf.
  rewrite scan_messages_none by exact Hsep.
  cbn [c_buflen set_buf c_buf]. rewrite Nat.eqb_refl. reflexivity.
Qed.

End ReadFromClientFacts.

(** C8: when a read fills the client's 1024-byte buffer and the buffer
    holds no separator-terminated message, the loop resets [buflen] to 0,
    calls neither the handler nor [modesFreeClient], and reads on from the
    same client; if the next read has nothing to deliver (EAGAIN) the
    call returns with the client kept and its buffer empty. *)
Theorem C8_full_buffer_cleared_client_kept :
  forall (W : Type) (sep : list Z) (handler : client -> W -> bool * W)
         (reads : list read_result) (c : client) (w : W) (d : list Z),
    (0 < length d)%nat ->
    (c_buflen c + length d = MODES_CLIENT_BUF_SIZE)%nat ->
    let buf := <[MODES_CLIENT_BUF_SIZE := 0]> (buf_write (c_buf c) (c_buflen c) d) in
    let cleared := set_buf c buf 0 in
    strstr (c_string buf) sep = None ->
    c_buflen cleared = 0%nat /\
    modesReadFromClient W sep handler (ReadData d :: reads) c w
    = modesReadFromClient W sep handler reads cleared w /\
    modesReadFromClient W sep handler (ReadData d :: ReadEAGAIN :: reads) c w
    = (cleared, w, false) /\
    modesReadFromClient W sep handler [ReadData d] c w = (cleared, w, false).
Proof.
  intros W sep handler reads c w d Hd Hfull buf cleared Hsep.
  split; [reflexivity|].
  split; [apply read_fills_buffer; assumption|].
  split; (rewrite read_fills_buffer by assumption; reflexivity).
Qed.

Lemma C8_witness :
  let handler := raw_in_handler atan2_stub default_config 1000 1000000
                   (replicate 14 0) mm_zero in
  modesReadFromClient world [10] handler [ReadData flood; ReadEAGAIN]
    (client_init 7 1) world_init
  = (set_buf (client_init 7 1)
       (<[MODES_CLIENT_BUF_SIZE := 0]> (buf_write (c_buf (client_init 7 1)) 0 flood)) 0,
     world_init, false).
Proof.
  cbv zeta.
  refine (proj1 (proj2 (proj2
    (C8_full_buffer_cleared_client_kept world [10]
       (raw_in_handler atan2_stub default_config 1000 1000000 (replicate 14 0) mm_zero)
       [] (client_init 7 1) world_init flood _ _ _)))).
  - vm_compute. lia.
  - vm_compute. reflexivity.
  - vm_compute. reflexivity.
Defined.

(** ** Malformed hex records (C1) *)

(** [hexToBin] reports nothing: its return value is 0 whatever the line. *)
Lemma hexToBin_returns_0 (hex msg : list Z) : fst (hexToBin hex msg) = 0.
Proof.
  unfold hexToBin. cbv zeta.
  destruct (_ || _); [reflexivity|].
  destruct (_ <? _)%nat; reflexivity.
Qed.

(** A line that is not a hex record leaves the buffer [msg] as it was. *)
Lemma hexToBin_garbage (msg : list Z) :
  hexToBin (cstr "garbage") msg = (0, msg).
Proof. reflexivity. Qed.

(** C1 fails on the code: [decodeHexMessage] hands the buffer to the
    decoder whatever [hexToBin] made of the line, so every line, well
    formed or not, produces a decoded message.  The malformed record
    "garbage", read while the stack slot of [msg] still holds the bytes
    of the previous frame, is decoded as that frame and reaches the
    display and raw-output sinks. *)
Theorem C1_malformed_line_reaches_decoder :
  (forall atan2 cfg now now_ms msg mm0 hex w,
     fst (decodeHexMessage atan2 cfg now now_ms msg mm0 hex w)
     = fst (decodeModesMessage atan2 (fix_errors cfg) (aggressive cfg) now
              (w_icao_cache w) mm0 (snd (hexToBin hex msg)))) /\
  well_formed_line (cstr "garbage") = false /\
  let r := decodeHexMessage atan2_stub default_config 1000 1000000
             frame_klm mm_zero (cstr "garbage") world_init in
  mm_msg (fst r) = frame_klm /\ mm_crcok (fst r) = true /\
  w_out (snd r) = [EvDisplay (fst r); EvRawOutput (fst r)].
Proof.
  split; [|split; [reflexivity|]].
  - intros atan2 cfg now now_ms msg mm0 hex w. unfold decodeHexMessage.
    destruct (hexToBin hex msg) as [ret msg']. cbn [snd].
    destruct (decodeModesMessage atan2 (fix_errors cfg) (aggressive cfg) now
                (w_icao_cache w) mm0 msg') as [mm cache'].
    reflexivity.
  - cbv zeta. unfold decodeHexMessage. rewrite hexToBin_garbage.
    vm_compute. repeat split; reflexivity.
Qed.

(** ** Single-bit repair (C3) *)

(** *** Bits and masks *)

Lemma bitmask_pow2 (j : nat) : bitmask j = 2 ^ Z.of_nat (7 - j mod 8).
Proof. unfold bitmask. apply Z.shiftl_1_l. Qed.

Lemma land_pow2 (b i : Z) :
  0 <= i -> Z.land b (2 ^ i) = if Z.testbit b i then 2 ^ i else 0.
Proof.
  intros Hi. apply Z.bits_inj'. intros n Hn.
  rewrite Z.land_spec, Z.pow2_bits_eqb by lia.
  destruct (Z.eqb_spec i n) as [->|Hne].
  - destruct (Z.testbit b n); simpl.
    + rewrite Z.pow2_bits_eqb, Z.eqb_refl by lia. reflexivity.
    + rewrite Z.bits_0. reflexivity.
  - rewrite andb_false_r.
    destruct (Z.testbit b i).
    + rewrite Z.pow2_bits_eqb by lia. symmetry. apply Z.eqb_neq. exact Hne.
    + rewrite Z.bits_0. reflexivity.
Qed.

Lemma pow2_nonzero (i : Z) : 0 <= i -> 2 ^ i <> 0.
Proof. intros Hi. pose proof (Z.pow_pos_nonneg 2 i ltac:(lia) Hi). lia. Qed.

Lemma bit_of_testbit (msg : list Z) (j : nat) :
  bit_of msg j = Z.testbit (msg !!! (j / 8)%nat) (Z.of_nat (7 - j mod 8)).
Proof.
  unfold bit_of. rewrite bitmask_pow2, land_pow2 by lia.
  destruct (Z.testbit _ _).
  - pose proof (pow2_nonzero (Z.of_nat (7 - j mod 8)) ltac:(lia)) as H.
    apply Z.eqb_neq in H. rewrite H. reflexivity.
  - reflexivity.
Qed.

Lemma div_mod_8_inj (j k : nat) :
  (j / 8 = k / 8)%nat -> (j mod 8 = k mod 8)%nat -> j = k.
Proof.
  intros Hd Hm.
  rewrite (Nat.div_mod_eq j 8), (Nat.div_mod_eq k 8). rewrite Hd, Hm. reflexivity.
Qed.

(** Flipping bit [k] toggles bit [k] and no other. *)
Lemma bit_of_flip_bit (msg : list Z) (k j : nat) :
  (k / 8 < length msg)%nat ->
  bit_of (flip_bit msg k) j = xorb (bit_of msg j) (j =? k)%nat.
Proof.
  intros Hk. rewrite !bit_of_testbit. unfold flip_bit.
  destruct (Nat.eq_dec (j / 8)%nat (k / 8)%nat) as [Hd|Hd].
  - rewrite Hd, list_lookup_total_insert_eq by exact Hk.
    rewrite Z.lxor_spec, bitmask_pow2, Z.pow2_bits_eqb by lia.
    f_equal.
    destruct (Nat.eqb_spec j k) as [->|Hne].
    + apply Z.eqb_refl.
    + apply Z.eqb_neq. intros E.
      apply Hne, div_mod_8_inj; [exact Hd|].
      pose proof (Nat.mod_upper_bound j 8 ltac:(lia)).
      pose proof (Nat.mod_upper_bound k 8 ltac:(lia)). lia.
  - rewrite list_lookup_total_insert_ne by (intros E; apply Hd; symmetry; exact E).
    destruct (Nat.eqb_spec j k) as [->|Hne]; [contradiction|].
    rewrite xorb_false_r. reflexivity.
Qed.

(** *** The checksum as an exclusive-or of table entries *)

Lemma checksum_step_contrib (msg : list Z) (offset : nat) (crc : Z) (j : nat) :
  checksum_step msg offset crc j = Z.lxor crc (contrib msg offset j).
Proof.
  unfold checksum_step, contrib, bit_of.
  destruct (Z.land _ _ =? 0); simpl; [rewrite Z.lxor_0_r|]; reflexivity.
Qed.

Lemma xor_fold_acc (g : nat -> Z) (l : list nat) (c x : Z) :
  xor_fold g l (Z.lxor c x) = Z.lxor (xor_fold g l c) x.
Proof.
  revert c. induction l as [|j l IH]; intros c; [reflexivity|].
  unfold xor_fold in *. simpl.
  rewrite <- IH. f_equal.
  rewrite !Z.lxor_assoc. f_equal. apply Z.lxor_comm.
Qed.

Lemma xor_fold_ext (g g' : nat -> Z) (l : list nat) (c : Z) :
  (forall j, In j l -> g j = g' j) -> xor_fold g l c = xor_fold g' l c.
Proof.
  revert c. induction l as [|j l IH]; intros c H; [reflexivity|].
  unfold xor_fold in *. simpl. rewrite (H j) by (left; reflexivity).
  apply IH. intros i Hi. apply H. right. exact Hi.
Qed.

(** Changing [g] at one index [k] by [t] changes the fold by [t] when [k]
    is among the indices (once), and not at all otherwise. *)
Lemma xor_fold_toggle (g : nat -> Z) (k : nat) (t : Z) (l : list nat) (c : Z) :
  NoDup l ->
  xor_fold (fun j => if (j =? k)%nat then Z.lxor (g j) t else g j) l c
  = Z.lxor (xor_fold g l c) (if existsb (Nat.eqb k) l then t else 0).
Proof.
  intros Hnd. revert c. induction Hnd as [|j l Hnotin Hnd IH]; intros c.
  - simpl. rewrite Z.lxor_0_r. reflexivity.
  - unfold xor_fold in *. simpl.
    destruct (Nat.eqb_spec j k) as [->|Hne].
    + rewrite Nat.eqb_refl. simpl.
      rewrite <- Z.lxor_assoc.
      change (fold_left (fun crc j => Z.lxor crc (if (j =? k)%nat then Z.lxor (g j) t else g j))
                l (Z.lxor (Z.lxor c (g k)) t))
        with (xor_fold (fun j => if (j =? k)%nat then Z.lxor (g j) t else g j) l
                (Z.lxor (Z.lxor c (g k)) t)).
      rewrite xor_fold_acc. f_equal.
      apply xor_fold_ext. intros i Hi.
      destruct (Nat.eqb_spec i k) as [->|_]; [|reflexivity].
      exfalso. apply Hnotin. apply list_elem_of_In. exact Hi.
    + rewrite IH.
      destruct (Nat.eqb_spec k j) as [E|_]; [congruence|]. reflexivity.
Qed.

Lemma existsb_seq (k a n : nat) :
  existsb (Nat.eqb k) (seq a n) = ((a <=? k)%nat && (k <? a + n)%nat).
Proof.
  revert a. induction n as [|n IH]; intros a.
  - simpl. destruct (Nat.leb_spec a k); destruct (Nat.ltb_spec k (a + 0)); simpl;
      try reflexivity; lia.
  - simpl. rewrite IH.
    destruct (Nat.eqb_spec k a); destruct (Nat.leb_spec a k);
      destruct (Nat.leb_spec (S a) k); destruct (Nat.ltb_spec k (S a + n));
      destruct (Nat.ltb_spec k (a + S n)); simpl; try reflexivity; lia.
Qed.

Lemma checksum_fold_xor_fold (msg : list Z) (offset : nat) (l : list nat) (c : Z) :
  fold_left (checksum_step msg offset) l c = xor_fold (contrib msg offset) l c.
Proof.
  revert c. induction l as [|j l IH]; intros c; [reflexivity|].
  unfold xor_fold in *. simpl. rewrite checksum_step_contrib. apply IH.
Qed.

Lemma modesChecksum_xor_fold (msg : list Z) (bits : nat) :
  modesChecksum msg bits
  = xor_fold (contrib msg (if (bits =? 112)%nat then 0 else 112 - 56)%nat) (seq 0 bits) 0.
Proof. unfold modesChecksum. cbv zeta. apply checksum_fold_xor_fold. Qed.

(** Flipping bit [k] changes the checksum by the table entry of bit [k]. *)
Lemma modesChecksum_flip_bit (msg : list Z) (bits k : nat) :
  (k / 8 < length msg)%nat -> (k < bits)%nat ->
  modesChecksum (flip_bit msg k) bits
  = Z.lxor (modesChecksum msg bits)
           (modes_checksum_table !!! (k + table_offset bits)%nat).
Proof.
  intros Hlen Hk. rewrite !modesChecksum_xor_fold. fold (table_offset bits).
  set (off := table_offset bits).
  rewrite (xor_fold_ext (contrib (flip_bit msg k) off)
             (fun j => if (j =? k)%nat
                       then Z.lxor (contrib msg off j) (modes_checksum_table !!! (k + off)%nat)
                       else contrib msg off j)).
  - rewrite xor_fold_toggle by apply NoDup_seq.
    rewrite existsb_seq.
    destruct (Nat.leb_spec 0 k); [|lia].
    destruct (Nat.ltb_spec k (0 + bits)); [|lia]. reflexivity.
  - intros j _. unfold contrib. rewrite bit_of_flip_bit by exact Hlen.
    destruct (Nat.eqb_spec j k) as [->|_].
    + destruct (bit_of msg k); simpl.
      * rewrite Z.lxor_nilpotent. reflexivity.
      * rewrite Z.lxor_0_l. reflexivity.
    + rewrite xorb_false_r. reflexivity.
Qed.

(** *** The stored CRC under a bit flip *)

Lemma bytes_ok_lookup (msg : list Z) (i : nat) :
  bytes_ok msg -> (i < length msg)%nat -> 0 <= msg !!! i < 256.
Proof.
  intros Hok Hi.
  exact (Forall_lookup_total_1 (fun b => 0 <= b < 256) msg i Hok Hi).
Qed.

Lemma testbit_byte_high (b i : Z) : 0 <= b < 256 -> 8 <= i -> Z.testbit b i = false.
Proof.
  intros Hb Hi.
  destruct (Z.eq_dec b 0) as [->|Hnz]; [apply Z.bits_0|].
  apply Z.bits_above_log2; [lia|].
  assert (Z.log2 b < 8) by (apply Z.log2_lt_pow2; lia). lia.
Qed.

(** Two numbers whose set bits lie on either side of position [t]. *)
Lemma land_0_by_range (x y t : Z) :
  (forall i, 0 <= i -> t <= i -> Z.testbit x i = false) ->
  (forall i, 0 <= i -> i < t -> Z.testbit y i = false) ->
  Z.land x y = 0.
Proof.
  intros Hx Hy. apply Z.bits_inj'. intros i Hi.
  rewrite Z.land_spec, Z.bits_0.
  destruct (Z.lt_ge_cases i t) as [Hlt|Hge].
  - rewrite (Hy i Hi Hlt). apply andb_false_r.
  - rewrite (Hx i Hi Hge). reflexivity.
Qed.

Lemma lor_lxor_r (x b m : Z) :
  Z.land x m = 0 -> Z.lor x (Z.lxor b m) = Z.lxor (Z.lor x b) m.
Proof.
  intros H. apply Z.bits_inj'. intros i Hi.
  assert (Hd : Z.testbit x i && Z.testbit m i = false)
    by (rewrite <- Z.land_spec, H; apply Z.bits_0).
  rewrite Z.lor_spec, !Z.lxor_spec, Z.lor_spec.
  destruct (Z.testbit x i), (Z.testbit b i), (Z.testbit m i);
    simpl in *; congruence.
Qed.

Lemma lor_lxor_l (a y m : Z) :
  Z.land y m = 0 -> Z.lor (Z.lxor a m) y = Z.lxor (Z.lor a y) m.
Proof.
  intros H. rewrite Z.lor_comm, (Z.lor_comm a y). apply lor_lxor_r. exact H.
Qed.

Lemma testbit_shiftl_byte_high (b s i : Z) :
  0 <= b < 256 -> 0 <= s -> s + 8 <= i -> Z.testbit (Z.shiftl b s) i = false.
Proof.
  intros Hb Hs Hi. rewrite Z.shiftl_spec by lia.
  apply testbit_byte_high; [exact Hb | lia].
Qed.

Lemma testbit_shiftl_low (a s i : Z) :
  0 <= i -> i < s -> Z.testbit (Z.shiftl a s) i = false.
Proof. intros Hi Hlt. apply Z.shiftl_spec_low. exact Hlt. Qed.

Lemma crc3_lxor_low (b1 b2 b3 m : Z) :
  0 <= m < 256 ->
  crc3 b1 b2 (Z.lxor b3 m) = Z.lxor (crc3 b1 b2 b3) m.
Proof.
  intros Hm. unfold crc3. apply lor_lxor_r.
  rewrite Z.land_comm. apply (land_0_by_range m _ 8).
  - intros i _ Hi. apply testbit_byte_high; assumption.
  - intros i Hi Hlt. rewrite Z.lor_spec, !testbit_shiftl_low by lia. reflexivity.
Qed.

Lemma crc3_lxor_mid (b1 b2 b3 m : Z) :
  0 <= b3 < 256 -> 0 <= m < 256 ->
  crc3 b1 (Z.lxor b2 m) b3 = Z.lxor (crc3 b1 b2 b3) (Z.shiftl m 8).
Proof.
  intros H3 Hm. unfold crc3. rewrite Z.shiftl_lxor.
  rewrite lor_lxor_r, lor_lxor_l; [reflexivity| |].
  - apply (land_0_by_range b3 _ 8).
    + intros i _ Hi. apply testbit_byte_high; assumption.
    + intros i Hi Hlt. apply testbit_shiftl_low; assumption.
  - rewrite Z.land_comm. apply (land_0_by_range (Z.shiftl m 8) _ 16).
    + intros i _ Hi. apply testbit_shiftl_byte_high; [exact Hm | lia | lia].
    + intros i Hi Hlt. apply testbit_shiftl_low; assumption.
Qed.

Lemma crc3_lxor_high (b1 b2 b3 m : Z) :
  0 <= b2 < 256 -> 0 <= b3 < 256 ->
  crc3 (Z.lxor b1 m) b2 b3 = Z.lxor (crc3 b1 b2 b3) (Z.shiftl m 16).
Proof.
  intros H2 H3. unfold crc3. rewrite Z.shiftl_lxor.
  rewrite lor_lxor_l, lor_lxor_l; [reflexivity| |].
  - apply (land_0_by_range b3 _ 8).
    + intros i _ Hi. apply testbit_byte_high; assumption.
    + intros i Hi Hlt. apply testbit_shiftl_low; lia.
  - apply (land_0_by_range (Z.shiftl b2 8) _ 16).
    + intros i _ Hi. apply testbit_shiftl_byte_high; [exact H2 | lia | lia].
    + intros i Hi Hlt. apply testbit_shiftl_low; assumption.
Qed.

Lemma bitmask_byte (k : nat) : 0 <= bitmask k < 256.
Proof.
  rewrite bitmask_pow2.
  pose proof (Nat.mod_upper_bound k 8 ltac:(lia)).
  split; [apply Z.pow_nonneg; lia|].
  change 256 with (2 ^ 8). apply Z.pow_lt_mono_r; lia.
Qed.

Lemma shiftl_bitmask (k : nat) (s : Z) :
  0 <= s -> Z.shiftl (bitmask k) s = 2 ^ (Z.of_nat (7 - k mod 8) + s).
Proof.
  intros Hs. rewrite bitmask_pow2, Z.shiftl_mul_pow2 by lia.
  rewrite Z.pow_add_r by lia. reflexivity.
Qed.

Lemma trailing_crc_flip_bit (msg : list Z) (n k : nat) :
  bytes_ok msg -> (3 <= n <= length msg)%nat -> (k < 8 * n)%nat ->
  trailing_crc (flip_bit msg k) (8 * n)
  = Z.lxor (trailing_crc msg (8 * n)) (crc_bit (8 * n) k).
Proof.
  intros Hok Hn Hk. unfold trailing_crc, crc_bit.
  replace (8 * n / 8)%nat with n by (rewrite Nat.mul_comm, Nat.div_mul; lia).
  fold (crc3 (flip_bit msg k !!! (n - 3)%nat) (flip_bit msg k !!! (n - 2)%nat)
             (flip_bit msg k !!! (n - 1)%nat)).
  fold (crc3 (msg !!! (n - 3)%nat) (msg !!! (n - 2)%nat) (msg !!! (n - 1)%nat)).
  pose proof (Nat.div_mod_eq k 8) as Hdm.
  pose proof (Nat.mod_upper_bound k 8 ltac:(lia)) as Hr.
  assert (Hq : (k / 8 < n)%nat) by (apply Nat.Div0.div_lt_upper_bound; lia).
  pose proof (bitmask_byte k) as Hm.
  unfold flip_bit.
  destruct (Nat.eq_dec (k / 8)%nat (n - 1)%nat) as [E1|N1];
    [|destruct (Nat.eq_dec (k / 8)%nat (n - 2)%nat) as [E2|N2];
      [|destruct (Nat.eq_dec (k / 8)%nat (n - 3)%nat) as [E3|N3]]].
  - rewrite E1.
    rewrite list_lookup_total_insert_eq by lia.
    rewrite !list_lookup_total_insert_ne by lia.
    rewrite crc3_lxor_low by exact Hm.
    destruct (Nat.leb_spec (8 * n - 24)%nat k); [|lia].
    f_equal. rewrite bitmask_pow2. f_equal. lia.
  - rewrite E2.
    rewrite list_lookup_total_insert_eq by lia.
    rewrite !list_lookup_total_insert_ne by lia.
    rewrite crc3_lxor_mid by first [exact Hm | apply bytes_ok_lookup; [exact Hok | lia]].
    destruct (Nat.leb_spec (8 * n - 24)%nat k); [|lia].
    f_equal. rewrite shiftl_bitmask by lia. f_equal. lia.
  - rewrite E3.
    rewrite list_lookup_total_insert_eq by lia.
    rewrite !list_lookup_total_insert_ne by lia.
    rewrite crc3_lxor_high by (apply bytes_ok_lookup; [exact Hok | lia]).
    destruct (Nat.leb_spec (8 * n - 24)%nat k); [|lia].
    f_equal. rewrite shiftl_bitmask by lia. f_equal. lia.
  - rewrite !list_lookup_total_insert_ne by lia.
    destruct (Nat.leb_spec (8 * n - 24)%nat k); [lia|].
    rewrite Z.lxor_0_r. reflexivity.
Qed.

(** *** Syndromes *)

Lemma syndrome_inj (bits j k : nat) :
  bits = 56%nat \/ bits = 112%nat ->
  (j < bits)%nat -> (k < bits)%nat ->
  syndrome bits j = syndrome bits k -> j = k.
Proof.
  intros Hbits Hj Hk E.
  assert (H : syndromes_distinct bits = true)
    by (destruct Hbits as [-> | ->]; vm_compute; reflexivity).
  unfold syndromes_distinct in H.
  rewrite forallb_forall in H.
  specialize (H j ltac:(apply in_seq; lia)).
  rewrite forallb_forall in H.
  specialize (H k ltac:(apply in_seq; lia)).
  rewrite E, Z.eqb_refl in H. simpl in H.
  apply Nat.eqb_eq. exact H.
Qed.

Lemma residual_0_iff (msg : list Z) (bits : nat) :
  (trailing_crc msg bits =? modesChecksum msg bits) = true <-> residual msg bits = 0.
Proof. unfold residual. rewrite Z.eqb_eq, Z.lxor_eq_0_iff. reflexivity. Qed.

Lemma lxor_byte (b m : Z) : 0 <= b < 256 -> 0 <= m < 256 -> 0 <= Z.lxor b m < 256.
Proof.
  intros Hb Hm.
  assert (Hnn : 0 <= Z.lxor b m) by (apply Z.lxor_nonneg; lia).
  split; [exact Hnn|].
  destruct (Z.eq_dec (Z.lxor b m) 0) as [->|Hnz]; [lia|].
  assert (Hlog : Z.log2 (Z.lxor b m) < 8).
  { pose proof (Z.log2_lxor b m ltac:(lia) ltac:(lia)) as Hl.
    assert (Z.log2 b < 8)
      by (destruct (Z.eq_dec b 0) as [->|]; [reflexivity | apply Z.log2_lt_pow2; lia]).
    assert (Z.log2 m < 8)
      by (destruct (Z.eq_dec m 0) as [->|]; [reflexivity | apply Z.log2_lt_pow2; lia]).
    lia. }
  apply Z.log2_lt_pow2 in Hlog; lia.
Qed.

Lemma length_flip_bit (msg : list Z) (k : nat) :
  length (flip_bit msg k) = length msg.
Proof. unfold flip_bit. apply length_insert. Qed.

Lemma bytes_ok_flip_bit (msg : list Z) (k : nat) :
  bytes_ok msg -> bytes_ok (flip_bit msg k).
Proof.
  intros Hok. unfold flip_bit.
  destruct (Nat.lt_ge_cases (k / 8) (length msg)) as [Hlt|Hge].
  - apply Forall_insert; [exact Hok|].
    apply lxor_byte; [apply bytes_ok_lookup; assumption | apply bitmask_byte].
  - rewrite list_insert_ge by exact Hge. exact Hok.
Qed.

Lemma flip_bit_involutive (msg : list Z) (k : nat) :
  (k / 8 < length msg)%nat -> flip_bit (flip_bit msg k) k = msg.
Proof.
  intros Hk. unfold flip_bit.
  rewrite list_lookup_total_insert_eq by exact Hk.
  rewrite list_insert_insert_eq.
  rewrite Z.lxor_assoc, Z.lxor_nilpotent, Z.lxor_0_r.
  apply list_insert_id. apply list_lookup_lookup_total_lt. exact Hk.
Qed.

(** A flip of bit [k] changes the residual by the syndrome of [k]. *)
Lemma residual_flip_bit (msg : list Z) (n k : nat) :
  bytes_ok msg -> (3 <= n <= length msg)%nat -> (k < 8 * n)%nat ->
  residual (flip_bit msg k) (8 * n)
  = Z.lxor (residual msg (8 * n)) (syndrome (8 * n) k).
Proof.
  intros Hok Hn Hk. unfold residual, syndrome.
  assert (Hq : (k / 8 < length msg)%nat).
  { assert (k / 8 < n)%nat by (apply Nat.Div0.div_lt_upper_bound; lia). lia. }
  rewrite trailing_crc_flip_bit by assumption.
  rewrite modesChecksum_flip_bit by assumption.
  rewrite !Z.lxor_assoc. f_equal.
  rewrite <- !Z.lxor_assoc. f_equal. apply Z.lxor_comm.
Qed.

(** Reading a [bits]-bit message touches the first [bits/8] bytes only. *)
Lemma trailing_crc_take (msg : list Z) (n : nat) :
  (3 <= n)%nat -> trailing_crc (take n msg) (8 * n) = trailing_crc msg (8 * n).
Proof.
  intros Hn. unfold trailing_crc.
  replace (8 * n / 8)%nat with n by (rewrite Nat.mul_comm, Nat.div_mul; lia).
  rewrite !lookup_total_take_lt by lia. reflexivity.
Qed.

Lemma modesChecksum_take (msg : list Z) (n : nat) :
  modesChecksum (take n msg) (8 * n) = modesChecksum msg (8 * n).
Proof.
  rewrite !modesChecksum_xor_fold. apply xor_fold_ext.
  intros j Hj. apply in_seq in Hj.
  unfold contrib, bit_of.
  assert (j / 8 < n)%nat by (apply Nat.Div0.div_lt_upper_bound; lia).
  rewrite lookup_total_take_lt by lia. reflexivity.
Qed.

Lemma flip_bit_take (msg : list Z) (n j : nat) :
  (j < 8 * n)%nat -> flip_bit (take n msg) j = take n (flip_bit msg j).
Proof.
  intros Hj. unfold flip_bit.
  assert (j / 8 < n)%nat by (apply Nat.Div0.div_lt_upper_bound; lia).
  rewrite take_insert_lt by lia.
  rewrite lookup_total_take_lt by lia. reflexivity.
Qed.

(** The test of one iteration of the repair loop, on the whole buffer. *)
Lemma repair_test (msg : list Z) (n j : nat) :
  (3 <= n)%nat -> (j < 8 * n)%nat ->
  let aux := flip_bit (take n msg) j in
  (trailing_crc aux (8 * n) =? modesChecksum aux (8 * n))
  = (residual (flip_bit msg j) (8 * n) =? 0).
Proof.
  intros Hn Hj aux. subst aux.
  rewrite flip_bit_take, trailing_crc_take, modesChecksum_take by lia.
  unfold residual.
  destruct (Z.eqb_spec (trailing_crc (flip_bit msg j) (8 * n))
                       (modesChecksum (flip_bit msg j) (8 * n))) as [E|E].
  - symmetry. apply Z.eqb_eq. apply Z.lxor_eq_0_iff. exact E.
  - symmetry. apply Z.eqb_neq. intros H. apply E. apply Z.lxor_eq_0_iff. exact H.
Qed.

(** *** The repair loop *)

Lemma memcpy_repaired (msg : list Z) (n k : nat) :
  (k < 8 * n)%nat -> (n <= length msg)%nat ->
  memcpy (flip_bit msg k) (flip_bit (take n (flip_bit msg k)) k) n = msg.
Proof.
  intros Hk Hn. unfold memcpy.
  assert (Hq : (k / 8 < n)%nat) by (apply Nat.Div0.div_lt_upper_bound; lia).
  rewrite flip_bit_take by exact Hk.
  rewrite flip_bit_involutive by lia.
  rewrite take_take, Nat.min_id.
  unfold flip_bit. rewrite drop_insert_lt by lia.
  apply take_drop.
Qed.

(** On a valid frame with bit [k] flipped, the loop started at any
    [j <= k] stops at [k] and hands the original bytes back. *)
Lemma fixSingleBitErrors_loop_repairs (msg : list Z) (n k : nat) :
  bytes_ok msg -> (3 <= n <= length msg)%nat ->
  (8 * n = 56 \/ 8 * n = 112)%nat -> (k < 8 * n)%nat ->
  residual msg (8 * n) = 0 ->
  forall fuel j : nat, (j + fuel = 8 * n)%nat -> (j <= k)%nat ->
    fixSingleBitErrors_loop (flip_bit msg k) (8 * n) fuel j = (Z.of_nat k, msg).
Proof.
  intros Hok Hn Hbits Hk Hres.
  assert (Hdiv : (8 * n / 8 = n)%nat) by (rewrite Nat.mul_comm, Nat.div_mul; lia).
  assert (Hres' : forall j, (j < 8 * n)%nat ->
            residual (flip_bit (flip_bit msg k) j) (8 * n)
            = Z.lxor (syndrome (8 * n) k) (syndrome (8 * n) j)).
  { intros j Hj.
    rewrite residual_flip_bit;
      [| apply bytes_ok_flip_bit; exact Hok | rewrite length_flip_bit; exact Hn | exact Hj].
    rewrite residual_flip_bit by assumption.
    rewrite Hres, Z.lxor_0_l. reflexivity. }
  induction fuel as [|fuel IH]; intros j Hsum Hle; [lia|].
  cbn [fixSingleBitErrors_loop]. cbv zeta. rewrite Hdiv.
  rewrite (repair_test (flip_bit msg k) n j) by lia.
  rewrite Hres' by lia.
  destruct (Nat.eq_dec j k) as [->|Hne].
  - rewrite Z.lxor_nilpotent. change (0 =? 0) with true. cbv iota.
    rewrite memcpy_repaired by lia. reflexivity.
  - assert (Hnz : Z.lxor (syndrome (8 * n) k) (syndrome (8 * n) j) <> 0).
    { intros E. apply (proj1 (Z.lxor_eq_0_iff _ _)) in E.
      apply Hne. symmetry. apply (syndrome_inj (8 * n)); try assumption; lia. }
    apply Z.eqb_neq in Hnz. rewrite Hnz.
    apply IH; lia.
Qed.

Lemma fixSingleBitErrors_repairs (msg : list Z) (n k : nat) :
  bytes_ok msg -> (3 <= n <= length msg)%nat ->
  (8 * n = 56 \/ 8 * n = 112)%nat -> (k < 8 * n)%nat ->
  modesChecksum msg (8 * n) = trailing_crc msg (8 * n) ->
  fixSingleBitErrors (flip_bit msg k) (8 * n) = (Z.of_nat k, msg).
Proof.
  intros Hok Hn Hbits Hk Hcrc. unfold fixSingleBitErrors.
  apply (fixSingleBitErrors_loop_repairs msg n k); try assumption; try lia.
  unfold residual. rewrite Hcrc. apply Z.lxor_nilpotent.
Qed.

(** The same on a 14-byte buffer holding a DF11 or a DF17 frame. *)
Lemma fixSingleBitErrors_repairs_frame (msg : list Z) (k : nat) :
  length msg = 14%nat -> bytes_ok msg ->
  let df := Z.shiftr (msg !!! 0%nat) 3 in
  df = 11 \/ df = 17 ->
  let bits := modesMessageLenByType df in
  modesChecksum msg bits = trailing_crc msg bits ->
  (k < bits)%nat ->
  fixSingleBitErrors (flip_bit msg k) bits = (Z.of_nat k, msg).
Proof.
  intros Hlen Hok df Hdf bits Hcrc Hk.
  subst bits. destruct Hdf as [Hd | Hd]; rewrite Hd in *.
  - change (modesMessageLenByType 11) with (8 * 7)%nat in *.
    apply fixSingleBitErrors_repairs; try assumption; lia.
  - change (modesMessageLenByType 17) with (8 * 14)%nat in *.
    apply fixSingleBitErrors_repairs; try assumption; lia.
Qed.

(** C3: take a DF11 (56-bit) or DF17 (112-bit) frame whose computed CRC
    equals the CRC in its last three bytes, and flip exactly one of its
    bits, at position [k].  Single-bit repair of the corrupted frame
    returns [k] and leaves the original bytes in the buffer, so the
    repaired frame's computed CRC equals its stored CRC again. *)
Theorem C3_single_bit_repair :
  forall (msg : list Z) (k : nat),
    length msg = MODES_LONG_MSG_BYTES -> bytes_ok msg ->
    let df := Z.shiftr (msg !!! 0%nat) 3 in
    df = 11 \/ df = 17 ->
    let bits := modesMessageLenByType df in
    modesChecksum msg bits = trailing_crc msg bits ->
    (k < bits)%nat ->
    let repaired := fixSingleBitErrors (flip_bit msg k) bits in
    fst repaired = Z.of_nat k /\
    snd repaired = msg /\
    modesChecksum (snd repaired) bits = trailing_crc (snd repaired) bits.
Proof.
  intros msg k Hlen Hok df Hdf bits Hcrc Hk repaired.
  assert (Hrep : repaired = (Z.of_nat k, msg))
    by (apply fixSingleBitErrors_repairs_frame; assumption).
  rewrite Hrep. cbn [fst snd]. auto.
Qed.

Lemma frame_klm_bytes_ok : bytes_ok frame_klm.
Proof. unfold bytes_ok, frame_klm. repeat constructor; lia. Qed.

(** Scenario 4: the identification frame with bit 37 flipped. *)
Lemma C3_witness :
  fst (fixSingleBitErrors (flip_bit frame_klm 37) 112) = 37 /\
  snd (fixSingleBitErrors (flip_bit frame_klm 37) 112) = frame_klm.
Proof.
  pose proof (C3_single_bit_repair frame_klm 37 eq_refl frame_klm_bytes_ok
                (or_intror eq_refl) eq_refl ltac:(vm_compute; lia)) as H.
  cbv zeta in H. destruct H as [H1 [H2 _]].
  split; [exact H1 | exact H2].
Defined.

(** ** The repair inside the decoder *)

Lemma syndrome_nonzero (bits k : nat) :
  bits = 56%nat \/ bits = 112%nat -> (k < bits)%nat -> syndrome bits k <> 0.
Proof.
  intros Hbits Hk.
  assert (H : syndromes_nonzero bits = true)
    by (destruct Hbits as [-> | ->]; vm_compute; reflexivity).
  unfold syndromes_nonzero in H. rewrite forallb_forall in H.
  specialize (H k ltac:(apply in_seq; lia)).
  apply negb_true_iff, Z.eqb_neq in H. exact H.
Qed.

(** A flip outside the first five bits leaves the downlink format alone. *)
Lemma flip_bit_keeps_df (msg : list Z) (k : nat) :
  (5 <= k)%nat -> (0 < length msg)%nat ->
  Z.shiftr (flip_bit msg k !!! 0%nat) 3 = Z.shiftr (msg !!! 0%nat) 3.
Proof.
  intros Hk Hlen. unfold flip_bit.
  destruct (Nat.eq_dec (k / 8)%nat 0%nat) as [E|Hne].
  - rewrite E, list_lookup_total_insert_eq by exact Hlen.
    rewrite Z.shiftr_lxor.
    assert (Hm : Z.shiftr (bitmask k) 3 = 0).
    { rewrite bitmask_pow2.
      assert (k < 8)%nat by (apply Nat.div_small_iff in E; lia).
      rewrite Nat.mod_small by lia.
      rewrite Z.shiftr_div_pow2 by lia.
      apply Z.div_small. split; [apply Z.pow_nonneg; lia|].
      apply Z.pow_lt_mono_r; lia. }
    rewrite Hm, Z.lxor_0_r. reflexivity.
  - rewrite list_lookup_total_insert_ne by exact Hne. reflexivity.
Qed.

(** Scenario 4 for every frame and position: a valid DF11 or DF17 frame
    with one bit flipped after the format field is decoded, with error
    correction on, as the original frame, [errorbit] telling the flipped
    position, and its address does not enter the recency cache. *)
Lemma decode_repairs_flipped_bit atan2 ag now cache mm0 (msg : list Z) (k : nat) :
  length msg = MODES_LONG_MSG_BYTES -> bytes_ok msg ->
  let df := Z.shiftr (msg !!! 0%nat) 3 in
  df = 11 \/ df = 17 ->
  let bits := modesMessageLenByType df in
  modesChecksum msg bits = trailing_crc msg bits ->
  (5 <= k < bits)%nat ->
  let r := decodeModesMessage atan2 true ag now cache mm0 (flip_bit msg k) in
  mm_msg (fst r) = msg /\ mm_errorbit (fst r) = Z.of_nat k /\
  mm_crcok (fst r) = true /\ mm_crc (fst r) = trailing_crc msg bits /\
  snd r = cache.
Proof.
  intros Hlen Hok df Hdf bits Hcrc Hk r.
  unfold MODES_LONG_MSG_BYTES in Hlen.
  assert (Hbits : exists n, bits = (8 * n)%nat /\ (3 <= n <= 14)%nat).
  { subst bits. destruct Hdf as [-> | ->]; [exists 7%nat | exists 14%nat];
      split; try reflexivity; lia. }
  destruct Hbits as [n [Hbn Hn]].
  assert (Hb56 : bits = 56%nat \/ bits = 112%nat)
    by (subst bits; destruct Hdf as [-> | ->]; [left | right]; reflexivity).
  assert (Hbad : (trailing_crc (flip_bit msg k) bits
                  =? modesChecksum (flip_bit msg k) bits) = false).
  { apply not_true_is_false. intros E. apply residual_0_iff in E.
    revert E. rewrite Hbn.
    rewrite residual_flip_bit by (try assumption; lia).
    unfold residual. rewrite <- Hbn, Hcrc, Z.lxor_nilpotent, Z.lxor_0_l.
    apply syndrome_nonzero; [exact Hb56 | lia]. }
  assert (H1117 : ((df =? 11) || (df =? 17)) = true)
    by (destruct Hdf as [-> | ->]; reflexivity).
  assert (Hrepair :
    decode_repair true ag (flip_bit msg k) df bits
      (trailing_crc (flip_bit msg k) bits)
      (trailing_crc (flip_bit msg k) bits =? modesChecksum (flip_bit msg k) bits)
    = (Z.of_nat k, msg, modesChecksum msg bits, true)).
  { unfold decode_repair. rewrite Hbad, H1117. cbn [negb andb].
    pose proof (fixSingleBitErrors_repairs_frame msg k Hlen Hok Hdf Hcrc (proj2 Hk))
      as Hfix.
    change (fixSingleBitErrors (flip_bit msg k) bits = (Z.of_nat k, msg)) in Hfix.
    rewrite Hfix.
    assert (Hk1 : (Z.of_nat k =? -1) = false) by (apply Z.eqb_neq; lia).
    rewrite Hk1. reflexivity. }
  subst r. unfold decodeModesMessage. cbv zeta.
  rewrite (take_ge (flip_bit msg k)) by (rewrite length_flip_bit; unfold MODES_LONG_MSG_BYTES; lia).
  rewrite (flip_bit_keeps_df msg k) by lia.
  fold df. fold bits. rewrite Hrepair, H1117.
  cbn [fst snd mm_msg mm_errorbit mm_crcok mm_crc andb].
  assert (Hk1 : (Z.of_nat k =? -1) = false) by (apply Z.eqb_neq; lia).
  rewrite Hk1. auto.
Qed.

(** ** Ground speed (C7) *)

(** Checked on every pair of 10-bit magnitudes (the sum is symmetric,
    so on the pairs with [ew <= ns]). *)
Lemma velocity_check_all :
  forall_below 1024 (fun ew =>
    forall_from ew (Z.to_nat (1024 - ew)) (velocity_check ew)) = true.
Proof. vm_compute. reflexivity. Qed.

Lemma decode_velocity_comm (ew ns : Z) : decode_velocity ew ns = decode_velocity ns ew.
Proof. unfold decode_velocity. rewrite Z.add_comm. reflexivity. Qed.

Lemma decode_velocity_floor (ew ns : Z) :
  0 <= ew < 1024 -> 0 <= ns < 1024 ->
  decode_velocity ew ns = Z.sqrt (ns * ns + ew * ew).
Proof.
  assert (Hle : forall a b, 0 <= a < 1024 -> 0 <= b < 1024 -> a <= b ->
            decode_velocity a b = Z.sqrt (b * b + a * a)).
  { intros a b Ha Hb Hab.
    pose proof (forall_below_spec 1024 _ velocity_check_all a Ha) as H1.
    cbv beta in H1.
    pose proof (forall_from_spec a _ _ H1 b ltac:(lia)) as H2.
    unfold velocity_check in H2. cbv zeta in H2.
    rewrite !andb_true_iff in H2. destruct H2 as [[H0 Hlo] Hhi].
    apply Z.leb_le in H0, Hlo. apply Z.ltb_lt in Hhi.
    symmetry. apply Z.sqrt_unique. unfold Z.succ. lia. }
  intros Hew Hns.
  destruct (Z.le_gt_cases ew ns) as [H|H].
  - apply Hle; assumption.
  - rewrite decode_velocity_comm, Z.add_comm. apply Hle; try assumption. lia.
Qed.

(** The buffer stays a buffer of bytes through the repair. *)
Lemma bytes_ok_memcpy (dst src : list Z) (n : nat) :
  bytes_ok dst -> bytes_ok src -> bytes_ok (memcpy dst src n).
Proof.
  intros Hd Hs. unfold memcpy, bytes_ok. apply Forall_app. split.
  - apply Forall_take. exact Hs.
  - apply Forall_drop. exact Hd.
Qed.

Lemma bytes_ok_fixSingleBitErrors_loop (msg : list Z) (bits fuel j : nat) :
  bytes_ok msg -> bytes_ok (snd (fixSingleBitErrors_loop msg bits fuel j)).
Proof.
  intros Hok. revert j. induction fuel as [|fuel IH]; intros j; [exact Hok|].
  cbn [fixSingleBitErrors_loop]. cbv zeta.
  destruct (_ =? _); [|apply IH].
  cbn [snd]. apply bytes_ok_memcpy; [exact Hok|].
  apply bytes_ok_flip_bit. apply Forall_take. exact Hok.
Qed.

Lemma bytes_ok_fixTwoBitsErrors_inner (msg : list Z) (bits j fuel i : nat) r :
  bytes_ok msg -> fixTwoBitsErrors_inner msg bits j fuel i = Some r -> bytes_ok (snd r).
Proof.
  intros Hok. revert i. induction fuel as [|fuel IH]; intros i; [discriminate|].
  cbn [fixTwoBitsErrors_inner]. cbv zeta.
  destruct (_ =? _); [|apply IH].
  intros [= <-]. cbn [snd]. apply bytes_ok_memcpy; [exact Hok|].
  apply bytes_ok_flip_bit, bytes_ok_flip_bit. apply Forall_take. exact Hok.
Qed.

Lemma bytes_ok_fixTwoBitsErrors_loop (msg : list Z) (bits fuel j : nat) :
  bytes_ok msg -> bytes_ok (snd (fixTwoBitsErrors_loop msg bits fuel j)).
Proof.
  intros Hok. revert j. induction fuel as [|fuel IH]; intros j; [exact Hok|].
  cbn [fixTwoBitsErrors_loop].
  destruct (fixTwoBitsErrors_inner msg bits j (bits - (j + 1)) (j + 1)) as [r|] eqn:E;
    [|apply IH].
  exact (bytes_ok_fixTwoBitsErrors_inner _ _ _ _ _ _ Hok E).
Qed.

Lemma bytes_ok_decode_repair fe ag (msg : list Z) msgtype msgbits crc0 crcok0 :
  bytes_ok msg ->
  bytes_ok (snd (fst (fst (decode_repair fe ag msg msgtype msgbits crc0 crcok0)))).
Proof.
  intros Hok. unfold decode_repair.
  destruct (_ && _ && _); [|exact Hok].
  pose proof (bytes_ok_fixSingleBitErrors_loop msg msgbits msgbits 0 Hok) as H1.
  fold (fixSingleBitErrors msg msgbits) in H1.
  destruct (fixSingleBitErrors msg msgbits) as [e1 m1]. cbn [snd] in H1.
  destruct (negb (e1 =? -1)); [exact H1|].
  destruct (ag && (msgtype =? 17)); [|exact H1].
  pose proof (bytes_ok_fixTwoBitsErrors_loop m1 msgbits msgbits 0 H1) as H2.
  fold (fixTwoBitsErrors m1 msgbits) in H2.
  destruct (fixTwoBitsErrors m1 msgbits) as [e2 m2]. cbn [snd] in H2.
  destruct (negb (e2 =? -1)); exact H2.
Qed.

Lemma bytes_ok_decoded atan2 fe ag now cache mm0 (msg0 : list Z) :
  bytes_ok msg0 ->
  bytes_ok (mm_msg (fst (decodeModesMessage atan2 fe ag now cache mm0 msg0))).
Proof.
  intros Hok. unfold decodeModesMessage. cbv zeta.
  match goal with
  | |- context [decode_repair ?a ?b ?c ?d ?e ?f ?g] =>
      pose proof (bytes_ok_decode_repair a b c d e f g (Forall_take _ _ _ Hok)) as H;
      destruct (decode_repair a b c d e f g) as [[[e1 m] c1] ok]
  end.
  exact H.
Qed.

(** The magnitudes of a velocity message are 10-bit numbers. *)
Lemma velocity_field_bounds (b5 b6 b7 b8 : Z) :
  0 <= b5 < 256 -> 0 <= b6 < 256 -> 0 <= b7 < 256 -> 0 <= b8 < 256 ->
  0 <= Z.lor (Z.shiftl (Z.land b5 3) 8) b6 < 1024 /\
  0 <= Z.lor (Z.shiftl (Z.land b7 0x7f) 3) (Z.shiftr (Z.land b8 0xe0) 5) < 1024.
Proof.
  intros H5 H6 H7 H8.
  assert (Hlor : forall a b, 0 <= a < 2 ^ 10 -> 0 <= b < 2 ^ 10 ->
            0 <= Z.lor a b < 2 ^ 10).
  { intros a b Ha Hb.
    assert (Hnn : 0 <= Z.lor a b) by (apply Z.lor_nonneg; lia).
    split; [exact Hnn|].
    destruct (Z.eq_dec (Z.lor a b) 0) as [->|Hnz]; [lia|].
    apply Z.log2_lt_pow2; [lia|].
    rewrite Z.log2_lor by lia.
    assert (Z.log2 a < 10)
      by (destruct (Z.eq_dec a 0) as [->|]; [reflexivity | apply Z.log2_lt_pow2; lia]).
    assert (Z.log2 b < 10)
      by (destruct (Z.eq_dec b 0) as [->|]; [reflexivity | apply Z.log2_lt_pow2; lia]).
    lia. }
  change 1024 with (2 ^ 10).
  assert (H5' : 0 <= Z.shiftl (Z.land b5 3) 8 < 2 ^ 10).
  { change 3 with (Z.ones 2). rewrite Z.land_ones, Z.shiftl_mul_pow2 by lia.
    pose proof (Z.mod_pos_bound b5 (2 ^ 2) ltac:(lia)). lia. }
  assert (H7' : 0 <= Z.shiftl (Z.land b7 0x7f) 3 < 2 ^ 10).
  { change 0x7f with (Z.ones 7). rewrite Z.land_ones, Z.shiftl_mul_pow2 by lia.
    pose proof (Z.mod_pos_bound b7 (2 ^ 7) ltac:(lia)). lia. }
  assert (H8' : 0 <= Z.shiftr (Z.land b8 0xe0) 5 < 2 ^ 10).
  { assert (Hb : forall_below 256 (fun b =>
                   (0 <=? Z.shiftr (Z.land b 0xe0) 5) &&
                   (Z.shiftr (Z.land b 0xe0) 5 <? 2 ^ 10)) = true)
      by (vm_compute; reflexivity).
    pose proof (forall_below_spec 256 _ Hb b8 H8) as H. cbv beta in H.
    apply andb_true_iff in H as [Ha Hb']. apply Z.leb_le in Ha. apply Z.ltb_lt in Hb'.
    lia. }
  split; apply Hlor; try assumption; lia.
Qed.

Lemma bytes_ok_lookup_any (msg : list Z) (i : nat) :
  bytes_ok msg -> 0 <= msg !!! i < 256.
Proof.
  intros Hok. destruct (Nat.lt_ge_cases i (length msg)) as [Hlt|Hge].
  - apply bytes_ok_lookup; assumption.
  - rewrite list_lookup_total_alt, lookup_ge_None_2 by exact Hge.
    vm_compute. split; [discriminate | reflexivity].
Qed.

(** The fields of a velocity message of subtype 1 or 2. *)
Lemma decode_velocity_fields atan2 fe ag now cache mm0 (msg0 : list Z) :
  let mm := fst (decodeModesMessage atan2 fe ag now cache mm0 msg0) in
  let b (i : nat) := mm_msg mm !!! i in
  mm_msgtype mm = 17 -> mm_metype mm = 19 -> mm_mesub mm = 1 \/ mm_mesub mm = 2 ->
  mm_ew_velocity mm = Z.lor (Z.shiftl (Z.land (b 5%nat) 3) 8) (b 6%nat) /\
  mm_ns_velocity mm = Z.lor (Z.shiftl (Z.land (b 7%nat) 0x7f) 3)
                            (Z.shiftr (Z.land (b 8%nat) 0xe0) 5) /\
  mm_velocity mm = decode_velocity (mm_ew_velocity mm) (mm_ns_velocity mm).
Proof.
  unfold decodeModesMessage. cbv zeta.
  destruct (decode_repair _ _ _ _ _ _ _) as [[[e m] c] ok].
  cbn [fst mm_msg mm_msgtype mm_metype mm_mesub mm_ew_velocity mm_ns_velocity mm_velocity].
  intros Hdf Hme Hsub. rewrite Hdf, Hme.
  change (17 =? 17) with true. change (19 =? 19) with true.
  assert (Hs : ((Z.land (m !!! 4%nat) 7 =? 1) || (Z.land (m !!! 4%nat) 7 =? 2)) = true)
    by (destruct Hsub as [-> | ->]; reflexivity).
  assert (Hr1 : (1 <=? Z.land (m !!! 4%nat) 7) = true)
    by (destruct Hsub as [-> | ->]; reflexivity).
  assert (Hr2 : (Z.land (m !!! 4%nat) 7 <=? 4) = true)
    by (destruct Hsub as [-> | ->]; reflexivity).
  rewrite Hs, Hr1, Hr2. cbn [andb]. auto.
Qed.

(** C7, as the code has it: for every DF17 airborne velocity message of
    subtype 1 or 2, the ground speed stored is the square root of
    [ew*ew + ns*ns] truncated to an integer (the assignment of the
    [double] to an [int] drops the fraction): the greatest [v] with
    [v*v <= ew*ew + ns*ns]. *)
Theorem C7_ground_speed_truncated_sqrt :
  forall atan2 fe ag now cache mm0 (msg0 : list Z),
    bytes_ok msg0 -> length msg0 = MODES_LONG_MSG_BYTES ->
    let mm := fst (decodeModesMessage atan2 fe ag now cache mm0 msg0) in
    mm_msgtype mm = 17 -> mm_metype mm = 19 -> mm_mesub mm = 1 \/ mm_mesub mm = 2 ->
    let ew := mm_ew_velocity mm in
    let ns := mm_ns_velocity mm in
    let v := mm_velocity mm in
    v = Z.sqrt (ew * ew + ns * ns) /\
    0 <= v /\ v * v <= ew * ew + ns * ns < (v + 1) * (v + 1).
Proof.
  intros atan2 fe ag now cache mm0 msg0 Hok Hlen mm Hdf Hme Hsub ew ns v.
  destruct (decode_velocity_fields atan2 fe ag now cache mm0 msg0 Hdf Hme Hsub)
    as [Hew [Hns Hv]].
  fold mm in Hew, Hns, Hv.
  pose proof (bytes_ok_decoded atan2 fe ag now cache mm0 msg0 Hok) as Hm. fold mm in Hm.
  destruct (velocity_field_bounds (mm_msg mm !!! 5%nat) (mm_msg mm !!! 6%nat)
              (mm_msg mm !!! 7%nat) (mm_msg mm !!! 8%nat))
    as [Bew Bns]; try (apply bytes_ok_lookup_any; exact Hm).
  rewrite <- Hew in Bew. rewrite <- Hns in Bns.
  fold ew in Bew, Hv. fold ns in Bns, Hv. fold v in Hv.
  assert (Hsq : v = Z.sqrt (ew * ew + ns * ns)).
  { rewrite Hv, decode_velocity_floor by assumption. f_equal. lia. }
  split; [exact Hsq|].
  pose proof (Z.sqrt_spec (ew * ew + ns * ns) ltac:(nia)) as Hspec.
  pose proof (Z.sqrt_nonneg (ew * ew + ns * ns)) as Hnn.
  rewrite <- Hsq in Hspec, Hnn. unfold Z.succ in Hspec. lia.
Qed.

Lemma C7_witness :
  let mm := fst (decodeModesMessage atan2_stub true false 1000 icao_cache_init
                   mm_zero frame_vel) in
  mm_ew_velocity mm = 9 /\ mm_ns_velocity mm = 160 /\ mm_velocity mm = 160 /\
  mm_velocity mm = Z.sqrt (mm_ew_velocity mm * mm_ew_velocity mm
                           + mm_ns_velocity mm * mm_ns_velocity mm).
Proof.
  cbv zeta.
  split; [vm_compute; reflexivity|].
  split; [vm_compute; reflexivity|].
  split; [vm_compute; reflexivity|].
  refine (proj1 (C7_ground_speed_truncated_sqrt atan2_stub true false 1000
                   icao_cache_init mm_zero frame_vel _ _ _ _ _)).
  - unfold bytes_ok, frame_vel. repeat constructor; lia.
  - reflexivity.
  - vm_compute. reflexivity.
  - vm_compute. reflexivity.
  - left. vm_compute. reflexivity.
Defined.

(** The claim as worded fails: with E/W 2 and N/S 2 the stored ground
    speed is 2, and the nearest integer to the square root of 8 is 3. *)
Lemma C7_counterexample_truncation :
  ~ (forall atan2 fe ag now cache mm0 (msg0 : list Z),
       bytes_ok msg0 -> length msg0 = MODES_LONG_MSG_BYTES ->
       let mm := fst (decodeModesMessage atan2 fe ag now cache mm0 msg0) in
       mm_msgtype mm = 17 -> mm_metype mm = 19 -> mm_mesub mm = 1 \/ mm_mesub mm = 2 ->
       nearest_int_to_sqrt (mm_velocity mm)
         (mm_ew_velocity mm * mm_ew_velocity mm + mm_ns_velocity mm * mm_ns_velocity mm)).
Proof.
  intros H.
  specialize (H atan2_stub true false 1000 icao_cache_init mm_zero frame_vel_2_2).
  cbv zeta in H.
  assert (Hok : bytes_ok frame_vel_2_2)
    by (unfold bytes_ok, frame_vel_2_2; repeat constructor; lia).
  specialize (H Hok eq_refl).
  assert (Hmm : let mm := fst (decodeModesMessage atan2_stub true false 1000
                                 icao_cache_init mm_zero frame_vel_2_2) in
                mm_msgtype mm = 17 /\ mm_metype mm = 19 /\ mm_mesub mm = 1 /\
                mm_ew_velocity mm = 2 /\ mm_ns_velocity mm = 2 /\ mm_velocity mm = 2)
    by (vm_compute; repeat split; reflexivity).
  cbv zeta in Hmm. destruct Hmm as [Hdf [Hme [Hsub [Hew [Hns Hv]]]]].
  specialize (H Hdf Hme (or_introl Hsub)).
  rewrite Hew, Hns, Hv in H. unfold nearest_int_to_sqrt in H. lia.
Qed.

(** ** Further checks on the scenarios *)

(** Scenario 2: with ABCDEF in the cache the frame is accepted and its
    address recovered.  Scenario 3: without it the frame is rejected. *)
Example scenario_ap_recovery :
  let seeded := addRecentlySeenICAOAddr 0xABCDEF 1000 icao_cache_init in
  let hit := fst (decodeModesMessage atan2_stub true false 1010 seeded mm_zero frame_df4) in
  let miss := fst (decodeModesMessage atan2_stub true false 1010 icao_cache_init
                     mm_zero frame_df4) in
  mm_msgtype hit = 4 /\ mm_crcok hit = true /\ mm_addr hit = 0xABCDEF /\
  mm_altitude hit = 36000 /\ mm_crcok miss = false.
Proof. vm_compute. repeat split; reflexivity. Qed.

(** Scenario 4 on the identification frame, through the decoder. *)
Example scenario_single_bit_repair :
  let r := decodeModesMessage atan2_stub true false 1000 icao_cache_init mm_zero
             (flip_bit frame_klm 37) in
  mm_errorbit (fst r) = 37 /\ mm_crcok (fst r) = true /\
  mm_msg (fst r) = frame_klm /\ snd r = icao_cache_init.
Proof. vm_compute. repeat split; reflexivity. Qed.

(** The record the tracker returns is the update of the record it found
    or created. *)
Lemma interactiveReceiveData_record (check_crc : bool) (now now_ms : Z)
    (aircrafts : list aircraft) (mm : modesMessage) :
  check_crc && negb (mm_crcok mm) = false ->
  let a0 := match interactiveFindAircraft (mm_addr mm) aircrafts with
            | Some (_, a) => a
            | None => interactiveCreateAircraft (mm_addr mm) now
            end in
  fst (interactiveReceiveData check_crc now now_ms aircrafts mm)
  = Some (receive_update now now_ms mm a0).
Proof.
  intros Hcrc. unfold interactiveReceiveData. rewrite Hcrc.
  fold (mm_addr mm). cbv zeta.
  destruct (interactiveFindAircraft (mm_addr mm) aircrafts) as [[i a]|]; reflexivity.
Qed.

(** A frame whose CRC is not valid does not reach the records (with
    [check_crc] on). *)
Lemma interactiveReceiveData_crc_check (now now_ms : Z)
    (aircrafts : list aircraft) (mm : modesMessage) :
  mm_crcok mm = false ->
  interactiveReceiveData true now now_ms aircrafts mm = (None, aircrafts).
Proof. intros H. unfold interactiveReceiveData. rewrite H. reflexivity. Qed.

(** ** The checksum and the repair loops on any buffer *)

Lemma crc_valid_residual (msg : list Z) (bits : nat) :
  crc_valid msg bits <-> residual msg bits = 0.
Proof.
  unfold crc_valid, residual. rewrite Z.lxor_eq_0_iff. split; intros H; symmetry; exact H.
Qed.

Lemma table_parity_zero (bits j : nat) :
  bits = 56%nat \/ bits = 112%nat -> (bits - 24 <= j < bits)%nat ->
  modes_checksum_table !!! (j + table_offset bits)%nat = 0.
Proof.
  intros Hbits Hj.
  assert (H : parity_entries_zero = true) by (vm_compute; reflexivity).
  unfold parity_entries_zero in H. rewrite forallb_forall in H.
  apply Z.eqb_eq. apply H. apply in_seq.
  destruct Hbits as [-> | ->]; unfold table_offset; simpl; lia.
Qed.

(** X1: the checksum of a 56-bit or a 112-bit buffer does not read the
    last three bytes: two buffers that agree on the bytes before them
    have the same checksum. *)
Theorem modesChecksum_payload_only (msg msg' : list Z) (bits : nat) :
  bits = 56%nat \/ bits = 112%nat ->
  (forall i : nat, (i < bits / 8 - 3)%nat -> msg !!! i = msg' !!! i) ->
  modesChecksum msg bits = modesChecksum msg' bits.
Proof.
  intros Hbits Hagree. rewrite !modesChecksum_xor_fold. fold (table_offset bits).
  apply xor_fold_ext. intros j Hj. apply in_seq in Hj. unfold contrib.
  destruct (Nat.lt_ge_cases j (bits - 24)) as [Hlt|Hge].
  - assert (Hq : (j / 8 < bits / 8 - 3)%nat).
    { destruct Hbits as [-> | ->].
      - change (56 / 8 - 3)%nat with 4%nat.
        apply Nat.Div0.div_lt_upper_bound. lia.
      - change (112 / 8 - 3)%nat with 11%nat.
        apply Nat.Div0.div_lt_upper_bound. lia. }
    unfold bit_of. rewrite (Hagree _ Hq). reflexivity.
  - rewrite table_parity_zero by (try assumption; lia).
    destruct (bit_of msg j), (bit_of msg' j); reflexivity.
Qed.

Lemma modesChecksum_payload_only_witness :
  modesChecksum (take 11 frame_klm ++ [0; 0; 0]) 112 = modesChecksum frame_klm 112.
Proof.
  apply (modesChecksum_payload_only _ _ 112 (or_intror eq_refl)).
  intros i Hi. change (112 / 8 - 3)%nat with 11%nat in Hi.
  do 11 (destruct i as [|i]; [reflexivity|]). lia.
Defined.

Lemma memcpy_flip_bit (msg : list Z) (n j : nat) :
  (j < 8 * n)%nat -> (n <= length msg)%nat ->
  memcpy msg (flip_bit (take n msg) j) n = flip_bit msg j.
Proof.
  intros Hj Hn. unfold memcpy.
  assert (Hq : (j / 8 < n)%nat) by (apply Nat.Div0.div_lt_upper_bound; lia).
  rewrite flip_bit_take by exact Hj.
  rewrite take_take, Nat.min_id.
  replace (drop n msg) with (drop n (flip_bit msg j))
    by (unfold flip_bit; apply drop_insert_lt; lia).
  apply take_drop.
Qed.

Lemma memcpy_flip_bit_2 (msg : list Z) (n j i : nat) :
  (j < 8 * n)%nat -> (i < 8 * n)%nat -> (n <= length msg)%nat ->
  memcpy msg (flip_bit (flip_bit (take n msg) j) i) n = flip_bit (flip_bit msg j) i.
Proof.
  intros Hj Hi Hn.
  assert (Hq : (j / 8 < n)%nat) by (apply Nat.Div0.div_lt_upper_bound; lia).
  rewrite (flip_bit_take msg n j) by exact Hj.
  rewrite <- (memcpy_flip_bit (flip_bit msg j) n i)
    by (try rewrite length_flip_bit; assumption).
  unfold memcpy. f_equal.
  symmetry. unfold flip_bit at 1. apply drop_insert_lt. lia.
Qed.

Lemma fixSingleBitErrors_loop_outcome (msg : list Z) (n : nat) :
  (3 <= n <= length msg)%nat ->
  forall fuel j : nat, (j + fuel = 8 * n)%nat ->
    (forall k : nat, (k < j)%nat -> ~ crc_valid (flip_bit msg k) (8 * n)) ->
    single_repair_outcome msg (8 * n) (fixSingleBitErrors_loop msg (8 * n) fuel j).
Proof.
  intros Hn.
  assert (Hdiv : (8 * n / 8 = n)%nat) by (rewrite Nat.mul_comm, Nat.div_mul; lia).
  induction fuel as [|fuel IH]; intros j Hsum Hbefore.
  - left. cbn [fixSingleBitErrors_loop fst snd]. repeat split.
    intros k Hk. apply Hbefore. lia.
  - cbn [fixSingleBitErrors_loop]. cbv zeta. rewrite Hdiv.
    rewrite (repair_test msg n j) by lia.
    destruct (Z.eqb_spec (residual (flip_bit msg j) (8 * n)) 0) as [E|E].
    + right. exists j. cbn [fst snd].
      rewrite memcpy_flip_bit by lia.
      repeat split; try lia; try assumption.
      apply crc_valid_residual. exact E.
    + apply IH; [lia|]. intros k Hk.
      destruct (Nat.eq_dec k j) as [->|Hne]; [|apply Hbefore; lia].
      intros Hv. apply E. apply crc_valid_residual. exact Hv.
Qed.

(** X2: on a frame of 56 or 112 bits ([n] = 7 or 14 bytes, the lengths
    the decoder calls it with), [fixSingleBitErrors] returns the first
    bit position whose flip makes the CRC valid and leaves the buffer
    with exactly that bit flipped; when no position qualifies it returns
    -1 and leaves the buffer as it was. *)
Theorem fixSingleBitErrors_first_valid_flip (msg : list Z) (n : nat) :
  n = MODES_SHORT_MSG_BYTES \/ n = MODES_LONG_MSG_BYTES -> (n <= length msg)%nat ->
  single_repair_outcome msg (8 * n) (fixSingleBitErrors msg (8 * n)).
Proof.
  intros Hn Hlen. unfold fixSingleBitErrors.
  unfold MODES_SHORT_MSG_BYTES, MODES_LONG_MSG_BYTES in Hn.
  apply fixSingleBitErrors_loop_outcome; [lia | lia |].
  intros k Hk. lia.
Qed.

Lemma fixSingleBitErrors_first_valid_flip_witness :
  single_repair_outcome (flip_bit frame_klm 37) (8 * 14)
    (fixSingleBitErrors (flip_bit frame_klm 37) (8 * 14)).
Proof.
  apply (fixSingleBitErrors_first_valid_flip (flip_bit frame_klm 37) 14).
  - right. reflexivity.
  - vm_compute. lia.
Defined.

(** *** The two-bit repair loop *)

Lemma repair_test_2 (msg : list Z) (n j i : nat) :
  (3 <= n)%nat -> (j < 8 * n)%nat -> (i < 8 * n)%nat ->
  let aux := flip_bit (flip_bit (take n msg) j) i in
  (trailing_crc aux (8 * n) =? modesChecksum aux (8 * n))
  = (residual (flip_bit (flip_bit msg j) i) (8 * n) =? 0).
Proof.
  intros Hn Hj Hi aux. subst aux.
  rewrite (flip_bit_take msg n j) by exact Hj.
  apply (repair_test (flip_bit msg j) n i); assumption.
Qed.

Lemma fixTwoBitsErrors_inner_outcome (msg : list Z) (n j : nat) :
  (3 <= n <= length msg)%nat -> (j < 8 * n)%nat ->
  forall fuel i : nat, (i + fuel = 8 * n)%nat -> (j < i)%nat ->
    (forall i' : nat, (j < i' < i)%nat ->
       ~ crc_valid (flip_bit (flip_bit msg j) i') (8 * n)) ->
    match fixTwoBitsErrors_inner msg (8 * n) j fuel i with
    | None => forall i' : nat, (j < i' < 8 * n)%nat ->
                ~ crc_valid (flip_bit (flip_bit msg j) i') (8 * n)
    | Some r => exists i0 : nat, (j < i0 < 8 * n)%nat /\
                  r = (Z.lor (Z.of_nat j) (Z.shiftl (Z.of_nat i0) 8),
                       flip_bit (flip_bit msg j) i0) /\
                  crc_valid (flip_bit (flip_bit msg j) i0) (8 * n) /\
                  forall i' : nat, (j < i' < i0)%nat ->
                    ~ crc_valid (flip_bit (flip_bit msg j) i') (8 * n)
    end.
Proof.
  intros Hn Hj.
  assert (Hdiv : (8 * n / 8 = n)%nat) by (rewrite Nat.mul_comm, Nat.div_mul; lia).
  induction fuel as [|fuel IH]; intros i Hsum Hji Hbefore.
  - cbn [fixTwoBitsErrors_inner]. intros i' Hi'. apply Hbefore. lia.
  - cbn [fixTwoBitsErrors_inner]. cbv zeta. rewrite Hdiv.
    rewrite (repair_test_2 msg n j i) by lia.
    destruct (Z.eqb_spec (residual (flip_bit (flip_bit msg j) i) (8 * n)) 0) as [E|E].
    + exists i. rewrite memcpy_flip_bit_2 by lia.
      repeat split; try lia; try assumption.
      apply crc_valid_residual. exact E.
    + apply IH; [lia | lia |]. intros i' Hi'.
      destruct (Nat.eq_dec i' i) as [->|Hne]; [|apply Hbefore; lia].
      intros Hv. apply E. apply crc_valid_residual. exact Hv.
Qed.

Lemma fixTwoBitsErrors_loop_outcome (msg : list Z) (n : nat) :
  (3 <= n <= length msg)%nat ->
  forall fuel j : nat, (j + fuel = 8 * n)%nat ->
    (forall j' i' : nat, (j' < i' < 8 * n)%nat -> (j' < j)%nat ->
       ~ crc_valid (flip_bit (flip_bit msg j') i') (8 * n)) ->
    double_repair_outcome msg (8 * n) (fixTwoBitsErrors_loop msg (8 * n) fuel j).
Proof.
  intros Hn.
  induction fuel as [|fuel IH]; intros j Hsum Hbefore.
  - left. cbn [fixTwoBitsErrors_loop fst snd]. repeat split.
    intros j' i' Hji. apply Hbefore; lia.
  - cbn [fixTwoBitsErrors_loop].
    pose proof (fixTwoBitsErrors_inner_outcome msg n j Hn ltac:(lia)
                  (8 * n - (j + 1)) (j + 1) ltac:(lia) ltac:(lia)
                  ltac:(intros; lia)) as Hin.
    destruct (fixTwoBitsErrors_inner msg (8 * n) j (8 * n - (j + 1)) (j + 1))
      as [r|].
    + destruct Hin as [i0 [Hi0 [-> [Hv Hfirst]]]].
      right. exists j, i0. cbn [fst snd].
      repeat split; try lia; try assumption.
      intros j' i' Hji [Hlt | [-> Hlt]].
      * apply Hbefore; lia.
      * apply Hfirst. lia.
    + apply IH; [lia|]. intros j' i' Hji Hlt.
      destruct (Nat.eq_dec j' j) as [->|Hne].
      * apply Hin. lia.
      * apply Hbefore; lia.
Qed.

Lemma fixTwoBitsErrors_outcome (msg : list Z) (n : nat) :
  (3 <= n <= length msg)%nat ->
  double_repair_outcome msg (8 * n) (fixTwoBitsErrors msg (8 * n)).
Proof.
  intros Hn. unfold fixTwoBitsErrors.
  apply fixTwoBitsErrors_loop_outcome; [exact Hn | lia |].
  intros j' i' _ Hlt. lia.
Qed.

(** The two positions packed in the return value come apart again. *)
Lemma unpack_error_bits (j i : nat) :
  (j < 256)%nat ->
  let e := Z.lor (Z.of_nat j) (Z.shiftl (Z.of_nat i) 8) in
  Z.land e 0xff = Z.of_nat j /\ Z.shiftr e 8 = Z.of_nat i.
Proof.
  intros Hj e. subst e. split.
  - change 0xff with (Z.ones 8). rewrite Z.land_ones by lia.
    rewrite Z.shiftl_mul_pow2 by lia.
    rewrite <- Z.add_nocarry_lor.
    + rewrite Z.mod_add by (apply pow2_nonzero; lia).
      apply Z.mod_small. change (2 ^ 8) with 256. lia.
    + apply (land_0_by_range _ _ 8).
      * intros b _ Hb. apply testbit_byte_high; lia.
      * intros b Hb Hlt. rewrite Z.mul_pow2_bits_low by lia. reflexivity.
  - rewrite Z.shiftr_lor, Z.shiftr_shiftl_l by lia.
    change (8 - 8) with 0. rewrite Z.shiftl_0_r.
    rewrite (Z.shiftr_div_pow2 (Z.of_nat j)) by lia.
    rewrite Z.div_small by (change (2 ^ 8) with 256; lia).
    apply Z.lor_0_l.
Qed.

(** X3: on a frame of 56 or 112 bits ([n] = 7 or 14 bytes, the lengths
    the decoder works with), [fixTwoBitsErrors] returns the first pair of
    positions [j < i], packed as [j | (i << 8)] (a value from which both
    come back), whose flips make the CRC valid, and leaves the buffer
    with exactly those two bits flipped; when no pair qualifies it
    returns -1 and leaves the buffer as it was. *)
Theorem fixTwoBitsErrors_first_valid_pair (msg : list Z) (n : nat) :
  n = MODES_SHORT_MSG_BYTES \/ n = MODES_LONG_MSG_BYTES -> (n <= length msg)%nat ->
  let r := fixTwoBitsErrors msg (8 * n) in
  double_repair_outcome msg (8 * n) r /\
  (fst r <> -1 ->
   (Z.to_nat (Z.land (fst r) 0xff) < Z.to_nat (Z.shiftr (fst r) 8) < 8 * n)%nat /\
   snd r = flip_bit (flip_bit msg (Z.to_nat (Z.land (fst r) 0xff)))
                    (Z.to_nat (Z.shiftr (fst r) 8))).
Proof.
  intros Hn Hlen r. unfold MODES_SHORT_MSG_BYTES, MODES_LONG_MSG_BYTES in Hn.
  pose proof (fixTwoBitsErrors_outcome msg n ltac:(lia)) as H.
  fold r in H. split; [exact H|].
  intros Hne. destruct H as [[H1 _] | [j [i [Hji [He [Hs _]]]]]]; [contradiction|].
  destruct (unpack_error_bits j i ltac:(lia)) as [Hlo Hhi].
  rewrite He, Hlo, Hhi, !Nat2Z.id. split; [lia | exact Hs].
Qed.

Lemma fixTwoBitsErrors_first_valid_pair_witness :
  fst (fixTwoBitsErrors (flip_bit (flip_bit frame_klm 1) 40) (8 * 14)) <> -1 /\
  snd (fixTwoBitsErrors (flip_bit (flip_bit frame_klm 1) 40) (8 * 14)) = frame_klm.
Proof.
  pose proof (fixTwoBitsErrors_first_valid_pair
                (flip_bit (flip_bit frame_klm 1) 40) 14
                ltac:(right; reflexivity) ltac:(vm_compute; lia)) as H.
  cbv zeta in H. destruct H as [_ H].
  assert (Hne : fst (fixTwoBitsErrors (flip_bit (flip_bit frame_klm 1) 40) (8 * 14)) <> -1)
    by (vm_compute; discriminate).
  split; [exact Hne|].
  destruct (H Hne) as [_ Hs]. rewrite Hs. vm_compute. reflexivity.
Defined.

(** *** Two flipped bits *)

Lemma in_bit_pairs (bits j i : nat) :
  (j < i < bits)%nat -> In (j, i) (bit_pairs bits).
Proof.
  intros H. unfold bit_pairs. apply in_flat_map. exists j. split.
  - apply in_seq. lia.
  - apply in_map_iff. exists i. split; [reflexivity|]. apply in_seq. lia.
Qed.

Lemma pair_syndrome_lookup (bits j i : nat) :
  bits = 56%nat \/ bits = 112%nat -> (j < i < bits)%nat ->
  pair_table bits !! Z.to_pos (pair_syndrome bits j i) = Some (j, i).
Proof.
  intros Hbits Hji.
  assert (H : pair_syndromes_distinct bits = true)
    by (destruct Hbits as [-> | ->]; vm_compute; reflexivity).
  unfold pair_syndromes_distinct in H. cbv zeta in H. rewrite forallb_forall in H.
  specialize (H (j, i) (in_bit_pairs bits j i Hji)). cbn [fst snd] in H.
  destruct (pair_table bits !! Z.to_pos (pair_syndrome bits j i)) as [[j' i']|];
    [|discriminate].
  cbn [fst snd] in H. apply andb_true_iff in H. destruct H as [H1 H2].
  apply Nat.eqb_eq in H1, H2. subst. reflexivity.
Qed.

Lemma pair_syndrome_inj (bits j i j' i' : nat) :
  bits = 56%nat \/ bits = 112%nat -> (j < i < bits)%nat -> (j' < i' < bits)%nat ->
  pair_syndrome bits j i = pair_syndrome bits j' i' -> j = j' /\ i = i'.
Proof.
  intros Hbits Hji Hji' E.
  pose proof (pair_syndrome_lookup bits j i Hbits Hji) as H1.
  pose proof (pair_syndrome_lookup bits j' i' Hbits Hji') as H2.
  rewrite E, H2 in H1. injection H1 as -> ->. split; reflexivity.
Qed.

Lemma pair_syndrome_not_single (bits j i k : nat) :
  bits = 56%nat \/ bits = 112%nat -> (j < i < bits)%nat -> (k < bits)%nat ->
  pair_syndrome bits j i <> syndrome bits k.
Proof.
  intros Hbits Hji Hk E.
  pose proof (pair_syndrome_lookup bits j i Hbits Hji) as H1.
  assert (H : pair_syndromes_apart bits = true)
    by (destruct Hbits as [-> | ->]; vm_compute; reflexivity).
  unfold pair_syndromes_apart in H. cbv zeta in H. rewrite forallb_forall in H.
  specialize (H k ltac:(apply in_seq; lia)).
  rewrite <- E, H1 in H. discriminate.
Qed.

Lemma pair_syndrome_nonzero (bits j i : nat) :
  bits = 56%nat \/ bits = 112%nat -> (j < i < bits)%nat ->
  pair_syndrome bits j i <> 0.
Proof.
  intros Hbits Hji E. unfold pair_syndrome in E.
  apply (proj1 (Z.lxor_eq_0_iff _ _)) in E.
  apply (syndrome_inj bits) in E; [lia | exact Hbits | lia | lia].
Qed.

Lemma flip_bit_comm (msg : list Z) (a b : nat) :
  (a / 8 < length msg)%nat -> (b / 8 < length msg)%nat ->
  flip_bit (flip_bit msg a) b = flip_bit (flip_bit msg b) a.
Proof.
  intros Ha Hb. unfold flip_bit.
  destruct (Nat.eq_dec (a / 8)%nat (b / 8)%nat) as [E|Hne].
  - rewrite E in *. rewrite !list_lookup_total_insert_eq by exact Hb.
    rewrite !list_insert_insert_eq. f_equal.
    rewrite !Z.lxor_assoc. f_equal. apply Z.lxor_comm.
  - rewrite (list_lookup_total_insert_ne msg (a / 8)%nat (b / 8)%nat) by exact Hne.
    rewrite (list_lookup_total_insert_ne msg (b / 8)%nat (a / 8)%nat)
      by (intros E; apply Hne; symmetry; exact E).
    apply list_insert_insert_ne. intros E. apply Hne. symmetry. exact E.
Qed.

(** The residual of a valid buffer after the flips of [j] and [i]. *)
Lemma residual_two_flips (msg : list Z) (n j i : nat) :
  bytes_ok msg -> (3 <= n <= length msg)%nat -> (j < 8 * n)%nat -> (i < 8 * n)%nat ->
  residual (flip_bit (flip_bit msg j) i) (8 * n)
  = Z.lxor (residual msg (8 * n)) (pair_syndrome (8 * n) j i).
Proof.
  intros Hok Hn Hj Hi.
  rewrite residual_flip_bit;
    [| apply bytes_ok_flip_bit; exact Hok | rewrite length_flip_bit; exact Hn | exact Hi].
  rewrite residual_flip_bit by assumption.
  unfold pair_syndrome. apply Z.lxor_assoc.
Qed.

Lemma two_flips_cancel (msg : list Z) (j i : nat) :
  (j / 8 < length msg)%nat -> (i / 8 < length msg)%nat ->
  flip_bit (flip_bit (flip_bit (flip_bit msg j) i) j) i = msg.
Proof.
  intros Hj Hi.
  rewrite (flip_bit_comm (flip_bit (flip_bit msg j) i) j i)
    by (rewrite !length_flip_bit; assumption).
  rewrite (flip_bit_involutive (flip_bit msg j) i) by (rewrite length_flip_bit; exact Hi).
  apply flip_bit_involutive. exact Hj.
Qed.

(** A valid 56-bit or 112-bit buffer with bits [j < i] flipped: no single
    flip validates it, and the pair [(j, i)] is the only one that does. *)
Lemma two_flips_single (msg : list Z) (n j i k : nat) :
  bytes_ok msg -> (3 <= n <= length msg)%nat ->
  (8 * n = 56 \/ 8 * n = 112)%nat -> (j < i < 8 * n)%nat -> (k < 8 * n)%nat ->
  crc_valid msg (8 * n) ->
  ~ crc_valid (flip_bit (flip_bit (flip_bit msg j) i) k) (8 * n).
Proof.
  intros Hok Hn Hbits Hji Hk Hv Hv'.
  apply crc_valid_residual in Hv, Hv'.
  rewrite residual_flip_bit in Hv';
    [| repeat apply bytes_ok_flip_bit; exact Hok
     | rewrite !length_flip_bit; exact Hn | exact Hk].
  rewrite residual_two_flips in Hv' by (try assumption; lia).
  rewrite Hv, Z.lxor_0_l in Hv'.
  apply (proj1 (Z.lxor_eq_0_iff _ _)) in Hv'.
  apply (pair_syndrome_not_single (8 * n) j i k); assumption.
Qed.

Lemma two_flips_pair (msg : list Z) (n j i j' i' : nat) :
  bytes_ok msg -> (3 <= n <= length msg)%nat ->
  (8 * n = 56 \/ 8 * n = 112)%nat -> (j < i < 8 * n)%nat -> (j' < i' < 8 * n)%nat ->
  crc_valid msg (8 * n) ->
  crc_valid (flip_bit (flip_bit (flip_bit (flip_bit msg j) i) j') i') (8 * n) <->
  j' = j /\ i' = i.
Proof.
  intros Hok Hn Hbits Hji Hji' Hv.
  apply crc_valid_residual in Hv.
  rewrite crc_valid_residual.
  rewrite residual_two_flips;
    [| repeat apply bytes_ok_flip_bit; exact Hok
     | rewrite !length_flip_bit; exact Hn | lia | lia].
  rewrite residual_two_flips by (try assumption; lia).
  rewrite Hv, Z.lxor_0_l, Z.lxor_eq_0_iff.
  split.
  - intros E. apply (pair_syndrome_inj (8 * n)) in E; try assumption.
    destruct E as [-> ->]. split; reflexivity.
  - intros [-> ->]. reflexivity.
Qed.

Lemma fixTwoBitsErrors_repairs (msg : list Z) (n j i : nat) :
  bytes_ok msg -> (3 <= n <= length msg)%nat ->
  (8 * n = 56 \/ 8 * n = 112)%nat -> (j < i < 8 * n)%nat ->
  crc_valid msg (8 * n) ->
  fixTwoBitsErrors (flip_bit (flip_bit msg j) i) (8 * n)
  = (Z.lor (Z.of_nat j) (Z.shiftl (Z.of_nat i) 8), msg).
Proof.
  intros Hok Hn Hbits Hji Hv.
  assert (Hqj : (j / 8 < length msg)%nat)
    by (apply Nat.Div0.div_lt_upper_bound; lia).
  assert (Hqi : (i / 8 < length msg)%nat)
    by (apply Nat.Div0.div_lt_upper_bound; lia).
  pose proof (fixTwoBitsErrors_outcome (flip_bit (flip_bit msg j) i) n
                ltac:(rewrite !length_flip_bit; exact Hn)) as H.
  destruct H as [[_ [_ Hnone]] | [j0 [i0 [Hji0 [He [Hs [Hv0 _]]]]]]].
  - exfalso. apply (Hnone j i Hji).
    apply (two_flips_pair msg n j i j i); try assumption. split; reflexivity.
  - apply (two_flips_pair msg n j i j0 i0) in Hv0; try assumption.
    destruct Hv0 as [-> ->].
    rewrite two_flips_cancel in Hs by assumption.
    destruct (fixTwoBitsErrors _ _) as [e m]. cbn [fst snd] in He, Hs.
    subst. reflexivity.
Qed.

(** X4: take a buffer that holds a 56-bit or a 112-bit frame with a valid
    CRC and flip two of its bits, [j < i].  [fixTwoBitsErrors] finds
    exactly this pair: it returns [j | (i << 8)] and leaves the original
    bytes in the buffer. *)
Theorem fixTwoBitsErrors_recovers_frame (msg : list Z) (n j i : nat) :
  bytes_ok msg -> (n <= length msg)%nat ->
  (n = MODES_SHORT_MSG_BYTES \/ n = MODES_LONG_MSG_BYTES) ->
  (j < i < 8 * n)%nat ->
  modesChecksum msg (8 * n) = trailing_crc msg (8 * n) ->
  fixTwoBitsErrors (flip_bit (flip_bit msg j) i) (8 * n)
  = (Z.lor (Z.of_nat j) (Z.shiftl (Z.of_nat i) 8), msg).
Proof.
  intros Hok Hlen Hn Hji Hv.
  unfold MODES_SHORT_MSG_BYTES, MODES_LONG_MSG_BYTES in Hn.
  apply fixTwoBitsErrors_repairs; try assumption; lia.
Qed.

Lemma fixTwoBitsErrors_recovers_frame_witness :
  fixTwoBitsErrors (flip_bit (flip_bit frame_klm 37) 90) (8 * 14)
  = (Z.lor 37 (Z.shiftl 90 8), frame_klm).
Proof.
  apply (fixTwoBitsErrors_recovers_frame frame_klm 14 37 90 frame_klm_bytes_ok).
  - vm_compute. lia.
  - right. reflexivity.
  - lia.
  - reflexivity.
Defined.

(** *** What the decoder reports about a repair *)

Lemma decode_repair_outcome fe ag (msg : list Z) msgtype (n : nat) crc0 crcok0 :
  (3 <= n <= length msg)%nat ->
  let r := decode_repair fe ag msg msgtype (8 * n) crc0 crcok0 in
  let e := fst (fst (fst r)) in
  let m := snd (fst (fst r)) in
  (e = -1 /\ m = msg /\ snd (fst r) = crc0 /\ snd r = crcok0) \/
  (e <> -1 /\ fe = true /\ crcok0 = false /\ (msgtype = 11 \/ msgtype = 17) /\
   snd r = true /\ snd (fst r) = modesChecksum m (8 * n) /\
   crc_valid m (8 * n) /\ repaired_from ag msgtype (8 * n) msg e m).
Proof.
  intros Hn. unfold decode_repair.
  destruct crcok0; cbn [negb andb]; [left; cbn [fst snd]; auto|].
  destruct fe; cbn [andb]; [|left; cbn [fst snd]; auto].
  destruct ((msgtype =? 11) || (msgtype =? 17)) eqn:Hdf; [|left; cbn [fst snd]; auto].
  assert (Hdf' : msgtype = 11 \/ msgtype = 17).
  { apply orb_true_iff in Hdf. destruct Hdf as [H|H]; apply Z.eqb_eq in H; auto. }
  pose proof (fixSingleBitErrors_loop_outcome msg n Hn (8 * n) 0 eq_refl
                ltac:(intros; lia)) as H1.
  fold (fixSingleBitErrors msg (8 * n)) in H1.
  destruct (fixSingleBitErrors msg (8 * n)) as [e1 m1].
  destruct H1 as [[He1 [Hm1 _]] | [k [Hk [He1 [Hm1 [Hv1 _]]]]]]; cbn [fst snd] in He1, Hm1.
  - subst e1 m1. change (-1 =? -1) with true. cbn [negb].
    destruct ag; cbn [andb]; [|left; cbn [fst snd]; auto].
    destruct (Z.eqb_spec msgtype 17) as [H17|H17]; [|left; cbn [fst snd]; auto].
    pose proof (fixTwoBitsErrors_outcome msg n Hn) as H2.
    destruct (fixTwoBitsErrors msg (8 * n)) as [e2 m2].
    destruct H2 as [[He2 [Hm2 _]] | [j [i [Hji [He2 [Hm2 [Hv2 _]]]]]]];
      cbn [fst snd] in He2, Hm2.
    + subst e2 m2. change (-1 =? -1) with true. cbn [negb fst snd]. left. auto.
    + assert (Hpos : 0 <= e2).
      { rewrite He2. apply Z.lor_nonneg. split; [lia|]. apply Z.shiftl_nonneg. lia. }
      assert (Hne : (e2 =? -1) = false) by (apply Z.eqb_neq; lia).
      rewrite Hne. cbn [negb fst snd]. right.
      repeat split; try assumption; try reflexivity; try lia.
      * rewrite Hm2. exact Hv2.
      * right. repeat split; try reflexivity; try assumption.
        exists j, i. auto.
  - assert (Hne : (e1 =? -1) = false) by (apply Z.eqb_neq; lia).
    rewrite Hne. cbn [negb fst snd]. right.
    repeat split; try assumption; try reflexivity; try lia.
    + rewrite Hm1. exact Hv1.
    + left. exists k. auto.
Qed.

(** X5: what [decodeModesMessage] reports about a repair holds of its
    result.  With [errorbit = -1] the message bytes are the received ones.
    With any other [errorbit], error correction is on, the frame is DF11
    or DF17, the received CRC was wrong, the bytes are the received ones
    with the reported bit (or, in aggressive mode on DF17, the reported
    two bits) flipped, their CRC is valid and is the one stored in [crc],
    and the recency cache is left untouched. *)
Theorem decodeModesMessage_repair_report :
  forall atan2 fe ag now cache mm0 (msg0 : list Z),
    length msg0 = MODES_LONG_MSG_BYTES ->
    let r := decodeModesMessage atan2 fe ag now cache mm0 msg0 in
    let mm := fst r in
    let bits := mm_msgbits mm in
    (mm_errorbit mm = -1 -> mm_msg mm = msg0) /\
    (mm_errorbit mm <> -1 ->
       fe = true /\ (mm_msgtype mm = 11 \/ mm_msgtype mm = 17) /\
       ~ crc_valid msg0 bits /\
       repaired_from ag (mm_msgtype mm) bits msg0 (mm_errorbit mm) (mm_msg mm) /\
       mm_crcok mm = true /\ crc_valid (mm_msg mm) bits /\
       mm_crc mm = trailing_crc (mm_msg mm) bits /\
       snd r = cache).
Proof.
  intros atan2 fe ag now cache mm0 msg0 Hlen r mm bits.
  subst bits mm r.
  unfold decodeModesMessage. cbv zeta.
  rewrite (take_ge msg0) by (rewrite Hlen; lia).
  set (df := Z.shiftr (msg0 !!! 0%nat) 3).
  assert (Hbits : exists n, modesMessageLenByType df = (8 * n)%nat /\
                            (3 <= n <= length msg0)%nat).
  { unfold MODES_LONG_MSG_BYTES in Hlen. rewrite Hlen.
    destruct (modesMessageLenByType_cases df) as [-> | ->];
      [exists 14%nat | exists 7%nat]; split; try reflexivity; lia. }
  destruct Hbits as [n [Hbn Hn]]. rewrite Hbn.
  match goal with
  | |- context [decode_repair ?a ?b ?c ?d ?e ?f ?g] =>
      pose proof (decode_repair_outcome a b c d n f g Hn) as H;
      destruct (decode_repair a b c d e f g) as [[[e1 m] c1] ok]
  end.
  cbv zeta in H. cbn [fst snd] in H.
  cbn [fst snd mm_msgtype mm_crcok mm_errorbit mm_msgbits mm_msg mm_crc].
  split.
  - intros He. destruct H as [[_ [Hm _]] | [Hne _]]; [exact Hm | contradiction].
  - intros He. destruct H as [[He1 _] | [_ [Hfe [Hbad [Hdf [Hok [Hc [Hv Hrep]]]]]]]];
      [contradiction|].
    assert (He1 : (e1 =? -1) = false) by (apply Z.eqb_neq; exact He).
    rewrite He1, andb_false_r.
    repeat split; try assumption.
    + intros Hv0. apply Z.eqb_neq in Hbad. apply Hbad. symmetry. exact Hv0.
    + assert (H1117 : ((df =? 11) || (df =? 17)) = true)
        by (destruct Hdf as [-> | ->]; reflexivity).
      rewrite H1117. exact Hok.
    + rewrite Hc. exact Hv.
Qed.

Lemma decodeModesMessage_repair_report_witness :
  let mm := fst (decodeModesMessage atan2_stub true false 1000 icao_cache_init mm_zero
                   (flip_bit frame_klm 37)) in
  mm_errorbit mm = 37 /\ mm_crcok mm = true /\ crc_valid (mm_msg mm) (mm_msgbits mm).
Proof.
  pose proof (decodeModesMessage_repair_report atan2_stub true false 1000
                icao_cache_init mm_zero (flip_bit frame_klm 37) eq_refl) as H.
  cbv zeta in H. destruct H as [_ H].
  assert (He : mm_errorbit (fst (decodeModesMessage atan2_stub true false 1000
                 icao_cache_init mm_zero (flip_bit frame_klm 37))) = 37)
    by (vm_compute; reflexivity).
  cbv zeta. split; [exact He|].
  destruct H as [_ [_ [_ [_ [Hok [Hv _]]]]]]; [rewrite He; discriminate|].
  split; assumption.
Defined.

(** No single flip validates a valid frame with two flipped bits. *)
Lemma fixSingleBitErrors_two_flips (msg : list Z) (n j i : nat) :
  bytes_ok msg -> (3 <= n <= length msg)%nat ->
  (8 * n = 56 \/ 8 * n = 112)%nat -> (j < i < 8 * n)%nat ->
  crc_valid msg (8 * n) ->
  fixSingleBitErrors (flip_bit (flip_bit msg j) i) (8 * n)
  = (-1, flip_bit (flip_bit msg j) i).
Proof.
  intros Hok Hn Hbits Hji Hv.
  pose proof (fixSingleBitErrors_loop_outcome (flip_bit (flip_bit msg j) i) n
                ltac:(rewrite !length_flip_bit; exact Hn) (8 * n) 0 eq_refl
                ltac:(intros; lia)) as H.
  fold (fixSingleBitErrors (flip_bit (flip_bit msg j) i) (8 * n)) in H.
  destruct (fixSingleBitErrors _ _) as [e m].
  destruct H as [[He [Hm _]] | [k [Hk [_ [_ [Hvk _]]]]]]; cbn [fst snd] in *.
  - subst. reflexivity.
  - exfalso. revert Hvk. apply two_flips_single; assumption.
Qed.

(** X6: a valid DF11 or DF17 frame with two bits flipped after the format
    field, decoded with error correction on.  In aggressive mode a DF17
    frame comes out as the original frame, [errorbit] packing the two
    positions; otherwise the frame is rejected as received: single-bit
    repair never turns it into another frame.  In both cases its address
    stays out of the recency cache. *)
Theorem decodeModesMessage_two_flipped_bits :
  forall atan2 ag now cache mm0 (msg : list Z) (j i : nat),
    length msg = MODES_LONG_MSG_BYTES -> bytes_ok msg ->
    let df := Z.shiftr (msg !!! 0%nat) 3 in
    df = 11 \/ df = 17 ->
    let bits := modesMessageLenByType df in
    modesChecksum msg bits = trailing_crc msg bits ->
    (5 <= j)%nat -> (j < i < bits)%nat ->
    let received := flip_bit (flip_bit msg j) i in
    let r := decodeModesMessage atan2 true ag now cache mm0 received in
    snd r = cache /\
    if ag && (df =? 17)
    then mm_msg (fst r) = msg /\ mm_crcok (fst r) = true /\
         mm_errorbit (fst r) = Z.lor (Z.of_nat j) (Z.shiftl (Z.of_nat i) 8) /\
         mm_crc (fst r) = trailing_crc msg bits
    else mm_msg (fst r) = received /\ mm_crcok (fst r) = false /\
         mm_errorbit (fst r) = -1.
Proof.
  intros atan2 ag now cache mm0 msg j i Hlen Hok df Hdf bits Hcrc Hj Hji received r.
  unfold MODES_LONG_MSG_BYTES in Hlen.
  assert (Hbits : exists n, bits = (8 * n)%nat /\ (3 <= n <= 14)%nat).
  { subst bits. destruct Hdf as [-> | ->]; [exists 7%nat | exists 14%nat];
      split; try reflexivity; lia. }
  destruct Hbits as [n [Hbn Hn]].
  assert (Hb56 : (8 * n = 56 \/ 8 * n = 112)%nat)
    by (rewrite <- Hbn; subst bits; destruct Hdf as [-> | ->]; [left | right]; reflexivity).
  assert (Hv : crc_valid msg (8 * n)) by (rewrite <- Hbn; exact Hcrc).
  assert (Hbad : (trailing_crc received bits =? modesChecksum received bits) = false).
  { apply not_true_is_false. intros E. apply residual_0_iff in E.
    revert E. rewrite Hbn. subst received.
    rewrite residual_two_flips by (try assumption; lia).
    apply crc_valid_residual in Hv. rewrite Hv, Z.lxor_0_l.
    apply pair_syndrome_nonzero; [exact Hb56 | lia]. }
  assert (H1117 : ((df =? 11) || (df =? 17)) = true)
    by (destruct Hdf as [-> | ->]; reflexivity).
  assert (Hsingle : fixSingleBitErrors received bits = (-1, received)).
  { rewrite Hbn. apply fixSingleBitErrors_two_flips; try assumption; lia. }
  assert (Hdouble : fixTwoBitsErrors received bits
                    = (Z.lor (Z.of_nat j) (Z.shiftl (Z.of_nat i) 8), msg)).
  { rewrite Hbn. apply fixTwoBitsErrors_repairs; try assumption; lia. }
  assert (Hpos : (Z.lor (Z.of_nat j) (Z.shiftl (Z.of_nat i) 8) =? -1) = false).
  { apply Z.eqb_neq.
    assert (0 <= Z.lor (Z.of_nat j) (Z.shiftl (Z.of_nat i) 8)); [|lia].
    apply Z.lor_nonneg. split; [lia|]. apply Z.shiftl_nonneg. lia. }
  assert (Hrepair :
    decode_repair true ag received df bits (trailing_crc received bits)
      (trailing_crc received bits =? modesChecksum received bits)
    = if ag && (df =? 17)
      then (Z.lor (Z.of_nat j) (Z.shiftl (Z.of_nat i) 8), msg,
            modesChecksum msg bits, true)
      else (-1, received, trailing_crc received bits, false)).
  { unfold decode_repair. rewrite Hbad, H1117. cbn [negb andb].
    rewrite Hsingle. change (-1 =? -1) with true. cbn [negb].
    destruct (ag && (df =? 17)); [|reflexivity].
    rewrite Hdouble, Hpos. reflexivity. }
  assert (Hdfr : Z.shiftr (received !!! 0%nat) 3 = df).
  { subst received df.
    rewrite flip_bit_keeps_df by (try rewrite length_flip_bit; lia).
    apply flip_bit_keeps_df; lia. }
  subst r. unfold decodeModesMessage. cbv zeta.
  rewrite (take_ge received)
    by (subst received; rewrite !length_flip_bit; unfold MODES_LONG_MSG_BYTES; lia).
  rewrite Hdfr. fold bits. rewrite Hrepair, H1117.
  destruct (ag && (df =? 17));
    cbn [fst snd mm_msg mm_errorbit mm_crcok mm_crc andb].
  - rewrite Hpos. auto.
  - auto.
Qed.

Lemma decodeModesMessage_two_flipped_bits_witness :
  let r := decodeModesMessage atan2_stub true true 1000 icao_cache_init mm_zero
             (flip_bit (flip_bit frame_klm 37) 90) in
  snd r = icao_cache_init /\ mm_msg (fst r) = frame_klm /\ mm_crcok (fst r) = true.
Proof.
  pose proof (decodeModesMessage_two_flipped_bits atan2_stub true 1000 icao_cache_init
                mm_zero frame_klm 37 90 eq_refl frame_klm_bytes_ok
                (or_intror eq_refl) eq_refl ltac:(lia)
                ltac:(vm_compute; lia)) as H.
  cbv zeta in H. destruct H as [Hc H].
  change (true && (Z.shiftr (frame_klm !!! 0%nat) 3 =? 17)) with true in H.
  cbv iota in H. destruct H as [Hm [Hok _]].
  cbv zeta. auto.
Defined.

(** ** The recency cache and the address parity *)

Lemma lxor_range (a b n : Z) :
  0 <= n -> 0 <= a < 2 ^ n -> 0 <= b < 2 ^ n -> 0 <= Z.lxor a b < 2 ^ n.
Proof.
  intros Hn Ha Hb.
  assert (Hnn : 0 <= Z.lxor a b) by (apply Z.lxor_nonneg; lia).
  split; [exact Hnn|].
  destruct (Z.eq_dec (Z.lxor a b) 0) as [->|Hnz]; [lia|].
  assert (Hlog : Z.log2 (Z.lxor a b) < n).
  { pose proof (Z.log2_lxor a b ltac:(lia) ltac:(lia)) as Hl.
    assert (Z.log2 a < n \/ a = 0)
      by (destruct (Z.eq_dec a 0) as [->|]; [right; reflexivity
                                            | left; apply Z.log2_lt_pow2; lia]).
    assert (Z.log2 b < n \/ b = 0)
      by (destruct (Z.eq_dec b 0) as [->|]; [right; reflexivity
                                            | left; apply Z.log2_lt_pow2; lia]).
    destruct H as [H| ->], H0 as [H0| ->];
      try (change (Z.log2 0) with 0 in Hl); try lia.
    - rewrite Z.lxor_0_r in *. lia.
    - rewrite Z.lxor_0_l in *. lia.
    - rewrite Z.lxor_0_l in Hnz. contradiction. }
  apply Z.log2_lt_pow2 in Hlog; lia.
Qed.

Lemma table_entry_range (i : nat) : 0 <= modes_checksum_table !!! i < 2 ^ 24.
Proof.
  assert (H : table_entries_24bit = true) by (vm_compute; reflexivity).
  unfold table_entries_24bit in H. rewrite forallb_forall in H.
  destruct (Nat.lt_ge_cases i (length modes_checksum_table)) as [Hlt|Hge].
  - apply (Forall_lookup_total_1 (fun x => 0 <= x < 2 ^ 24) modes_checksum_table i);
      [|exact Hlt].
    apply List.Forall_forall. intros x Hin.
    apply H in Hin. apply andb_true_iff in Hin. destruct Hin as [H1 H2].
    apply Z.leb_le in H1. apply Z.ltb_lt in H2. lia.
  - rewrite list_lookup_total_alt, lookup_ge_None_2 by exact Hge.
    vm_compute. split; [discriminate | reflexivity].
Qed.

Lemma xor_fold_range (g : nat -> Z) (l : list nat) (c : Z) :
  (forall j, 0 <= g j < 2 ^ 24) -> 0 <= c < 2 ^ 24 ->
  0 <= xor_fold g l c < 2 ^ 24.
Proof.
  intros Hg. revert c. induction l as [|j l IH]; intros c Hc; [exact Hc|].
  unfold xor_fold in *. simpl. apply IH. apply lxor_range; [lia | exact Hc | apply Hg].
Qed.

(** The checksum is a 24-bit number. *)
Lemma modesChecksum_range (msg : list Z) (bits : nat) :
  0 <= modesChecksum msg bits < 2 ^ 24.
Proof.
  rewrite modesChecksum_xor_fold. apply xor_fold_range; [|lia].
  intros j. unfold contrib. destruct (bit_of msg j); [apply table_entry_range | lia].
Qed.

Lemma testbit_255 (i : Z) : 0 <= i -> Z.testbit 0xff i = (i <? 8).
Proof.
  intros Hi. change 0xff with (Z.ones 8).
  destruct (Z.ltb_spec i 8).
  - apply Z.ones_spec_low. lia.
  - apply Z.ones_spec_high. lia.
Qed.

Lemma testbit_24bit_high (c i : Z) : 0 <= c < 2 ^ 24 -> 24 <= i -> Z.testbit c i = false.
Proof.
  intros Hc Hi.
  destruct (Z.eq_dec c 0) as [->|Hnz]; [apply Z.bits_0|].
  apply Z.bits_above_log2; [lia|].
  assert (Z.log2 c < 24) by (apply Z.log2_lt_pow2; lia). lia.
Qed.

(** The address [bruteForceAP] reassembles from the three last bytes,
    each XORed with its byte of the checksum, is the stored 24 bits XOR
    the checksum. *)
Lemma ap_address (b1 b2 b3 crc : Z) :
  0 <= b1 < 256 -> 0 <= b2 < 256 -> 0 <= b3 < 256 -> 0 <= crc < 2 ^ 24 ->
  let x1 := Z.lxor b1 (Z.land (Z.shiftr crc 16) 0xff) in
  let x2 := Z.lxor b2 (Z.land (Z.shiftr crc 8) 0xff) in
  let x3 := Z.lxor b3 (Z.land crc 0xff) in
  Z.lor (Z.lor x3 (Z.shiftl x2 8)) (Z.shiftl x1 16) = Z.lxor (crc3 b1 b2 b3) crc /\
  crc3 x1 x2 x3 = Z.lxor (crc3 b1 b2 b3) crc.
Proof.
  intros H1 H2 H3 Hc x1 x2 x3.
  assert (Hbits : forall i, 0 <= i ->
            Z.testbit (crc3 x1 x2 x3) i = Z.testbit (Z.lxor (crc3 b1 b2 b3) crc) i).
  { intros i Hi. subst x1 x2 x3. unfold crc3.
    rewrite !Z.lxor_spec, !Z.lor_spec, !Z.lxor_spec.
    destruct (Z.ltb_spec i 8) as [L8|G8].
    - rewrite !Z.shiftl_spec_low by lia. cbn [orb].
      rewrite Z.land_spec, testbit_255 by lia.
      destruct (Z.ltb_spec i 8); [|lia]. rewrite andb_true_r. reflexivity.
    - rewrite (testbit_byte_high b3 i) by lia.
      rewrite (Z.land_spec crc), (testbit_255 i) by lia.
      destruct (Z.ltb_spec i 8); [lia|]. rewrite andb_false_r. cbn [xorb].
      rewrite !orb_false_r.
      destruct (Z.ltb_spec i 16) as [L16|G16].
      + rewrite (Z.shiftl_spec_low _ 16) by lia.
        rewrite (Z.shiftl_spec_low b1 16) by lia. cbn [orb].
        rewrite !Z.shiftl_spec by lia.
        rewrite Z.lxor_spec, Z.land_spec, Z.shiftr_spec, testbit_255 by lia.
        replace (i - 8 + 8) with i by lia.
        destruct (Z.ltb_spec (i - 8) 8); [|lia]. rewrite andb_true_r. reflexivity.
      + rewrite !Z.shiftl_spec by lia.
        rewrite !Z.lxor_spec, !Z.land_spec, !Z.shiftr_spec, !testbit_255 by lia.
        rewrite (testbit_byte_high b2 (i - 8)) by lia.
        destruct (Z.ltb_spec (i - 8) 8); [lia|]. rewrite andb_false_r. cbn [xorb].
        rewrite !orb_false_r.
        replace (i - 16 + 16) with i by lia.
        destruct (Z.ltb_spec (i - 16) 8) as [L24|G24].
        * rewrite andb_true_r. reflexivity.
        * rewrite andb_false_r, xorb_false_r.
          rewrite (testbit_byte_high b1 (i - 16)) by lia.
          rewrite (testbit_24bit_high crc i) by lia. reflexivity. }
  assert (E : crc3 x1 x2 x3 = Z.lxor (crc3 b1 b2 b3) crc)
    by (apply Z.bits_inj'; exact Hbits).
  split; [|exact E].
  rewrite <- E. unfold crc3.
  rewrite (Z.lor_comm x3), Z.lor_comm, Z.lor_assoc. reflexivity.
Qed.

(** [bruteForceAP] on a format it handles: the address it looks up is the
    XOR of the stored 24 bits with the checksum. *)
Lemma bruteForceAP_address (msg : list Z) (msgtype : Z) (n : nat)
    (now : Z) (icao_cache : list Z) :
  bytes_ok msg -> (3 <= n <= length msg)%nat ->
  ((msgtype =? 0) || (msgtype =? 4) || (msgtype =? 5) || (msgtype =? 16) ||
   (msgtype =? 20) || (msgtype =? 21) || (msgtype =? 24)) = true ->
  let addr := residual msg (8 * n) in
  match bruteForceAP msg msgtype (8 * n) now icao_cache with
  | Some (a1, a2, a3) =>
      ICAOAddressWasRecentlySeen addr now icao_cache = true /\ crc3 a1 a2 a3 = addr
  | None => ICAOAddressWasRecentlySeen addr now icao_cache = false
  end.
Proof.
  intros Hok Hn Hty addr. unfold bruteForceAP. rewrite Hty. cbv zeta.
  assert (Hdiv : (8 * n / 8 = n)%nat) by (rewrite Nat.mul_comm, Nat.div_mul; lia).
  rewrite Hdiv.
  rewrite modesChecksum_take.
  set (crc := modesChecksum msg (8 * n)).
  assert (Hlen : length (take n msg) = n) by (rewrite length_take; lia).
  set (aux0 := take n msg).
  set (aux1 := <[(n - 1)%nat := _]> aux0).
  set (aux2 := <[(n - 1 - 1)%nat := _]> aux1).
  set (aux3 := <[(n - 1 - 2)%nat := _]> aux2).
  assert (L1 : length aux1 = n) by (subst aux1; rewrite length_insert; exact Hlen).
  assert (L2 : length aux2 = n) by (subst aux2; rewrite length_insert; exact L1).
  assert (E3 : aux3 !!! (n - 1)%nat = Z.lxor (msg !!! (n - 1)%nat) (Z.land crc 0xff)).
  { subst aux3 aux2 aux1 aux0.
    rewrite !list_lookup_total_insert_ne by lia.
    rewrite list_lookup_total_insert_eq by lia.
    rewrite lookup_total_take_lt by lia. reflexivity. }
  assert (E2 : aux3 !!! (n - 1 - 1)%nat
               = Z.lxor (msg !!! (n - 2)%nat) (Z.land (Z.shiftr crc 8) 0xff)).
  { subst aux3 aux2.
    rewrite list_lookup_total_insert_ne by lia.
    rewrite list_lookup_total_insert_eq by lia.
    subst aux1 aux0. rewrite list_lookup_total_insert_ne by lia.
    rewrite lookup_total_take_lt by lia.
    replace (n - 1 - 1)%nat with (n - 2)%nat by lia. reflexivity. }
  assert (E1 : aux3 !!! (n - 1 - 2)%nat
               = Z.lxor (msg !!! (n - 3)%nat) (Z.land (Z.shiftr crc 16) 0xff)).
  { subst aux3.
    rewrite list_lookup_total_insert_eq by lia.
    subst aux2 aux1 aux0. rewrite !list_lookup_total_insert_ne by lia.
    rewrite lookup_total_take_lt by lia.
    replace (n - 1 - 2)%nat with (n - 3)%nat by lia. reflexivity. }
  rewrite E1, E2, E3.
  pose proof (ap_address (msg !!! (n - 3)%nat) (msg !!! (n - 2)%nat) (msg !!! (n - 1)%nat) crc
                (bytes_ok_lookup_any _ _ Hok) (bytes_ok_lookup_any _ _ Hok)
                (bytes_ok_lookup_any _ _ Hok) (modesChecksum_range msg (8 * n))) as Hap.
  cbv zeta in Hap. destruct Hap as [Ha Hb].
  assert (Haddr : Z.lxor (crc3 (msg !!! (n - 3)%nat) (msg !!! (n - 2)%nat)
                               (msg !!! (n - 1)%nat)) crc = addr).
  { subst addr crc. unfold residual, trailing_crc, crc3. rewrite Hdiv. reflexivity. }
  rewrite Ha, Haddr.
  destruct (ICAOAddressWasRecentlySeen addr now icao_cache); [|reflexivity].
  split; [reflexivity|]. rewrite Hb. exact Haddr.
Qed.

(** Outside DF11 and DF17 the repair step does nothing. *)
Lemma decode_repair_other fe ag (msg : list Z) msgtype msgbits crc0 crcok0 :
  ((msgtype =? 11) || (msgtype =? 17)) = false ->
  decode_repair fe ag msg msgtype msgbits crc0 crcok0 = (-1, msg, crc0, crcok0).
Proof.
  intros H. unfold decode_repair. rewrite H, andb_false_r. reflexivity.
Qed.

Lemma address_parity_format_not_11_17 (df : Z) :
  address_parity_format df = true -> ((df =? 11) || (df =? 17)) = false.
Proof.
  unfold address_parity_format. intros H.
  repeat (apply orb_true_iff in H; destruct H as [H|H]);
    apply Z.eqb_eq in H; subst; reflexivity.
Qed.

Lemma lookup_empty_cache (addr now : Z) :
  ICAOAddressWasRecentlySeen addr now icao_cache_init = false.
Proof.
  unfold ICAOAddressWasRecentlySeen, icao_cache_init. cbv zeta.
  pose proof (ICAOCacheHashAddress_range addr) as Hh.
  rewrite lookup_total_replicate_2 by lia. reflexivity.
Qed.

Lemma bruteForceAP_empty_cache (msg : list Z) (msgtype : Z) (msgbits : nat) (now : Z) :
  bruteForceAP msg msgtype msgbits now icao_cache_init = None.
Proof.
  unfold bruteForceAP.
  match goal with |- (if ?c then _ else _) = _ => destruct c end; [|reflexivity].
  cbv zeta. rewrite lookup_empty_cache. reflexivity.
Qed.

Lemma bruteForceAP_other_format (msg : list Z) (msgtype : Z) (msgbits : nat)
    (now : Z) (icao_cache : list Z) :
  address_parity_format msgtype = false ->
  bruteForceAP msg msgtype msgbits now icao_cache = None.
Proof.
  intros H. unfold bruteForceAP. unfold address_parity_format in H. rewrite H.
  reflexivity.
Qed.

(** X7: a frame of DF 0, 4, 5, 16, 20, 21 or 24 carries no plain CRC: the
    decoder XORs the 24 bits the frame ends with and the checksum it
    computes, takes the result for the sender's address, and accepts the
    frame exactly when the recency cache knows this address.  The address
    fields then hold it; the bytes are never repaired and the cache is
    never written. *)
Theorem decodeModesMessage_address_parity :
  forall atan2 fe ag now cache mm0 (msg0 : list Z),
    length msg0 = MODES_LONG_MSG_BYTES -> bytes_ok msg0 ->
    address_parity_format (Z.shiftr (msg0 !!! 0%nat) 3) = true ->
    let r := decodeModesMessage atan2 fe ag now cache mm0 msg0 in
    let mm := fst r in
    let addr := Z.lxor (trailing_crc msg0 (mm_msgbits mm))
                       (modesChecksum msg0 (mm_msgbits mm)) in
    mm_crcok mm = ICAOAddressWasRecentlySeen addr now cache /\
    (mm_crcok mm = true -> mm_addr mm = addr) /\
    mm_msg mm = msg0 /\ mm_errorbit mm = -1 /\ snd r = cache.
Proof.
  intros atan2 fe ag now cache mm0 msg0 Hlen Hok Hap r mm addr.
  subst addr mm r. unfold mm_addr.
  unfold decodeModesMessage. cbv zeta.
  rewrite (take_ge msg0) by (rewrite Hlen; lia).
  set (df := Z.shiftr (msg0 !!! 0%nat) 3) in *.
  assert (H1117 := address_parity_format_not_11_17 df Hap).
  rewrite decode_repair_other by exact H1117.
  rewrite H1117.
  cbn [fst snd mm_msg mm_errorbit mm_crcok mm_msgbits mm_aa1 mm_aa2 mm_aa3 andb].
  assert (Hbits : exists n, modesMessageLenByType df = (8 * n)%nat /\
                            (3 <= n <= length msg0)%nat).
  { unfold MODES_LONG_MSG_BYTES in Hlen. rewrite Hlen.
    destruct (modesMessageLenByType_cases df) as [-> | ->];
      [exists 14%nat | exists 7%nat]; split; try reflexivity; lia. }
  destruct Hbits as [n [Hbn Hn]]. rewrite Hbn.
  pose proof (bruteForceAP_address msg0 df n now cache Hok Hn Hap) as H.
  cbv zeta in H. unfold residual in H.
  destruct (bruteForceAP msg0 df (8 * n) now cache) as [[[a1 a2] a3]|].
  - destruct H as [Hseen Haddr]. rewrite Hseen.
    repeat split; try reflexivity. intros _. exact Haddr.
  - rewrite H. repeat split; try reflexivity. discriminate.
Qed.

Lemma decodeModesMessage_address_parity_witness :
  let seeded := addRecentlySeenICAOAddr 0xABCDEF 1000 icao_cache_init in
  let mm := fst (decodeModesMessage atan2_stub true false 1010 seeded mm_zero frame_df4) in
  mm_crcok mm = true /\ mm_addr mm = 0xABCDEF.
Proof.
  pose proof (decodeModesMessage_address_parity atan2_stub true false 1010
                (addRecentlySeenICAOAddr 0xABCDEF 1000 icao_cache_init) mm_zero frame_df4
                eq_refl ltac:(unfold bytes_ok, frame_df4; repeat constructor; lia)
                eq_refl) as H.
  cbv zeta in H. destruct H as [Hok [Haddr _]].
  assert (Hseen : mm_crcok (fst (decodeModesMessage atan2_stub true false 1010
                     (addRecentlySeenICAOAddr 0xABCDEF 1000 icao_cache_init)
                     mm_zero frame_df4)) = true)
    by (rewrite Hok; vm_compute; reflexivity).
  cbv zeta. split; [exact Hseen|].
  rewrite (Haddr Hseen). vm_compute. reflexivity.
Defined.

(** X8: frames that are never accepted.  Decoded against the cache of a
    fresh start, no frame other than DF11 and DF17 is accepted; and
    whatever the cache holds, a frame of a format outside DF 0, 4, 5, 11,
    16, 17, 20, 21 and 24 is rejected, even when its CRC is valid.  The
    cache is left untouched in both cases. *)
Theorem decodeModesMessage_never_accepted :
  forall atan2 fe ag now mm0 (msg0 : list Z),
    let df := Z.shiftr (take MODES_LONG_MSG_BYTES msg0 !!! 0%nat) 3 in
    (df <> 11 /\ df <> 17 ->
     let r := decodeModesMessage atan2 fe ag now icao_cache_init mm0 msg0 in
     mm_crcok (fst r) = false /\ snd r = icao_cache_init) /\
    (df <> 11 /\ df <> 17 /\ address_parity_format df = false ->
     forall cache,
       let r := decodeModesMessage atan2 fe ag now cache mm0 msg0 in
       mm_crcok (fst r) = false /\ snd r = cache).
Proof.
  intros atan2 fe ag now mm0 msg0 df.
  assert (Hnot : df <> 11 /\ df <> 17 -> ((df =? 11) || (df =? 17)) = false).
  { intros [H1 H2]. apply Z.eqb_neq in H1, H2. rewrite H1, H2. reflexivity. }
  split.
  - intros Hdf r. subst r. specialize (Hnot Hdf).
    unfold decodeModesMessage. cbv zeta. fold df.
    rewrite decode_repair_other by exact Hnot.
    rewrite Hnot, bruteForceAP_empty_cache.
    cbn [fst snd mm_crcok andb]. split; reflexivity.
  - intros [H1 [H2 Hap]] cache r. subst r. specialize (Hnot (conj H1 H2)).
    unfold decodeModesMessage. cbv zeta. fold df.
    rewrite decode_repair_other by exact Hnot.
    rewrite Hnot, bruteForceAP_other_format by exact Hap.
    cbn [fst snd mm_crcok andb]. split; reflexivity.
Qed.

(** X9: a lookup after an insertion.  When the two addresses hash to the
    same slot, the lookup answers true exactly when they are the same
    non-zero address and at most 60 seconds have passed since the stored
    (32-bit) timestamp: an insertion evicts what the slot held.  When they
    hash elsewhere, the insertion does not change the answer. *)
Theorem ICAOAddressWasRecentlySeen_after_insert :
  forall (addr other t0 now : Z) (icao_cache : list Z),
    length icao_cache = 2048%nat ->
    ICAOAddressWasRecentlySeen addr now (addRecentlySeenICAOAddr other t0 icao_cache)
    = if ICAOCacheHashAddress addr =? ICAOCacheHashAddress other
      then negb (other =? 0) && (other =? addr) && (now - u32 t0 <=? MODES_ICAO_CACHE_TTL)
      else ICAOAddressWasRecentlySeen addr now icao_cache.
Proof.
  intros addr other t0 now icao_cache Hlen.
  unfold ICAOAddressWasRecentlySeen. cbv zeta.
  fold (slot_addr addr (addRecentlySeenICAOAddr other t0 icao_cache)).
  fold (slot_time addr (addRecentlySeenICAOAddr other t0 icao_cache)).
  fold (slot_addr addr icao_cache). fold (slot_time addr icao_cache).
  destruct (Z.eqb_spec (ICAOCacheHashAddress addr) (ICAOCacheHashAddress other)) as [E|E].
  - assert (Ha : slot_addr addr (addRecentlySeenICAOAddr other t0 icao_cache) = other).
    { unfold slot_addr. rewrite E. apply slot_addr_insert. exact Hlen. }
    assert (Ht : slot_time addr (addRecentlySeenICAOAddr other t0 icao_cache) = u32 t0).
    { unfold slot_time. rewrite E. apply slot_time_insert. exact Hlen. }
    rewrite Ha, Ht. reflexivity.
  - destruct (slot_insert_other addr other t0 icao_cache
                ltac:(intros H; apply E; symmetry; exact H)) as [Ha Ht].
    rewrite Ha, Ht. reflexivity.
Qed.

Lemma ICAOAddressWasRecentlySeen_after_insert_witness :
  ICAOAddressWasRecentlySeen 0xABCDEF 1061
    (addRecentlySeenICAOAddr 0xABCDEF 1000 icao_cache_init) = false.
Proof.
  rewrite (ICAOAddressWasRecentlySeen_after_insert 0xABCDEF 0xABCDEF 1000 1061
             icao_cache_init eq_refl).
  vm_compute. reflexivity.
Defined.

(** ** The arithmetic of the CPR resolver *)

(** X10: for a positive modulus, [cprModFunction] is the mathematical
    modulo: the result lies in [0, b) and differs from [a] by a multiple
    of [b], also for a negative [a] (where C's [%] alone would give a
    negative remainder). *)
Theorem cprModFunction_modulo (a b : Z) :
  0 < b -> cprModFunction a b = a mod b /\ 0 <= cprModFunction a b < b.
Proof.
  intros Hb.
  assert (E : cprModFunction a b = a mod b).
  { unfold cprModFunction. cbv zeta.
    destruct (Z_le_gt_dec 0 a) as [Ha|Ha].
    - rewrite Z.rem_mod_nonneg by lia.
      pose proof (Z.mod_pos_bound a b Hb) as Hm.
      destruct (Z.ltb_spec (a mod b) 0); [lia | reflexivity].
    - assert (Hx : exists x, a = - x /\ 0 < x) by (exists (- a); lia).
      destruct Hx as [x [-> Hx]].
      rewrite Z.rem_mod by lia.
      rewrite Z.sgn_neg, Z.abs_neq, (Z.abs_eq b), Z.opp_involutive by lia.
      pose proof (Z.mod_pos_bound x b Hb) as Hm.
      destruct (Z.eq_dec (x mod b) 0) as [Hz|Hnz].
      + rewrite Hz. change (-1 * 0 <? 0) with false. cbv iota.
        rewrite Z_mod_zero_opp_full by exact Hz. reflexivity.
      + destruct (Z.ltb_spec (-1 * (x mod b)) 0); [|lia].
        rewrite Z_mod_nz_opp_full by exact Hnz. lia. }
  split; [exact E|]. rewrite E. apply Z.mod_pos_bound. exact Hb.
Qed.

Lemma cprModFunction_modulo_witness :
  cprModFunction (-7) 60 = 53.
Proof.
  rewrite (proj1 (cprModFunction_modulo (-7) 60 ltac:(lia))). reflexivity.
Defined.

Lemma cprNLFunction_range (lat : float) : 1 <= cprNLFunction lat <= 59.
Proof.
  unfold cprNLFunction. cbv zeta.
  generalize (if (lat <? 0)%float then (- lat)%float else lat). intros x.
  repeat match goal with
         | |- context [if PrimFloat.ltb x ?c then _ else _] =>
             destruct (PrimFloat.ltb x c); [lia|]
         end.
  lia.
Qed.

(** X11: the number of longitude zones is between 1 and 59 whatever the
    latitude (also for a NaN): the division by [cprNFunction] in
    [cprDlonFunction] never divides by zero, and the modulus [decodeCPR]
    hands to [cprModFunction] is positive. *)
Theorem cprNFunction_positive (lat : float) (isodd : Z) :
  1 <= cprNLFunction lat <= 59 /\
  1 <= cprNFunction lat isodd /\
  (0 <= isodd -> cprNFunction lat isodd <= 59).
Proof.
  pose proof (cprNLFunction_range lat) as H.
  split; [exact H|]. unfold cprNFunction. cbv zeta.
  destruct (Z.ltb_spec (cprNLFunction lat - isodd) 1); split; lia.
Qed.

(** ** The list of tracked aircraft *)

Lemma decodeCPR_identity (a : aircraft) :
  ac_addr (decodeCPR a) = ac_addr a /\ ac_hexaddr (decodeCPR a) = ac_hexaddr a /\
  ac_seen (decodeCPR a) = ac_seen a /\ ac_messages (decodeCPR a) = ac_messages a.
Proof.
  unfold decodeCPR. cbv zeta.
  destruct (negb (cprNLFunction (cpr_rlat0 a) =? cprNLFunction (cpr_rlat1 a)));
    [repeat split; reflexivity|].
  destruct (ac_even_cprtime a >? ac_odd_cprtime a); repeat split; reflexivity.
Qed.

Lemma receive_position_identity (now_ms : Z) (mm : modesMessage) (a : aircraft) :
  ac_addr (receive_position now_ms mm a) = ac_addr a /\
  ac_hexaddr (receive_position now_ms mm a) = ac_hexaddr a /\
  ac_seen (receive_position now_ms mm a) = ac_seen a /\
  ac_messages (receive_position now_ms mm a) = ac_messages a.
Proof.
  unfold receive_position. cbv zeta.
  set (s := store_cpr now_ms mm (set_altitude a (mm_altitude mm))).
  assert (Hs : ac_addr s = ac_addr a /\ ac_hexaddr s = ac_hexaddr a /\
               ac_seen s = ac_seen a /\ ac_messages s = ac_messages a).
  { subst s. unfold store_cpr. destruct (negb (mm_fflag mm =? 0)); repeat split; reflexivity. }
  destruct (Z.abs (ac_even_cprtime s - ac_odd_cprtime s) <=? 10000); [|exact Hs].
  destruct (decodeCPR_identity s) as [H1 [H2 [H3 H4]]].
  rewrite H1, H2, H3, H4. exact Hs.
Qed.

Lemma receive_update_heard (now now_ms : Z) (mm : modesMessage) (a : aircraft) :
  heard now a (receive_update now now_ms mm a).
Proof.
  unfold heard, receive_update. cbv zeta.
  destruct ((mm_msgtype mm =? 0) || (mm_msgtype mm =? 4) || (mm_msgtype mm =? 20));
    [repeat split; reflexivity|].
  destruct (mm_msgtype mm =? 17); [|repeat split; reflexivity].
  destruct ((1 <=? mm_metype mm) && (mm_metype mm <=? 4)); [repeat split; reflexivity|].
  destruct ((9 <=? mm_metype mm) && (mm_metype mm <=? 18)).
  - destruct (receive_position_identity now_ms mm (set_seen a now)) as [H1 [H2 [H3 H4]]].
    rewrite H1, H2, H3, H4. repeat split; reflexivity.
  - destruct (mm_metype mm =? 19); [|repeat split; reflexivity].
    destruct ((mm_mesub mm =? 1) || (mm_mesub mm =? 2)); repeat split; reflexivity.
Qed.

Lemma find_some (addr : Z) (l : list aircraft) (i : nat) (a : aircraft) :
  interactiveFindAircraft addr l = Some (i, a) ->
  l !! i = Some a /\ ac_addr a = addr /\
  forall k b, (k < i)%nat -> l !! k = Some b -> ac_addr b <> addr.
Proof.
  revert i. induction l as [|x l IH]; intros i H; [discriminate|].
  cbn [interactiveFindAircraft] in H.
  destruct (Z.eqb_spec (ac_addr x) addr) as [E|E].
  - injection H as <- <-. repeat split; try assumption. intros k b Hk. lia.
  - destruct (interactiveFindAircraft addr l) as [[i' a']|]; [|discriminate].
    injection H as <- <-. destruct (IH i' eq_refl) as [H1 [H2 H3]].
    repeat split; try assumption.
    intros k b Hk Hb. destruct k as [|k]; cbn in Hb.
    + injection Hb as <-. exact E.
    + apply (H3 k b); [lia | exact Hb].
Qed.

Lemma find_none (addr : Z) (l : list aircraft) :
  interactiveFindAircraft addr l = None <-> ~ In addr (addresses l).
Proof.
  induction l as [|x l IH]; [cbn; tauto|].
  cbn [interactiveFindAircraft addresses List.map In].
  destruct (Z.eqb_spec (ac_addr x) addr) as [E|E].
  - split; [discriminate | intros H; exfalso; apply H; left; exact E].
  - destruct (interactiveFindAircraft addr l) as [[i' a']|].
    + split; [discriminate|]. intros H. exfalso.
      assert (Hn : ~ In addr (addresses l)) by (intros Hin; apply H; right; exact Hin).
      apply IH in Hn. discriminate.
    + split; [|reflexivity]. intros _ [H|H]; [contradiction|].
      apply (proj1 IH eq_refl). exact H.
Qed.

(** Replacing the record a lookup designates by one with the same
    address: the lookup of that address finds the new record, the
    lookups of the other addresses are unchanged. *)
Lemma tracked_insert (addr : Z) (l : list aircraft) (i : nat) (a a' : aircraft) :
  interactiveFindAircraft addr l = Some (i, a) -> ac_addr a' = addr ->
  tracked addr (<[i := a']> l) = Some a' /\
  (forall other, other <> addr -> tracked other (<[i := a']> l) = tracked other l) /\
  addresses (<[i := a']> l) = addresses l.
Proof.
  revert i. induction l as [|x l IH]; intros i H Ha'; [discriminate|].
  cbn [interactiveFindAircraft] in H.
  destruct (Z.eqb_spec (ac_addr x) addr) as [E|E].
  - injection H as <- <-.
    change (<[0%nat := a']> (x :: l)) with (a' :: l). unfold tracked, addresses.
    cbn [interactiveFindAircraft List.map].
    rewrite Ha', Z.eqb_refl. cbn [option_map snd]. repeat split.
    + intros other Hne.
      destruct (Z.eqb_spec addr other) as [E'|E']; [congruence|].
      rewrite E. destruct (Z.eqb_spec addr other); [contradiction|]. reflexivity.
    + rewrite E. reflexivity.
  - destruct (interactiveFindAircraft addr l) as [[i' a0]|] eqn:Hf; [|discriminate].
    injection H as <- <-. destruct (IH i' eq_refl Ha') as [H1 [H2 H3]].
    change (<[S i' := a']> (x :: l)) with (x :: <[i' := a']> l).
    unfold tracked, addresses in *. cbn [interactiveFindAircraft List.map].
    destruct (Z.eqb_spec (ac_addr x) addr); [contradiction|].
    repeat split.
    + destruct (interactiveFindAircraft addr (<[i':=a']> l)) as [[k b]|];
        [cbn in *; exact H1 | discriminate].
    + intros other Hne. specialize (H2 other Hne).
      destruct (ac_addr x =? other); [reflexivity|].
      destruct (interactiveFindAircraft other (<[i':=a']> l)) as [[k b]|],
               (interactiveFindAircraft other l) as [[k' b']|]; cbn in *; congruence.
    + rewrite H3. reflexivity.
Qed.

Lemma tracked_cons_other (addr : Z) (x : aircraft) (l : list aircraft) :
  ac_addr x <> addr -> tracked addr (x :: l) = tracked addr l.
Proof.
  intros H. unfold tracked. cbn [interactiveFindAircraft].
  apply Z.eqb_neq in H. rewrite H.
  destruct (interactiveFindAircraft addr l) as [[k b]|]; reflexivity.
Qed.

(** The list after [interactiveReceiveData] accepted a message. *)
Lemma interactiveReceiveData_list (check_crc : bool) (now now_ms : Z)
    (aircrafts : list aircraft) (mm : modesMessage) :
  check_crc && negb (mm_crcok mm) = false ->
  let r := interactiveReceiveData check_crc now now_ms aircrafts mm in
  let a0 := match interactiveFindAircraft (mm_addr mm) aircrafts with
            | Some (_, a) => a
            | None => interactiveCreateAircraft (mm_addr mm) now
            end in
  let a' := receive_update now now_ms mm a0 in
  fst r = Some a' /\
  tracked (mm_addr mm) (snd r) = Some a' /\
  (forall other, other <> mm_addr mm -> tracked other (snd r) = tracked other aircrafts) /\
  addresses (snd r) = match interactiveFindAircraft (mm_addr mm) aircrafts with
                      | Some _ => addresses aircrafts
                      | None => mm_addr mm :: addresses aircrafts
                      end.
Proof.
  intros Hcrc r a0 a'. subst r a' a0.
  unfold interactiveReceiveData. rewrite Hcrc. fold (mm_addr mm). cbv zeta.
  destruct (interactiveFindAircraft (mm_addr mm) aircrafts) as [[i a]|] eqn:Hf.
  - cbn [fst snd].
    destruct (receive_update_heard now now_ms mm a) as [Haddr _].
    destruct (find_some _ _ _ _ Hf) as [_ [Ha _]].
    destruct (tracked_insert (mm_addr mm) aircrafts i a (receive_update now now_ms mm a)
                Hf ltac:(rewrite Haddr; exact Ha)) as [H1 [H2 H3]].
    repeat split; assumption.
  - cbn [fst snd].
    match goal with
    | |- context [<[0%nat := ?v]> (?h :: ?t)] =>
        change (<[0%nat := v]> (h :: t)) with (v :: t)
    end.
    set (a' := receive_update now now_ms mm (interactiveCreateAircraft (mm_addr mm) now)).
    assert (Haddr : ac_addr a' = mm_addr mm).
    { subst a'.
      destruct (receive_update_heard now now_ms mm
                  (interactiveCreateAircraft (mm_addr mm) now)) as [H _].
      rewrite H. reflexivity. }
    repeat split.
    + unfold tracked. cbn [interactiveFindAircraft]. rewrite Haddr, Z.eqb_refl. reflexivity.
    + intros other Hne. apply tracked_cons_other. rewrite Haddr.
      intros E. apply Hne. symmetry. exact E.
    + unfold addresses. cbn [List.map]. rewrite Haddr. reflexivity.
Qed.

(** X12: a message that passes the CRC check is booked on the record of
    its address: the record returned is the one a lookup of the address
    then finds; it carries that address, [seen] is the current time, and
    its message count is one more than before (one, for an aircraft not
    tracked yet). *)
Theorem interactiveReceiveData_books_message :
  forall (check_crc : bool) (now now_ms : Z) (aircrafts : list aircraft)
         (mm : modesMessage),
    check_crc && negb (mm_crcok mm) = false ->
    let r := interactiveReceiveData check_crc now now_ms aircrafts mm in
    exists a' : aircraft,
      fst r = Some a' /\ tracked (mm_addr mm) (snd r) = Some a' /\
      ac_addr a' = mm_addr mm /\ ac_seen a' = now /\
      ac_messages a' = match tracked (mm_addr mm) aircrafts with
                       | Some a => ac_messages a + 1
                       | None => 1
                       end.
Proof.
  intros check_crc now now_ms aircrafts mm Hcrc r.
  destruct (interactiveReceiveData_list check_crc now now_ms aircrafts mm Hcrc)
    as [H1 [H2 _]].
  fold r in H1, H2.
  eexists. split; [exact H1|]. split; [exact H2|].
  unfold tracked.
  destruct (interactiveFindAircraft (mm_addr mm) aircrafts) as [[i a]|] eqn:Hf.
  - destruct (receive_update_heard now now_ms mm a) as [Ha [_ [Hs Hm]]].
    destruct (find_some _ _ _ _ Hf) as [_ [Hadr _]].
    cbn [option_map snd]. rewrite Ha, Hs, Hm. auto.
  - destruct (receive_update_heard now now_ms mm
                (interactiveCreateAircraft (mm_addr mm) now)) as [Ha [_ [Hs Hm]]].
    cbn [option_map]. rewrite Ha, Hs, Hm. auto.
Qed.

Lemma interactiveReceiveData_books_message_witness :
  exists a' : aircraft,
    tracked 0x4840D6 (snd (interactiveReceiveData true 1000 1000000 one_aircraft mm_klm))
    = Some a' /\ ac_messages a' = 1.
Proof.
  destruct (interactiveReceiveData_books_message true 1000 1000000 one_aircraft mm_klm
              eq_refl) as [a' [_ [H2 [_ [_ H5]]]]].
  exists a'. split; [exact H2 | exact H5].
Defined.

(** X13: a message changes no record but the one of its address, and the
    list keeps one record per address: a lookup of any other address
    gives what it gave before, the list grows by one record exactly when
    the address was not tracked, and addresses that were pairwise
    distinct stay so.  A message that fails the CRC check changes
    nothing. *)
Theorem interactiveReceiveData_other_records :
  forall (check_crc : bool) (now now_ms : Z) (aircrafts : list aircraft)
         (mm : modesMessage),
    let r := interactiveReceiveData check_crc now now_ms aircrafts mm in
    (forall other, other <> mm_addr mm -> tracked other (snd r) = tracked other aircrafts) /\
    length (snd r) = (length aircrafts +
                      match fst r, tracked (mm_addr mm) aircrafts with
                      | Some _, None => 1
                      | _, _ => 0
                      end)%nat /\
    (NoDup (addresses aircrafts) -> NoDup (addresses (snd r))) /\
    (check_crc && negb (mm_crcok mm) = true -> r = (None, aircrafts)).
Proof.
  intros check_crc now now_ms aircrafts mm r.
  destruct (check_crc && negb (mm_crcok mm)) eqn:Hcrc.
  - assert (Hr : r = (None, aircrafts))
      by (subst r; unfold interactiveReceiveData; rewrite Hcrc; reflexivity).
    rewrite Hr. cbn [fst snd]. repeat split; auto.
  - destruct (interactiveReceiveData_list check_crc now now_ms aircrafts mm Hcrc)
      as [H1 [_ [H3 H4]]].
    fold r in H1, H3, H4.
    assert (Hlen : length (snd r) = length (addresses (snd r)))
      by (unfold addresses; rewrite length_map; reflexivity).
    rewrite H1. unfold tracked.
    repeat split.
    + exact H3.
    + rewrite Hlen, H4.
      destruct (interactiveFindAircraft (mm_addr mm) aircrafts) as [[i a]|];
        unfold addresses; cbn [option_map length]; rewrite length_map; lia.
    + intros Hnd. rewrite H4.
      destruct (interactiveFindAircraft (mm_addr mm) aircrafts) as [[i a]|] eqn:Hf;
        [exact Hnd|].
      constructor; [|exact Hnd]. rewrite list_elem_of_In. apply find_none. exact Hf.
    + discriminate.
Qed.

Lemma addresses_filter_subset (f : aircraft -> bool) (l : list aircraft) (addr : Z) :
  In addr (addresses (List.filter f l)) -> In addr (addresses l).
Proof.
  unfold addresses. rewrite !in_map_iff. intros [a [Ha Hin]].
  apply filter_In in Hin. exists a. tauto.
Qed.

Lemma NoDup_addresses_filter (f : aircraft -> bool) (l : list aircraft) :
  NoDup (addresses l) -> NoDup (addresses (List.filter f l)).
Proof.
  induction l as [|x l IH]; intros Hnd; [exact Hnd|].
  cbn [addresses List.map] in Hnd. apply NoDup_cons in Hnd. destruct Hnd as [Hx Hnd].
  cbn [List.filter]. destruct (f x); [|apply IH; exact Hnd].
  cbn [addresses List.map]. apply NoDup_cons. split; [|apply IH; exact Hnd].
  rewrite list_elem_of_In in *. intros Hin. apply Hx.
  apply (addresses_filter_subset f). exact Hin.
Qed.

(** On a list with one record per address: a lookup after a filter finds
    the record found before, if the filter keeps it. *)
Lemma tracked_filter (f : aircraft -> bool) (l : list aircraft) (addr : Z) :
  NoDup (addresses l) ->
  tracked addr (List.filter f l)
  = match tracked addr l with
    | Some a => if f a then Some a else None
    | None => None
    end.
Proof.
  induction l as [|x l IH]; intros Hnd; [reflexivity|].
  cbn [addresses List.map] in Hnd. apply NoDup_cons in Hnd. destruct Hnd as [Hx Hnd].
  specialize (IH Hnd).
  destruct (Z.eqb_spec (ac_addr x) addr) as [E|E].
  - assert (Hhead : tracked addr (x :: l) = Some x).
    { unfold tracked. cbn [interactiveFindAircraft].
      apply Z.eqb_eq in E. rewrite E. reflexivity. }
    rewrite Hhead. cbn [List.filter]. destruct (f x).
    + unfold tracked. cbn [interactiveFindAircraft].
      apply Z.eqb_eq in E. rewrite E. reflexivity.
    + assert (Hnone : interactiveFindAircraft addr (List.filter f l) = None).
      { apply find_none. intros Hin. apply Hx. rewrite list_elem_of_In, E.
        apply (addresses_filter_subset f). exact Hin. }
      unfold tracked. rewrite Hnone. reflexivity.
  - rewrite (tracked_cons_other addr x l E). cbn [List.filter].
    destruct (f x); [rewrite tracked_cons_other by exact E|]; exact IH.
Qed.

(** X14: [interactiveRemoveStaleAircrafts] on a list with one record per
    address: afterwards a lookup finds exactly the records found before
    whose last message is at most [interactive_ttl] seconds old, each one
    unchanged, and there is still one record per address. *)
Theorem interactiveRemoveStaleAircrafts_lookup :
  forall (interactive_ttl now : Z) (aircrafts : list aircraft),
    NoDup (addresses aircrafts) ->
    let kept := interactiveRemoveStaleAircrafts interactive_ttl now aircrafts in
    NoDup (addresses kept) /\
    forall addr : Z,
      tracked addr kept
      = match tracked addr aircrafts with
        | Some a => if now - ac_seen a >? interactive_ttl then None else Some a
        | None => None
        end.
Proof.
  intros ttl now l Hnd kept. subst kept. unfold interactiveRemoveStaleAircrafts.
  split; [apply NoDup_addresses_filter; exact Hnd|].
  intros addr. rewrite tracked_filter by exact Hnd.
  destruct (tracked addr l) as [a|]; [|reflexivity].
  destruct (now - ac_seen a >? ttl); reflexivity.
Qed.

Lemma two_aircraft_NoDup : NoDup (addresses two_aircraft).
Proof.
  apply NoDup_ListNoDup. repeat constructor; cbn; intuition discriminate.
Qed.

Lemma interactiveRemoveStaleAircrafts_lookup_witness :
  tracked 0xABCDEF (interactiveRemoveStaleAircrafts 60 1010 two_aircraft) = None /\
  tracked 0x4840D6 (interactiveRemoveStaleAircrafts 60 1010 two_aircraft)
  = Some (interactiveCreateAircraft 0x4840D6 1000).
Proof.
  destruct (interactiveRemoveStaleAircrafts_lookup 60 1010 two_aircraft
              two_aircraft_NoDup) as [_ H].
  split; rewrite H; reflexivity.
Defined.

(** X15: reception, then clean-up.  An aircraft heard at time [now] is
    still tracked, with the record of that reception, after a clean-up
    at time [t] when [t - now] is at most [interactive_ttl], and is no
    longer tracked after a later one. *)
Theorem heard_aircraft_survives_ttl :
  forall (check_crc : bool) (interactive_ttl now now_ms t : Z)
         (aircrafts : list aircraft) (mm : modesMessage),
    NoDup (addresses aircrafts) ->
    check_crc && negb (mm_crcok mm) = false ->
    let r := interactiveReceiveData check_crc now now_ms aircrafts mm in
    tracked (mm_addr mm) (interactiveRemoveStaleAircrafts interactive_ttl t (snd r))
    = if t - now >? interactive_ttl then None else fst r.
Proof.
  intros check_crc ttl now now_ms t l mm Hnd Hcrc r.
  destruct (interactiveReceiveData_list check_crc now now_ms l mm Hcrc)
    as [H1 [H2 [_ H4]]].
  fold r in H1, H2, H4.
  assert (Hnd' : NoDup (addresses (snd r))).
  { rewrite H4. destruct (interactiveFindAircraft (mm_addr mm) l) as [[i a]|] eqn:Hf;
      [exact Hnd|].
    constructor; [|exact Hnd]. rewrite list_elem_of_In. apply find_none. exact Hf. }
  unfold interactiveRemoveStaleAircrafts.
  rewrite tracked_filter by exact Hnd'. rewrite H2, H1.
  match goal with
  | |- context [ac_seen (receive_update now now_ms mm ?a0)] =>
      destruct (receive_update_heard now now_ms mm a0) as [_ [_ [Hs _]]]; rewrite Hs
  end.
  destruct (t - now >? ttl); reflexivity.
Qed.

Lemma heard_aircraft_survives_ttl_witness :
  tracked 0x4840D6
    (interactiveRemoveStaleAircrafts 60 1060
       (snd (interactiveReceiveData true 1000 1000000 one_aircraft mm_klm)))
  = fst (interactiveReceiveData true 1000 1000000 one_aircraft mm_klm).
Proof.
  assert (Hnd : NoDup (addresses one_aircraft))
    by (apply NoDup_ListNoDup; repeat constructor; cbn; intuition).
  exact (heard_aircraft_survives_ttl true 60 1000 1000000 1060 one_aircraft mm_klm
           Hnd eq_refl).
Defined.

(** ** Raw records, written and read back *)

Lemma hexDigitVal_hex_digit_upper (v : Z) :
  0 <= v < 16 -> hexDigitVal (hex_digit_upper v) = v.
Proof.
  intros Hv.
  apply Z.eqb_eq.
  apply (forall_below_spec 16 (fun v => hexDigitVal (hex_digit_upper v) =? v));
    [vm_compute; reflexivity | exact Hv].
Qed.

Lemma byte_of_nibbles (b : Z) :
  0 <= b < 256 ->
  Z.lor (Z.shiftl (hexDigitVal (hex_digit_upper (Z.shiftr b 4))) 4)
        (hexDigitVal (hex_digit_upper (Z.land b 15))) = b /\
  (hexDigitVal (hex_digit_upper (Z.shiftr b 4)) =? -1) = false /\
  (hexDigitVal (hex_digit_upper (Z.land b 15)) =? -1) = false.
Proof.
  intros Hb.
  pose proof (forall_below_spec 256
    (fun b => (Z.lor (Z.shiftl (hexDigitVal (hex_digit_upper (Z.shiftr b 4))) 4)
                     (hexDigitVal (hex_digit_upper (Z.land b 15))) =? b)
              && negb (hexDigitVal (hex_digit_upper (Z.shiftr b 4)) =? -1)
              && negb (hexDigitVal (hex_digit_upper (Z.land b 15)) =? -1))
    ltac:(vm_compute; reflexivity) b Hb) as H.
  cbv beta in H.
  apply andb_true_iff in H. destruct H as [H H3].
  apply andb_true_iff in H. destruct H as [H1 H2].
  apply Z.eqb_eq in H1. apply negb_true_iff in H2, H3. auto.
Qed.

Lemma length_flat_map_sprintf (bytes : list Z) :
  length (flat_map sprintf_02X bytes) = (2 * length bytes)%nat.
Proof.
  induction bytes as [|b bytes IH]; [reflexivity|].
  cbn [flat_map sprintf_02X app length]. rewrite IH. lia.
Qed.

(** The conversion loop on the digits of [done ++ rest], entered at the
    first digit of [rest]: it stores the bytes of [rest]. *)
Lemma hexToBin_loop_digits (tail : list Z) (rest : list Z) :
  forall (done : list Z) (fuel : nat) (msg : list Z),
    bytes_ok rest -> (length rest <= fuel)%nat ->
    (length done + length rest <= length msg)%nat ->
    hexToBin_loop (flat_map sprintf_02X (done ++ rest) ++ tail)
      (2 * length (done ++ rest)) fuel (2 * length done) msg
    = take (length done) msg ++ rest ++ drop (length done + length rest) msg.
Proof.
  induction rest as [|b rest IH]; intros done fuel msg Hok Hfuel Hlen.
  - rewrite app_nil_r, Nat.add_0_r. cbn [app].
    rewrite take_drop.
    destruct fuel as [|fuel]; [reflexivity|].
    cbn [hexToBin_loop]. rewrite Nat.ltb_irrefl. reflexivity.
  - destruct fuel as [|fuel]; [cbn in Hfuel; lia|].
    cbn [length] in Hfuel, Hlen.
    apply Forall_cons in Hok. destruct Hok as [Hb Hok].
    cbn [hexToBin_loop].
    replace (2 * length done <? 2 * length (done ++ b :: rest))%nat with true
      by (symmetry; apply Nat.ltb_lt; rewrite length_app; cbn [length]; lia).
    assert (Hhi : (flat_map sprintf_02X (done ++ b :: rest) ++ tail) !!! (2 * length done)%nat
                  = hex_digit_upper (Z.shiftr b 4)).
    { rewrite flat_map_app, <- app_assoc.
      rewrite lookup_total_app_r by (rewrite length_flat_map_sprintf; lia).
      rewrite length_flat_map_sprintf, Nat.sub_diag. reflexivity. }
    assert (Hlo : (flat_map sprintf_02X (done ++ b :: rest) ++ tail)
                    !!! (2 * length done + 1)%nat
                  = hex_digit_upper (Z.land b 15)).
    { rewrite flat_map_app, <- app_assoc.
      rewrite lookup_total_app_r by (rewrite length_flat_map_sprintf; lia).
      rewrite length_flat_map_sprintf.
      replace (2 * length done + 1 - 2 * length done)%nat with 1%nat by lia.
      reflexivity. }
    rewrite Hhi, Hlo.
    destruct (byte_of_nibbles b Hb) as [Hval [H1 H2]].
    rewrite H1, H2, Hval. cbn [orb].
    replace (2 * length done / 2)%nat with (length done)
      by (rewrite Nat.mul_comm, Nat.div_mul; lia).
    replace (done ++ b :: rest) with ((done ++ [b]) ++ rest)
      by (rewrite <- app_assoc; reflexivity).
    replace (2 * length done + 2)%nat with (2 * length (done ++ [b]))%nat
      by (rewrite length_app; cbn [length]; lia).
    rewrite IH; [| exact Hok | lia
                 | rewrite length_insert, length_app; cbn [length]; lia].
    rewrite length_app. cbn [length].
    rewrite drop_insert_lt by lia.
    replace (length done + 1)%nat with (S (length done)) by lia.
    rewrite (take_S_r _ _ b)
      by (apply list_lookup_insert_eq; lia).
    rewrite take_insert_ge by lia.
    rewrite <- app_assoc. cbn [app].
    replace (S (length done) + length rest)%nat with (length done + S (length rest))%nat
      by lia.
    reflexivity.
Qed.

Lemma trim_right_newline (s : list Z) (c : Z) :
  isspace c = false -> trim_right (s ++ [c; 10]) = s ++ [c].
Proof.
  intros Hc. unfold trim_right. rewrite rev_app_distr.
  change (rev [c; 10] ++ rev s) with (10 :: c :: rev s).
  cbn [skip_spaces]. change (isspace 10) with true. cbv iota. rewrite Hc.
  cbn [rev]. rewrite rev_involutive. reflexivity.
Qed.

Lemma raw_output_line_read_back (mm : modesMessage) (buf : list Z) :
  let n := (mm_msgbits mm / 8)%nat in
  bytes_ok (mm_msg mm) -> (n <= MODES_LONG_MSG_BYTES)%nat ->
  (n <= length (mm_msg mm))%nat -> (n <= length buf)%nat ->
  hexToBin (raw_output_line mm) buf = (0, take n (mm_msg mm) ++ drop n buf) /\
  well_formed_line (raw_output_line mm) = true.
Proof.
  intros n Hok Hn Hlen Hbuf. unfold MODES_LONG_MSG_BYTES in Hn.
  set (bytes := take n (mm_msg mm)).
  assert (Hbl : length bytes = n) by (subst bytes; rewrite length_take; lia).
  assert (Hbok : bytes_ok bytes) by (subst bytes; apply Forall_take; exact Hok).
  set (digits := flat_map sprintf_02X bytes).
  assert (Hdl : length digits = (2 * n)%nat)
    by (subst digits; rewrite length_flat_map_sprintf, Hbl; reflexivity).
  assert (Hnosp : forall c, In c digits -> isspace c = false /\ (hexDigitVal c =? -1) = false).
  { intros c Hc. subst digits. apply in_flat_map in Hc. destruct Hc as [b [Hb Hc]].
    assert (Hbr : 0 <= b < 256).
    { unfold bytes_ok in Hbok. rewrite List.Forall_forall in Hbok. apply Hbok. exact Hb. }
    assert (Hall : forall_below 256 (fun b =>
              forallb (fun c => negb (isspace c) && negb (hexDigitVal c =? -1))
                      (sprintf_02X b)) = true) by (vm_compute; reflexivity).
    pose proof (forall_below_spec _ _ Hall b Hbr) as Hb'. cbv beta in Hb'.
    rewrite forallb_forall in Hb'. specialize (Hb' c Hc).
    apply andb_true_iff in Hb'. destruct Hb' as [H1 H2].
    apply negb_true_iff in H1, H2. auto. }
  assert (Htrim : skip_spaces (trim_right (raw_output_line mm)) = 42 :: digits ++ [59]).
  { unfold raw_output_line. fold n. fold bytes. fold digits.
    change ([42] ++ digits ++ [59; 10]) with ((42 :: digits) ++ [59; 10]).
    rewrite trim_right_newline by reflexivity. reflexivity. }
  split.
  - unfold hexToBin. rewrite Htrim. cbv zeta.
    assert (Hl : length (42 :: digits ++ [59]) = (2 * n + 2)%nat)
      by (cbn [length]; rewrite length_app, Hdl; cbn [length]; lia).
    rewrite Hl.
    replace (2 * n + 2 <? 2)%nat with false by (symmetry; apply Nat.ltb_ge; lia).
    change ((42 :: digits ++ [59]) !!! 0%nat) with 42.
    replace ((42 :: digits ++ [59]) !!! (2 * n + 2 - 1)%nat) with 59.
    2:{ replace (2 * n + 2 - 1)%nat with (S (2 * n)) by lia.
        change ((42 :: digits ++ [59]) !!! S (2 * n)) with ((digits ++ [59]) !!! (2 * n)%nat).
        rewrite lookup_total_app_r by lia. rewrite Hdl, Nat.sub_diag. reflexivity. }
    change (42 =? 42) with true. change (59 =? 59) with true. cbn [negb orb].
    replace (2 * n + 2 - 2)%nat with (2 * n)%nat by lia.
    replace (MODES_LONG_MSG_BYTES * 2 <? 2 * n)%nat with false
      by (symmetry; apply Nat.ltb_ge; unfold MODES_LONG_MSG_BYTES; lia).
    change (drop 1 (42 :: digits ++ [59])) with (digits ++ [59]).
    f_equal.
    pose proof (hexToBin_loop_digits [59] bytes [] (2 * n) buf Hbok
                  ltac:(lia) ltac:(cbn [length]; lia)) as Hloop.
    cbn [app length] in Hloop. rewrite Hbl in Hloop.
    change (2 * 0)%nat with 0%nat in Hloop. rewrite Nat.add_0_l in Hloop.
    fold digits in Hloop. rewrite Hloop. rewrite take_0. reflexivity.
  - unfold well_formed_line. rewrite Htrim. cbv zeta.
    rewrite rev_app_distr. cbn [rev app].
    rewrite length_rev, Hdl.
    replace (Nat.even (2 * n)) with true
      by (symmetry; apply Nat.even_spec; exists n; reflexivity).
    replace (2 * n <=? 28)%nat with true by (symmetry; apply Nat.leb_le; lia).
    cbn [andb]. apply forallb_forall. intros c Hc.
    apply in_rev in Hc. apply Hnosp in Hc. destruct Hc as [_ Hc]. rewrite Hc. reflexivity.
Qed.

(** X16: a record written by the raw output is read back by [hexToBin]
    as the bytes it was made from: the first [msgbits/8] bytes of the
    buffer become those of the message, the others are left alone. *)
Theorem raw_output_read_back (mm : modesMessage) (buf : list Z) :
  let n := (mm_msgbits mm / 8)%nat in
  bytes_ok (mm_msg mm) -> (n <= MODES_LONG_MSG_BYTES)%nat ->
  (n <= length (mm_msg mm))%nat -> (n <= length buf)%nat ->
  hexToBin (raw_output_line mm) buf = (0, take n (mm_msg mm) ++ drop n buf) /\
  well_formed_line (raw_output_line mm) = true.
Proof. apply raw_output_line_read_back. Qed.

Lemma raw_output_read_back_witness :
  hexToBin (raw_output_line mm_klm) (replicate 14 0) = (0, frame_klm).
Proof.
  destruct (raw_output_read_back mm_klm (replicate 14 0)
              ltac:(vm_compute; repeat constructor; discriminate)
              ltac:(vm_compute; lia) ltac:(vm_compute; lia) ltac:(vm_compute; lia))
    as [H _].
  rewrite H. vm_compute. reflexivity.
Defined.

Lemma hexToBin_loop_bounds (hex : list Z) (l : nat) :
  (l <= 2 * MODES_LONG_MSG_BYTES)%nat ->
  forall (fuel j : nat) (msg : list Z),
    drop MODES_LONG_MSG_BYTES (hexToBin_loop hex l fuel j msg)
    = drop MODES_LONG_MSG_BYTES msg.
Proof.
  intros Hl. unfold MODES_LONG_MSG_BYTES in *.
  induction fuel as [|fuel IH]; intros j msg; [reflexivity|].
  cbn [hexToBin_loop]. cbv zeta.
  destruct (Nat.ltb_spec j l) as [Hj|Hj]; [|reflexivity].
  destruct (_ || _); [reflexivity|].
  rewrite IH. apply drop_insert_lt.
  apply Nat.Div0.div_lt_upper_bound. lia.
Qed.

(** X17: whatever the line holds, [hexToBin] writes inside the 14 bytes
    of the message buffer: what lies behind them is left as it was. *)
Theorem hexToBin_writes_within_buffer (hex msg : list Z) :
  drop MODES_LONG_MSG_BYTES (snd (hexToBin hex msg)) = drop MODES_LONG_MSG_BYTES msg.
Proof.
  unfold hexToBin. cbv zeta.
  destruct (_ || _); [reflexivity|].
  destruct (Nat.ltb_spec (MODES_LONG_MSG_BYTES * 2)
              (length (skip_spaces (trim_right hex)) - 2)) as [Hlong|Hshort];
    [reflexivity|].
  cbn [snd]. apply hexToBin_loop_bounds. lia.
Qed.

Lemma scan_down_spec (cl : list (option client)) (n : nat) :
  -1 <= scan_down cl n < Z.of_nat n /\
  (forall j : nat, (j < n)%nat -> cl !!! j <> None -> Z.of_nat j <= scan_down cl n) /\
  (0 <= scan_down cl n -> cl !!! Z.to_nat (scan_down cl n) <> None).
Proof.
  induction n as [|n IH]; cbn [scan_down].
  - split; [lia|]. split; [intros j Hj; lia | intros H; lia].
  - destruct (cl !!! n) as [c|] eqn:Hc.
    + split; [lia|]. split.
      * intros j Hj _. lia.
      * intros _. rewrite Nat2Z.id, Hc. discriminate.
    + destruct IH as [H1 [H2 H3]]. split; [lia|]. split.
      * intros j Hj Hlive. destruct (Nat.eq_dec j n) as [->|Hne]; [congruence|].
        apply H2; [lia | exact Hlive].
      * exact H3.
Qed.

Lemma table_ok_init : table_ok modesInitNet.
Proof.
  unfold table_ok, modesInitNet, MODES_NET_MAX_FD. cbn [clients maxfd].
  split; [apply length_replicate|]. split; [lia|]. split.
  - intros j Hj. exfalso. apply Hj.
    destruct (Nat.lt_ge_cases j 1024) as [Hlt|Hge].
    + apply lookup_total_replicate_2. exact Hlt.
    + rewrite list_lookup_total_alt, lookup_ge_None_2
        by (rewrite length_replicate; exact Hge).
      reflexivity.
  - intros H. lia.
Qed.

Lemma table_ok_free (fd : Z) (st : net_state) :
  table_ok st -> 0 <= fd -> table_ok (modesFreeClient fd st).
Proof.
  intros [Hlen [Hmax [Hle Hlive]]] Hfd.
  unfold table_ok, modesFreeClient. cbv zeta. cbn [clients maxfd].
  set (cl := <[Z.to_nat fd := None]> (clients st)).
  assert (Hcl : forall j, cl !!! j <> None -> clients st !!! j <> None /\ j <> Z.to_nat fd).
  { intros j Hj. subst cl. destruct (Nat.eq_dec j (Z.to_nat fd)) as [->|Hne].
    - exfalso. apply Hj.
      destruct (Nat.lt_ge_cases (Z.to_nat fd) (length (clients st))) as [Hlt|Hge].
      + apply list_lookup_total_insert_eq. exact Hlt.
      + rewrite list_lookup_total_alt, lookup_ge_None_2
          by (rewrite length_insert; exact Hge).
        reflexivity.
    - rewrite list_lookup_total_insert_ne in Hj by (intros E; apply Hne; symmetry; exact E).
      split; assumption. }
  split; [subst cl; rewrite length_insert; exact Hlen|].
  destruct (Z.eqb_spec (maxfd st) fd) as [E|E].
  - destruct (scan_down_spec cl (Z.to_nat fd)) as [H1 [H2 H3]].
    split; [lia|]. split.
    + intros j Hj. destruct (Hcl j Hj) as [Hold Hne].
      specialize (Hle j Hold). apply H2; [lia | exact Hj].
    + exact H3.
  - split; [lia|]. split.
    + intros j Hj. destruct (Hcl j Hj) as [Hold _]. apply Hle. exact Hold.
    + intros H0. subst cl.
      rewrite list_lookup_total_insert_ne by lia. apply Hlive. exact H0.
Qed.

Lemma table_ok_accept (s : sockets) (service fd : Z) (buf : list Z) (st : net_state) :
  table_ok st -> 0 <= fd < Z.of_nat MODES_NET_MAX_FD ->
  table_ok (accept_client s service fd buf st).
Proof.
  intros [Hlen [Hmax [Hle Hlive]]] Hfd.
  unfold table_ok, accept_client. cbn [clients maxfd].
  split; [rewrite length_insert; exact Hlen|].
  assert (Hin : (Z.to_nat fd < length (clients st))%nat) by (rewrite Hlen; lia).
  destruct (Z.ltb_spec (maxfd st) fd) as [Hlt|Hge].
  - split; [lia|]. split.
    + intros j Hj. destruct (Nat.eq_dec j (Z.to_nat fd)) as [->|Hne]; [lia|].
      rewrite list_lookup_total_insert_ne in Hj by (intros E; apply Hne; symmetry; exact E).
      specialize (Hle j Hj). lia.
    + intros _. rewrite list_lookup_total_insert_eq by exact Hin. discriminate.
  - split; [lia|]. split.
    + intros j Hj. destruct (Nat.eq_dec j (Z.to_nat fd)) as [->|Hne]; [lia|].
      rewrite list_lookup_total_insert_ne in Hj by (intros E; apply Hne; symmetry; exact E).
      apply Hle. exact Hj.
    + intros H0. destruct (Z.eq_dec (maxfd st) fd) as [->|Hne].
      * rewrite list_lookup_total_insert_eq by exact Hin. discriminate.
      * rewrite list_lookup_total_insert_ne by lia. apply Hlive. exact H0.
Qed.

Lemma table_ok_accept_loop (s : sockets) (accepts : list (Z * list Z)) :
  Forall (fun a => -1 <= fst a) accepts ->
  forall (j : nat) (st : net_state),
    table_ok st -> table_ok (modesAcceptClients_loop s accepts j st).
Proof.
  induction 1 as [|[fd buf] rest Hfd Hrest IH]; intros j st Hok.
  - cbn [modesAcceptClients_loop]. destruct (modesNetServices s !! j); exact Hok.
  - cbn [modesAcceptClients_loop]. cbn [fst] in Hfd.
    destruct (modesNetServices s !! j) as [service|]; [|exact Hok].
    destruct (Z.eqb_spec fd (-1)); [apply IH; exact Hok|].
    destruct (Z.leb_spec (Z.of_nat MODES_NET_MAX_FD) fd); [exact Hok|].
    apply IH. apply table_ok_accept; [exact Hok | lia].
Qed.

Lemma filter_none {A : Type} (f : A -> bool) (l : list A) :
  (forall x, In x l -> f x = false) -> List.filter f l = [].
Proof.
  induction l as [|x l IH]; intros H; [reflexivity|].
  cbn [List.filter]. rewrite (H x) by (left; reflexivity).
  apply IH. intros y Hy. apply H. right. exact Hy.
Qed.

(** The loop of [modesSendAllClients] from [j] on, on a consistent table:
    it writes to the subscribed clients from [j] on, frees those whose
    write fell short, and leaves every other entry alone. *)
Lemma modesSendAllClients_loop_spec (service : Z) (msg : list Z) (write_ok : Z -> bool) :
  forall (fuel j : nat) (st : net_state) (written : list (Z * list Z)),
    table_ok st -> (j + fuel = MODES_NET_MAX_FD)%nat ->
    let r := modesSendAllClients_loop service msg write_ok fuel j st written in
    table_ok (fst r) /\
    snd r = written ++ List.map (fun k => (Z.of_nat k, msg))
                         (List.filter (subscribed service st) (seq j fuel)) /\
    (forall k : nat,
       clients (fst r) !!! k
       = if (j <=? k)%nat && subscribed service st k && negb (write_ok (Z.of_nat k))
         then None else clients st !!! k) /\
    net_stat_sbs_connections (fst r) = net_stat_sbs_connections st /\
    net_stat_trajectory_connections (fst r) = net_stat_trajectory_connections st.
Proof.
  induction fuel as [|fuel IH]; intros j st written Hok Hsum r; subst r.
  - cbn [modesSendAllClients_loop fst snd seq List.filter List.map].
    rewrite app_nil_r. split; [exact Hok|]. split; [reflexivity|].
    split; [|split; reflexivity].
    intros k. destruct Hok as [Hlen _].
    destruct (Nat.leb_spec j k) as [Hjk|Hjk]; [|reflexivity].
    cbn [andb]. unfold subscribed.
    rewrite list_lookup_total_alt, lookup_ge_None_2 by lia. reflexivity.
  - cbn [modesSendAllClients_loop].
    destruct (Z.leb_spec (Z.of_nat j) (maxfd st)) as [Hj|Hj].
    + (* The iteration runs. *)
      assert (Hstep : forall st' w',
                table_ok st' ->
                (forall k, k <> j -> clients st' !!! k = clients st !!! k) ->
                clients st' !!! j
                = (if subscribed service st j && negb (write_ok (Z.of_nat j))
                   then None else clients st !!! j) ->
                net_stat_sbs_connections st' = net_stat_sbs_connections st ->
                net_stat_trajectory_connections st' = net_stat_trajectory_connections st ->
                w' = written ++ List.map (fun k => (Z.of_nat k, msg))
                                 (if subscribed service st j then [j] else []) ->
                let r := modesSendAllClients_loop service msg write_ok fuel (S j) st' w' in
                table_ok (fst r) /\
                snd r = written ++ List.map (fun k => (Z.of_nat k, msg))
                          (List.filter (subscribed service st) (seq j (S fuel))) /\
                (forall k : nat,
                   clients (fst r) !!! k
                   = if (j <=? k)%nat && subscribed service st k
                        && negb (write_ok (Z.of_nat k))
                     then None else clients st !!! k) /\
                net_stat_sbs_connections (fst r) = net_stat_sbs_connections st /\
                net_stat_trajectory_connections (fst r)
                = net_stat_trajectory_connections st).
      { intros st' w' Hok' Hother Hat Hs1 Hs2 Hw r.
        destruct (IH (S j) st' w' Hok' ltac:(lia)) as [R1 [R2 [R3 [R4 R5]]]].
        fold r in R1, R2, R3, R4, R5.
        assert (Hsub : forall k, (S j <= k)%nat ->
                         subscribed service st' k = subscribed service st k).
        { intros k Hk. unfold subscribed. rewrite Hother by lia. reflexivity. }
        split; [|split; [|split; [|split]]].
        - exact R1.
        - rewrite R2, Hw. cbn [seq List.filter].
          rewrite <- app_assoc. f_equal.
          rewrite (filter_ext_in (subscribed service st') (subscribed service st))
            by (intros k Hk; apply in_seq in Hk; apply Hsub; lia).
          destruct (subscribed service st j); reflexivity.
        - intros k. rewrite R3.
          destruct (Nat.eq_dec k j) as [->|Hne].
          + replace (S j <=? j)%nat with false by (symmetry; apply Nat.leb_gt; lia).
            rewrite Nat.leb_refl. cbn [andb]. exact Hat.
          + destruct (Nat.leb_spec (S j) k) as [Hk|Hk].
            * replace (j <=? k)%nat with true by (symmetry; apply Nat.leb_le; lia).
              rewrite Hsub by lia. rewrite Hother by exact Hne. reflexivity.
            * replace (j <=? k)%nat with false by (symmetry; apply Nat.leb_gt; lia).
              cbn [andb]. apply Hother. exact Hne.
        - rewrite R4. exact Hs1.
        - rewrite R5. exact Hs2. }
      unfold subscribed in Hstep at 1 2.
      destruct (clients st !!! j) as [c|] eqn:Hc.
      * destruct (c_service c =? service) eqn:Hsvc.
        -- cbv zeta. apply Hstep.
           ++ destruct (write_ok (Z.of_nat j)); [exact Hok|].
              apply table_ok_free; [exact Hok | lia].
           ++ intros k Hne. destruct (write_ok (Z.of_nat j)); [reflexivity|].
              unfold modesFreeClient. cbn [clients]. rewrite Nat2Z.id.
              apply list_lookup_total_insert_ne. intros E. apply Hne. symmetry. exact E.
           ++ cbn [andb]. destruct (write_ok (Z.of_nat j)); cbn [negb]; [exact Hc|].
              unfold modesFreeClient. cbn [clients]. rewrite Nat2Z.id.
              apply list_lookup_total_insert_eq.
              destruct Hok as [Hlen [Hmax _]]. rewrite Hlen. lia.
           ++ destruct (write_ok (Z.of_nat j)); reflexivity.
           ++ destruct (write_ok (Z.of_nat j)); reflexivity.
           ++ reflexivity.
        -- apply Hstep; try reflexivity; try assumption.
           cbn [List.map]. rewrite app_nil_r. reflexivity.
      * apply Hstep; try reflexivity; try assumption.
        cbn [List.map]. rewrite app_nil_r. reflexivity.
    + (* The loop is left: no client sits above [maxfd]. *)
      cbn [fst snd].
      assert (Hnone : forall k, (j <= k)%nat -> clients st !!! k = None).
      { intros k Hk. destruct Hok as [_ [_ [Hle _]]].
        destruct (clients st !!! k) as [c|] eqn:Hc; [|reflexivity].
        exfalso. specialize (Hle k ltac:(rewrite Hc; discriminate)). lia. }
      split; [exact Hok|]. split; [|split; [|split; reflexivity]].
      * rewrite (filter_none (subscribed service st) (seq j (S fuel))).
        -- cbn [List.map]. rewrite app_nil_r. reflexivity.
        -- intros k Hk. apply in_seq in Hk.
           unfold subscribed. rewrite Hnone by lia. reflexivity.
      * intros k. destruct (Nat.leb_spec j k) as [Hk|Hk]; [|reflexivity].
        unfold subscribed. rewrite Hnone by lia. reflexivity.
Qed.

(** X18: the client table stays consistent.  After [modesInitNet], and
    after any accept round, any [modesFreeClient] and any
    [modesSendAllClients] on a consistent table, [maxfd] is -1 when no
    client is connected and the greatest descriptor with a client
    otherwise; so a loop up to [maxfd] visits every client. *)
Theorem client_table_consistent :
  table_ok modesInitNet /\
  (forall s accepts st,
     Forall (fun a => -1 <= fst a) accepts ->
     table_ok st -> table_ok (modesAcceptClients s accepts st)) /\
  (forall fd st, 0 <= fd -> table_ok st -> table_ok (modesFreeClient fd st)) /\
  (forall service msg write_ok st,
     table_ok st -> table_ok (fst (modesSendAllClients service msg write_ok st))).
Proof.
  split; [exact table_ok_init|]. split; [|split].
  - intros s accepts st Hacc Hok. unfold modesAcceptClients.
    apply table_ok_accept_loop; assumption.
  - intros fd st Hfd Hok. apply table_ok_free; assumption.
  - intros service msg write_ok st Hok. unfold modesSendAllClients.
    apply (modesSendAllClients_loop_spec service msg write_ok MODES_NET_MAX_FD 0 st []
             Hok eq_refl).
Qed.

Lemma modesSendAllClients_spec (service : Z) (msg : list Z) (write_ok : Z -> bool)
    (st : net_state) :
  table_ok st ->
  snd (modesSendAllClients service msg write_ok st)
  = List.map (fun k => (Z.of_nat k, msg))
      (List.filter (subscribed service st) (seq 0 MODES_NET_MAX_FD)) /\
  (forall k : nat,
     clients (fst (modesSendAllClients service msg write_ok st)) !!! k
     = if subscribed service st k && negb (write_ok (Z.of_nat k))
       then None else clients st !!! k) /\
  net_stat_sbs_connections (fst (modesSendAllClients service msg write_ok st))
  = net_stat_sbs_connections st /\
  net_stat_trajectory_connections (fst (modesSendAllClients service msg write_ok st))
  = net_stat_trajectory_connections st.
Proof.
  intros Hok. unfold modesSendAllClients.
  destruct (modesSendAllClients_loop_spec service msg write_ok MODES_NET_MAX_FD 0 st []
              Hok eq_refl) as [_ [H2 [H3 [H4 H5]]]].
  split; [rewrite H2; apply app_nil_l|]. split; [|split; assumption].
  intros k. rewrite H3. change (0 <=? k)%nat with true. reflexivity.
Qed.

(** X19: [modesSendAllClients] on a consistent table writes the message
    once to every client of the service, in the order of the
    descriptors, and to no other client; it frees exactly the clients
    whose write fell short and leaves the other entries and the
    connection counters as they were. *)
Theorem modesSendAllClients_delivery :
  forall (service : Z) (msg : list Z) (write_ok : Z -> bool) (st : net_state),
    table_ok st ->
    let r := modesSendAllClients service msg write_ok st in
    snd r = List.map (fun k => (Z.of_nat k, msg))
              (List.filter (subscribed service st) (seq 0 MODES_NET_MAX_FD)) /\
    (forall k : nat,
       clients (fst r) !!! k
       = if subscribed service st k && negb (write_ok (Z.of_nat k))
         then None else clients st !!! k) /\
    net_stat_sbs_connections (fst r) = net_stat_sbs_connections st /\
    net_stat_trajectory_connections (fst r) = net_stat_trajectory_connections st.
Proof.
  intros service msg write_ok st Hok r. subst r.
  apply modesSendAllClients_spec. exact Hok.
Qed.

Lemma table_example_ok : table_ok table_example.
Proof.
  unfold table_example, modesAcceptClients.
  apply table_ok_accept_loop; [|exact table_ok_init].
  repeat constructor; cbn; lia.
Qed.

Lemma modesSendAllClients_delivery_witness :
  let r := modesSendAllClients 3 [42; 59; 10] (fun fd => negb (fd =? 10)) table_example in
  snd r = [(8, [42; 59; 10]); (10, [42; 59; 10])] /\
  clients (fst r) !!! 10%nat = None /\ clients (fst r) !!! 9%nat <> None.
Proof.
  destruct (modesSendAllClients_delivery 3 [42; 59; 10] (fun fd => negb (fd =? 10))
              table_example table_example_ok) as [H1 [H2 _]].
  cbv zeta. split; [rewrite H1; vm_compute; reflexivity|].
  split; rewrite H2; vm_compute; [reflexivity | discriminate].
Defined.

Lemma modesSendRawOutput_eq (s : sockets) (mm : modesMessage) (write_ok : Z -> bool)
    (st : net_state) :
  modesSendRawOutput s mm write_ok st
  = modesSendAllClients (ros s) (raw_output_line mm) write_ok st.
Proof. reflexivity. Qed.

(** X20: the raw output reaches the raw-output clients, and what they
    receive reads back as the message: every write of
    [modesSendRawOutput] goes to a client of the raw output service and
    carries a record from which [hexToBin] restores the message bytes. *)
Theorem modesSendRawOutput_relays_message :
  forall (s : sockets) (mm : modesMessage) (write_ok : Z -> bool) (st : net_state)
         (fd : Z) (line buf : list Z),
    table_ok st -> bytes_ok (mm_msg mm) ->
    let n := (mm_msgbits mm / 8)%nat in
    (n <= MODES_LONG_MSG_BYTES)%nat -> (n <= length (mm_msg mm))%nat ->
    (n <= length buf)%nat ->
    In (fd, line) (snd (modesSendRawOutput s mm write_ok st)) ->
    subscribed (ros s) st (Z.to_nat fd) = true /\
    hexToBin line buf = (0, take n (mm_msg mm) ++ drop n buf).
Proof.
  intros s mm write_ok st fd line buf Hok Hbytes n Hn Hlen Hbuf Hin.
  assert (Hw : In (fd, line)
                 (List.map (fun k => (Z.of_nat k, raw_output_line mm))
                    (List.filter (subscribed (ros s) st) (seq 0 MODES_NET_MAX_FD)))).
  { rewrite modesSendRawOutput_eq in Hin.
    rewrite (proj1 (modesSendAllClients_spec (ros s) (raw_output_line mm) write_ok st Hok))
      in Hin.
    exact Hin. }
  apply in_map_iff in Hw. destruct Hw as [k [E Hk]].
  injection E as <- <-. apply filter_In in Hk. destruct Hk as [_ Hk].
  rewrite Nat2Z.id. split; [exact Hk|].
  apply raw_output_line_read_back; assumption.
Qed.

Lemma modesSendRawOutput_relays_message_witness :
  hexToBin (raw_output_line mm_klm) (replicate 14 0) = (0, frame_klm) /\
  In (8, raw_output_line mm_klm)
     (snd (modesSendRawOutput sockets_example mm_klm (fun _ => true) table_example)).
Proof.
  assert (Hin : In (8, raw_output_line mm_klm)
                  (snd (modesSendRawOutput sockets_example mm_klm (fun _ => true)
                          table_example)))
    by (vm_compute; left; reflexivity).
  split; [|exact Hin].
  destruct (modesSendRawOutput_relays_message sockets_example mm_klm (fun _ => true)
              table_example 8 (raw_output_line mm_klm) (replicate 14 0)
              table_example_ok
              ltac:(vm_compute; repeat constructor; discriminate)
              ltac:(vm_compute; lia) ltac:(vm_compute; lia) ltac:(vm_compute; lia) Hin)
    as [_ H].
  rewrite H. vm_compute. reflexivity.
Defined.

(** ** Framing of the messages read from a client *)

Lemma c_string_app (s t : list Z) :
  ~ In 0 s -> c_string (s ++ 0 :: t) = s.
Proof.
  induction s as [|x s IH]; intros H.
  - reflexivity.
  - cbn [app c_string].
    destruct (Z.eqb_spec x 0) as [E|E]; [exfalso; apply H; left; exact E|].
    rewrite IH; [reflexivity|]. intros Hin. apply H. right. exact Hin.
Qed.

Lemma strstr_byte_found (a b : list Z) (nl : Z) :
  ~ In nl a -> strstr (a ++ nl :: b) [nl] = Some (length a).
Proof.
  induction a as [|x a IH]; intros H.
  - cbn [app strstr is_prefix length]. rewrite Z.eqb_refl. reflexivity.
  - cbn [app strstr is_prefix length].
    destruct (Z.eqb_spec nl x) as [E|E]; [exfalso; apply H; left; symmetry; exact E|].
    cbn [andb]. rewrite IH; [reflexivity|]. intros Hin. apply H. right. exact Hin.
Qed.

Lemma strstr_byte_none (s : list Z) (nl : Z) :
  ~ In nl s -> strstr s [nl] = None.
Proof.
  induction s as [|x s IH]; intros H.
  - reflexivity.
  - cbn [strstr is_prefix].
    destruct (Z.eqb_spec nl x) as [E|E]; [exfalso; apply H; left; symmetry; exact E|].
    cbn [andb]. rewrite IH; [reflexivity|]. intros Hin. apply H. right. exact Hin.
Qed.

(** Storing a terminator right after a prefix of a buffer. *)
Lemma insert_after_prefix (s t : list Z) (x : Z) :
  (0 < length t)%nat -> <[length s := x]> (s ++ t) = s ++ x :: drop 1 t.
Proof.
  intros Ht. rewrite insert_app_r_alt by lia. rewrite Nat.sub_diag.
  destruct t as [|y t]; [cbn in Ht; lia|]. reflexivity.
Qed.

Section Framing.

Variable W : Type.
Variable nl : Z.
Variable handler : client -> W -> bool * W.

(** One read that completes a message: the client buffer holds [pre],
    the read brings [line], the separator and [rest]. *)
Lemma modesReadFromClient_message (reads : list read_result) (c : client) (w : W)
    (pre junk line rest : list Z) :
  nl <> 0 ->
  c_buf c = pre ++ junk -> c_buflen c = length pre ->
  length (c_buf c) = (MODES_CLIENT_BUF_SIZE + 1)%nat ->
  (length pre + length line + 1 + length rest <= MODES_CLIENT_BUF_SIZE)%nat ->
  (forall x, In x (pre ++ line ++ rest) -> x <> 0 /\ x <> nl) ->
  exists (c_msg c_next : client) (junk' : list Z),
    c_string (c_buf c_msg) = pre ++ line /\
    c_fd c_msg = c_fd c /\ c_service c_msg = c_service c /\
    c_buf c_next = rest ++ junk' /\ c_buflen c_next = length rest /\
    length (c_buf c_next) = (MODES_CLIENT_BUF_SIZE + 1)%nat /\
    c_string (c_buf c_next) = rest /\
    c_fd c_next = c_fd c /\ c_service c_next = c_service c /\
    modesReadFromClient W [nl] handler (ReadData (line ++ nl :: rest) :: reads) c w
    = if fst (handler c_msg w) then (c_msg, snd (handler c_msg w), true)
      else modesReadFromClient W [nl] handler reads c_next (snd (handler c_msg w)).
Proof.
  intros Hnl Hbuf Hk Hlen Hfit Hchars.
  unfold MODES_CLIENT_BUF_SIZE in *.
  set (d := line ++ nl :: rest).
  assert (Hd : length d = (length line + 1 + length rest)%nat)
    by (subst d; rewrite length_app; cbn [length]; lia).
  assert (Hjunk : (length junk = 1025 - length pre)%nat)
    by (rewrite Hbuf, length_app in Hlen; lia).
  assert (Hno0 : forall s, (forall x, In x s -> In x (pre ++ line ++ rest)) -> ~ In 0 s).
  { intros s Hs Hin. destruct (Hchars 0 (Hs 0 Hin)) as [H _]. apply H. reflexivity. }
  assert (Hnonl : forall s, (forall x, In x s -> In x (pre ++ line ++ rest)) -> ~ In nl s).
  { intros s Hs Hin. destruct (Hchars nl (Hs nl Hin)) as [_ H]. apply H. reflexivity. }
  (* The buffer after the read and the terminator. *)
  set (tl := drop 1 (drop (length d) junk)).
  set (buf1 := (pre ++ line) ++ nl :: rest ++ 0 :: tl).
  assert (Hbuf1 : <[(length pre + length d)%nat := 0]> (buf_write (c_buf c) (length pre) d)
                  = buf1).
  { unfold buf_write. rewrite Hbuf.
    rewrite take_app_length, drop_app_add'; [|reflexivity].
    replace (pre ++ d ++ drop (length d) junk) with ((pre ++ d) ++ drop (length d) junk)
      by (rewrite <- app_assoc; reflexivity).
    replace (length pre + length d)%nat with (length (pre ++ d))
      by (rewrite length_app; reflexivity).
    rewrite insert_after_prefix by (rewrite length_drop; lia).
    subst buf1 d tl. rewrite <- !app_assoc. cbn [app]. reflexivity. }
  assert (Hlen1 : length buf1 = 1025%nat).
  { subst buf1 tl. rewrite !length_app. cbn [length]. rewrite length_app. cbn [length].
    rewrite !length_drop. lia. }
  (* The message is cut at the separator. *)
  set (buf2 := (pre ++ line) ++ 0 :: rest ++ 0 :: tl).
  assert (Hbuf2 : <[length (pre ++ line) := 0]> buf1 = buf2).
  { subst buf1 buf2. rewrite insert_after_prefix by (cbn [length]; lia). reflexivity. }
  assert (Hstr1 : c_string buf1 = (pre ++ line) ++ nl :: rest).
  { subst buf1.
    replace ((pre ++ line) ++ nl :: rest ++ 0 :: tl)
      with (((pre ++ line) ++ nl :: rest) ++ 0 :: tl)
      by (rewrite <- !app_assoc; reflexivity).
    apply c_string_app. intros Hin.
    apply in_app_or in Hin. destruct Hin as [Hin | [Hin | Hin]].
    - revert Hin. apply Hno0. intros x Hx. rewrite app_assoc. apply in_or_app. left. exact Hx.
    - apply Hnl. exact Hin.
    - revert Hin. apply Hno0. intros x Hx. apply in_or_app. right. apply in_or_app.
      right. exact Hx. }
  assert (Hfind : strstr (c_string buf1) [nl] = Some (length (pre ++ line))).
  { rewrite Hstr1. apply strstr_byte_found. apply Hnonl.
    intros x Hx. rewrite app_assoc. apply in_or_app. left. exact Hx. }
  (* The rest is moved to the head of the buffer. *)
  set (buf3 := rest ++ 0 :: drop (length rest + 1) buf2).
  assert (Hlen2 : length buf2 = 1025%nat).
  { subst buf2 tl. rewrite !length_app. cbn [length]. rewrite length_app. cbn [length].
    rewrite !length_drop. lia. }
  assert (Hbuf3 : <[length rest := 0]>
                    (memmove_head buf2 (length (pre ++ line) + 1) (length rest)) = buf3).
  { unfold memmove_head.
    assert (Hdrop : drop (length (pre ++ line) + 1) buf2 = rest ++ 0 :: tl).
    { subst buf2. rewrite drop_app_add'; [|reflexivity]. reflexivity. }
    rewrite Hdrop, take_app_length.
    rewrite insert_after_prefix by (rewrite length_drop; lia).
    subst buf3. rewrite drop_drop. reflexivity. }
  assert (Hstr2 : c_string buf2 = pre ++ line).
  { subst buf2. apply c_string_app. apply Hno0.
    intros x Hx. rewrite app_assoc. apply in_or_app. left. exact Hx. }
  assert (Hstr3 : c_string buf3 = rest).
  { subst buf3. apply c_string_app. apply Hno0.
    intros x Hx. apply in_or_app. right. apply in_or_app. right. exact Hx. }
  assert (Hlen3 : length buf3 = 1025%nat).
  { unfold buf3. rewrite length_app. cbn [length]. rewrite length_drop, Hlen2. lia. }
  set (c_msg := set_buf (set_buf c buf1 (length pre + length d)) buf2
                  (length pre + length d)).
  set (c_next := set_buf c_msg buf3 (length rest)).
  exists c_msg, c_next, (0 :: drop (length rest + 1) buf2).
  split; [exact Hstr2|]. split; [reflexivity|]. split; [reflexivity|].
  split; [reflexivity|]. split; [reflexivity|].
  split; [exact Hlen3|].
  split; [exact Hstr3|]. split; [reflexivity|]. split; [reflexivity|].
  (* The run of the function. *)
  cbn [modesReadFromClient]. cbv zeta. fold d. unfold MODES_CLIENT_BUF_SIZE.
  rewrite Hk.
  rewrite (take_ge d) by lia.
  replace (length d =? 0)%nat with false by (symmetry; apply Nat.eqb_neq; lia).
  rewrite Hbuf1.
  cbn [scan_messages]. cbn [set_buf c_buf c_buflen c_fd c_service].
  rewrite Hfind, Hbuf2.
  fold c_msg. destruct (handler c_msg w) as [close w'] eqn:Hh. cbn [fst snd].
  destruct close; [reflexivity|].
  cbn [c_msg set_buf c_buf c_buflen c_fd c_service length].
  replace (length pre + length d - (length (pre ++ line) + 1))%nat with (length rest)
    by (rewrite length_app; lia).
  rewrite Hbuf3.
  assert (Hscan : forall fuel,
            scan_messages W [nl] handler fuel
              (set_buf (set_buf (set_buf c buf1 (length pre + length d)) buf2
                          (length pre + length d)) buf3 (length rest)) w' true
            = (c_next, w', true, false)).
  { intros fuel. destruct fuel as [|fuel]; [reflexivity|].
    cbn [scan_messages set_buf c_buf]. rewrite Hstr3.
    rewrite strstr_byte_none; [reflexivity|].
    apply Hnonl. intros x Hx. apply in_or_app. right. apply in_or_app. right. exact Hx. }
  cbn [set_buf c_buf c_buflen c_fd c_service] in Hscan |- *.
  rewrite Hscan.
  cbn [c_next c_msg set_buf c_buflen c_buf c_fd c_service].
  replace (length rest =? 1024)%nat with false by (symmetry; apply Nat.eqb_neq; lia).
  reflexivity.
Qed.

End Framing.

(** X21: framing.  A client buffer holds the unfinished message [pre];
    one read brings [line], the separator byte and [rest] (none of them
    holding the separator or a NUL).  Then the handler is called once, on
    a client whose buffer starts with the C string [pre ++ line]; if it
    asks to close, the client is freed; otherwise reading goes on with
    [rest], and only [rest], kept at the head of the buffer. *)
Theorem modesReadFromClient_frames_message :
  forall (W : Type) (nl : Z) (handler : client -> W -> bool * W)
         (reads : list read_result) (c : client) (w : W)
         (pre junk line rest : list Z),
    nl <> 0 ->
    c_buf c = pre ++ junk -> c_buflen c = length pre ->
    length (c_buf c) = (MODES_CLIENT_BUF_SIZE + 1)%nat ->
    (length pre + length line + 1 + length rest <= MODES_CLIENT_BUF_SIZE)%nat ->
    (forall x, In x (pre ++ line ++ rest) -> x <> 0 /\ x <> nl) ->
    exists (c_msg c_next : client) (junk' : list Z),
      c_string (c_buf c_msg) = pre ++ line /\
      c_fd c_msg = c_fd c /\ c_service c_msg = c_service c /\
      c_buf c_next = rest ++ junk' /\ c_buflen c_next = length rest /\
      length (c_buf c_next) = (MODES_CLIENT_BUF_SIZE + 1)%nat /\
      c_string (c_buf c_next) = rest /\
      c_fd c_next = c_fd c /\ c_service c_next = c_service c /\
      modesReadFromClient W [nl] handler (ReadData (line ++ nl :: rest) :: reads) c w
      = if fst (handler c_msg w) then (c_msg, snd (handler c_msg w), true)
        else modesReadFromClient W [nl] handler reads c_next (snd (handler c_msg w)).
Proof.
  intros W nl handler reads c w pre junk line rest.
  apply modesReadFromClient_message.
Qed.

Lemma modesReadFromClient_frames_message_witness :
  exists (c_msg c_next : client),
    c_string (c_buf c_msg) = cstr "*8D4840D6202CC371C32CE0576098;" /\
    c_string (c_buf c_next) = cstr "*8D48" /\
    modesReadFromClient world [10]
      (raw_in_handler atan2_stub default_config 1000 1000000 (replicate 14 0) mm_zero)
      [ReadData (cstr "*8D4840D6202CC371C32CE0576098;" ++ 10 :: cstr "*8D48"); ReadEAGAIN]
      (client_init 7 1) world_init
    = (c_next,
       snd (raw_in_handler atan2_stub default_config 1000 1000000 (replicate 14 0) mm_zero
              c_msg world_init),
       false).
Proof.
  destruct (modesReadFromClient_frames_message world 10
              (raw_in_handler atan2_stub default_config 1000 1000000 (replicate 14 0) mm_zero)
              [ReadEAGAIN] (client_init 7 1) world_init
              [] (replicate 1025 0) (cstr "*8D4840D6202CC371C32CE0576098;") (cstr "*8D48")
              ltac:(discriminate) eq_refl eq_refl eq_refl
              ltac:(vm_compute; lia)
              ltac:(intros x Hx; vm_compute in Hx;
                    repeat (destruct Hx as [<- | Hx]; [split; discriminate|]);
                    contradiction))
    as [c_msg [c_next [junk' [H1 [_ [_ [_ [_ [_ [H2 [_ [_ H3]]]]]]]]]]]].
  exists c_msg, c_next. split; [exact H1|]. split; [exact H2|].
  rewrite H3. reflexivity.
Defined.

Lemma trim_right_no_space (s : list Z) (c : Z) :
  isspace c = false -> trim_right (s ++ [c]) = s ++ [c].
Proof.
  intros Hc. unfold trim_right. rewrite rev_app_distr.
  change (rev [c] ++ rev s) with (c :: rev s).
  cbn [skip_spaces]. rewrite Hc.
  cbn [rev]. rewrite rev_involutive. reflexivity.
Qed.

(** [hexToBin] sees a line through its trimmed form only. *)
Lemma hexToBin_trimmed (h1 h2 msg : list Z) :
  skip_spaces (trim_right h1) = skip_spaces (trim_right h2) ->
  hexToBin h1 msg = hexToBin h2 msg.
Proof. intros H. unfold hexToBin. rewrite H. reflexivity. Qed.

(** The characters of a raw record before its newline. *)
Lemma raw_output_line_chars (mm : modesMessage) :
  bytes_ok (mm_msg mm) ->
  let record := 42 :: flat_map sprintf_02X (take (mm_msgbits mm / 8) (mm_msg mm)) ++ [59] in
  raw_output_line mm = record ++ [10] /\
  forall x, In x record -> x <> 0 /\ x <> 10.
Proof.
  intros Hok record. split.
  - unfold raw_output_line. subst record. cbn [app]. rewrite <- app_assoc. reflexivity.
  - intros x Hx. subst record. destruct Hx as [<- | Hx]; [split; discriminate|].
    apply in_app_or in Hx. destruct Hx as [Hx | [<- | []]]; [|split; discriminate].
    apply in_flat_map in Hx. destruct Hx as [b [Hb Hx]].
    assert (Hbr : 0 <= b < 256).
    { assert (Hbok : bytes_ok (take (mm_msgbits mm / 8) (mm_msg mm)))
        by (apply Forall_take; exact Hok).
      unfold bytes_ok in Hbok. rewrite List.Forall_forall in Hbok. apply Hbok. exact Hb. }
    assert (Hall : forall_below 256 (fun b =>
              forallb (fun c => negb (c =? 0) && negb (c =? 10)) (sprintf_02X b)) = true)
      by (vm_compute; reflexivity).
    pose proof (forall_below_spec _ _ Hall b Hbr) as Hb'. cbv beta in Hb'.
    rewrite forallb_forall in Hb'. specialize (Hb' x Hx).
    apply andb_true_iff in Hb'. destruct Hb' as [H1 H2].
    apply negb_true_iff in H1, H2. apply Z.eqb_neq in H1, H2. auto.
Qed.

(** X22: a message relayed between two instances.  The record one
    instance writes on its raw output, read in one piece by a client of
    the raw input of another, is decoded there from the bytes of the
    message (its first [msgbits/8] bytes; the bytes behind them are
    whatever the local buffer [msg] held) and handed to
    [useModesMessage]; the client is kept, with an empty buffer. *)
Theorem raw_output_to_raw_input :
  forall atan2 (cfg : config) (now now_ms : Z) (msg : list Z) (mm0 mm : modesMessage)
         (fd service : Z) (w : world),
    bytes_ok (mm_msg mm) ->
    let n := (mm_msgbits mm / 8)%nat in
    (n <= MODES_LONG_MSG_BYTES)%nat -> (n <= length (mm_msg mm))%nat ->
    (n <= length msg)%nat ->
    let r := modesReadFromClient world [10]
               (raw_in_handler atan2 cfg now now_ms msg mm0)
               [ReadData (raw_output_line mm); ReadEAGAIN] (client_init fd service) w in
    let d := decodeModesMessage atan2 (fix_errors cfg) (aggressive cfg) now
               (w_icao_cache w) mm0 (take n (mm_msg mm) ++ drop n msg) in
    snd r = false /\
    c_buflen (fst (fst r)) = 0%nat /\
    snd (fst r) = useModesMessage cfg now now_ms
                    {| w_icao_cache := snd d; w_aircrafts := w_aircrafts w;
                       w_out := w_out w |} (fst d).
Proof.
  intros atan2 cfg now now_ms msg mm0 mm fd service w Hok n Hn Hlen Hmsg r d.
  destruct (raw_output_line_chars mm Hok) as [Hline Hchars]. cbv zeta in Hline, Hchars.
  fold n in Hline, Hchars.
  set (record := 42 :: flat_map sprintf_02X (take n (mm_msg mm)) ++ [59]) in *.
  assert (Hrl : length record = (2 * n + 2)%nat).
  { subst record. cbn [length]. rewrite length_app, length_flat_map_sprintf, length_take.
    cbn [length]. lia. }
  destruct (modesReadFromClient_message world 10
              (raw_in_handler atan2 cfg now now_ms msg mm0)
              [ReadEAGAIN] (client_init fd service) w
              [] (replicate 1025 0) record []
              ltac:(discriminate) eq_refl eq_refl eq_refl
              ltac:(unfold MODES_CLIENT_BUF_SIZE, MODES_LONG_MSG_BYTES in *;
                    cbn [length]; lia)
              ltac:(intros x Hx; cbn [app] in Hx; rewrite app_nil_r in Hx;
                    apply Hchars; exact Hx))
    as [c_msg [c_next [junk' [H1 [_ [_ [_ [H5 [_ [_ [_ [_ Hrun]]]]]]]]]]]].
  cbn [app] in H1.
  assert (Hr : r = (c_next, snd (raw_in_handler atan2 cfg now now_ms msg mm0 c_msg w), false)).
  { subst r. rewrite Hline. rewrite Hrun. reflexivity. }
  rewrite Hr. cbn [fst snd]. split; [reflexivity|]. split; [exact H5|].
  unfold raw_in_handler. cbn [snd]. rewrite H1.
  unfold decodeHexMessage.
  assert (Hbin : hexToBin record msg = (0, take n (mm_msg mm) ++ drop n msg)).
  { transitivity (hexToBin (raw_output_line mm) msg);
      [|exact (proj1 (raw_output_line_read_back mm msg Hok Hn Hlen Hmsg))].
    apply hexToBin_trimmed. rewrite Hline.
    replace (record ++ [10]) with ((42 :: flat_map sprintf_02X (take n (mm_msg mm))) ++ [59; 10])
      by (subst record; cbn [app]; rewrite <- app_assoc; reflexivity).
    rewrite trim_right_newline by reflexivity.
    subst record.
    change (42 :: flat_map sprintf_02X (take n (mm_msg mm)) ++ [59])
      with ((42 :: flat_map sprintf_02X (take n (mm_msg mm))) ++ [59]).
    rewrite trim_right_no_space by reflexivity. reflexivity. }
  rewrite Hbin. subst d.
  destruct (decodeModesMessage atan2 (fix_errors cfg) (aggressive cfg) now
              (w_icao_cache w) mm0 (take n (mm_msg mm) ++ drop n msg)) as [mm' cache'].
  reflexivity.
Qed.

Lemma raw_output_to_raw_input_witness :
  let r := modesReadFromClient world [10]
             (raw_in_handler atan2_stub default_config 1000 1000000 (replicate 14 0) mm_zero)
             [ReadData (raw_output_line mm_klm); ReadEAGAIN] (client_init 7 1) world_init in
  snd r = false /\ c_buflen (fst (fst r)) = 0%nat.
Proof.
  destruct (raw_output_to_raw_input atan2_stub default_config 1000 1000000
              (replicate 14 0) mm_zero mm_klm 7 1 world_init
              ltac:(vm_compute; repeat constructor; discriminate)
              ltac:(vm_compute; lia) ltac:(vm_compute; lia) ltac:(vm_compute; lia))
    as [H1 [H2 _]].
  cbv zeta. split; [exact H1 | exact H2].
Defined.

(** ** Fields of the decoded message *)

Lemma lor_range (a b n : Z) :
  0 <= n -> 0 <= a < 2 ^ n -> 0 <= b < 2 ^ n -> 0 <= Z.lor a b < 2 ^ n.
Proof.
  intros Hn Ha Hb.
  destruct (Z.eq_dec a 0) as [->|Hanz]; [rewrite Z.lor_0_l; exact Hb|].
  destruct (Z.eq_dec b 0) as [->|Hbnz]; [rewrite Z.lor_0_r; exact Ha|].
  assert (Hnn : 0 <= Z.lor a b) by (apply Z.lor_nonneg; lia).
  split; [exact Hnn|].
  destruct (Z.eq_dec (Z.lor a b) 0) as [->|Hnz]; [lia|].
  apply Z.log2_lt_pow2; [lia|].
  rewrite Z.log2_lor by lia.
  assert (Z.log2 a < n) by (apply Z.log2_lt_pow2; lia).
  assert (Z.log2 b < n) by (apply Z.log2_lt_pow2; lia).
  lia.
Qed.

Lemma land_range (a b n : Z) :
  0 <= n -> 0 <= a -> 0 <= b < 2 ^ n -> 0 <= Z.land a b < 2 ^ n.
Proof.
  intros Hn Ha Hb.
  assert (Hnn : 0 <= Z.land a b) by (apply Z.land_nonneg; lia).
  split; [exact Hnn|].
  destruct (Z.eq_dec (Z.land a b) 0) as [->|Hnz]; [lia|].
  destruct (Z.eq_dec b 0) as [->|Hbnz]; [rewrite Z.land_0_r in Hnz; contradiction|].
  apply Z.log2_lt_pow2; [lia|].
  pose proof (Z.log2_land a b Ha ltac:(lia)) as Hl.
  assert (Z.log2 b < n) by (apply Z.log2_lt_pow2; lia).
  lia.
Qed.

Lemma shiftr_range (a s n : Z) :
  0 <= s -> 0 <= a < 2 ^ n -> 0 <= Z.shiftr a s < 2 ^ n.
Proof.
  intros Hs Ha. rewrite Z.shiftr_div_pow2 by lia.
  assert (Hp : 0 < 2 ^ s) by (apply Z.pow_pos_nonneg; lia).
  split; [apply Z.div_pos; lia|].
  apply Z.le_lt_trans with a; [|lia].
  apply Z.div_le_upper_bound; [lia|]. nia.
Qed.

Lemma altitude_ok_steps (n : Z) : 0 <= n < 2 ^ 11 -> altitude_ok (n * 25 - 1000).
Proof.
  intros Hn. change (2 ^ 11) with 2048 in Hn. unfold altitude_ok. split; [lia|].
  replace (n * 25 - 1000 + 1000) with (n * 25) by lia. apply Z.mod_mul. lia.
Qed.

Lemma altitude_ok_0 : altitude_ok 0.
Proof. unfold altitude_ok. split; [lia | reflexivity]. Qed.

Lemma decodeAC13Field_range (msg : list Z) :
  bytes_ok msg ->
  altitude_ok (fst (decodeAC13Field msg)) /\
  (snd (decodeAC13Field msg) <> MODES_UNIT_FEET -> fst (decodeAC13Field msg) = 0).
Proof.
  intros Hok. unfold decodeAC13Field. cbv zeta.
  pose proof (bytes_ok_lookup_any msg 2 Hok) as B2.
  pose proof (bytes_ok_lookup_any msg 3 Hok) as B3.
  destruct (Z.land (msg !!! 3%nat) (Z.shiftl 1 6) =? 0); cbn [fst snd];
    [|split; [exact altitude_ok_0 | reflexivity]].
  destruct (negb (Z.land (msg !!! 3%nat) (Z.shiftl 1 4) =? 0)); cbn [fst snd].
  - split; [|intros H; exfalso; apply H; reflexivity].
    apply altitude_ok_steps.
    repeat apply lor_range; try lia.
    + rewrite Z.shiftl_mul_pow2 by lia.
      pose proof (land_range (msg !!! 2%nat) 31 5 ltac:(lia) (proj1 B2) ltac:(split; [lia | reflexivity])).
      change (2 ^ 5) with 32 in *. change (2 ^ 6) with 64. change (2 ^ 11) with 2048. lia.
    + apply shiftr_range; [lia|].
      pose proof (land_range (msg !!! 3%nat) 0x80 8 ltac:(lia) (proj1 B3) ltac:(split; [lia | reflexivity])).
      change (2 ^ 8) with 256 in *. change (2 ^ 11) with 2048. lia.
    + apply shiftr_range; [lia|].
      pose proof (land_range (msg !!! 3%nat) 0x20 8 ltac:(lia) (proj1 B3) ltac:(split; [lia | reflexivity])).
      change (2 ^ 8) with 256 in *. change (2 ^ 11) with 2048. lia.
    + pose proof (land_range (msg !!! 3%nat) 15 4 ltac:(lia) (proj1 B3) ltac:(split; [lia | reflexivity])).
      change (2 ^ 4) with 16 in *. change (2 ^ 11) with 2048. lia.
  - split; [exact altitude_ok_0 | reflexivity].
Qed.

Lemma decodeAC12Field_range (msg : list Z) :
  bytes_ok msg -> altitude_ok (fst (decodeAC12Field msg)).
Proof.
  intros Hok. unfold decodeAC12Field. cbv zeta.
  pose proof (bytes_ok_lookup_any msg 5 Hok) as B5.
  pose proof (bytes_ok_lookup_any msg 6 Hok) as B6.
  destruct (negb (Z.land (msg !!! 5%nat) 1 =? 0)); cbn [fst snd];
    [|exact altitude_ok_0].
  apply altitude_ok_steps. apply lor_range; [lia| |].
  - rewrite Z.shiftl_mul_pow2 by lia.
    rewrite Z.shiftr_div_pow2 by lia.
    assert (0 <= msg !!! 5%nat / 2 ^ 1) by (apply Z.div_pos; lia).
    assert (msg !!! 5%nat / 2 ^ 1 < 128)
      by (apply Z.div_lt_upper_bound; [lia | change (2 ^ 1 * 128) with 256; lia]).
    change (2 ^ 4) with 16. change (2 ^ 11) with 2048. lia.
  - apply shiftr_range; [lia|].
    pose proof (land_range (msg !!! 6%nat) 0xF0 8 ltac:(lia) (proj1 B6) ltac:(split; [lia | reflexivity])).
    change (2 ^ 8) with 256 in *. change (2 ^ 11) with 2048. lia.
Qed.

(** X23: the altitude of a decoded frame.  For DF 0, 4, 16 and 20 and
    for a DF17 airborne position (type 9 to 18), the altitude stored is
    25 * N - 1000 feet for some N below 2048, so between -1000 and 50175.
    What the decoder does not decode comes out as 0: in the 13-bit field
    of DF 0, 4, 16 and 20, a value in metres (M bit of byte 3 set; the
    unit stored is metres) and a value in the Gillham code (M and Q bits
    both clear; the unit stored is feet); in the 12-bit field of DF17, a
    value with the Q bit of byte 5 clear, for which the unit is left as
    it was.  The bits are those of the frame after repair. *)
Theorem decodeModesMessage_altitude :
  forall atan2 fe ag now cache mm0 (msg0 : list Z),
    bytes_ok msg0 ->
    let mm := fst (decodeModesMessage atan2 fe ag now cache mm0 msg0) in
    let m_bit := Z.land (mm_msg mm !!! 3%nat) (Z.shiftl 1 6) in
    let q_bit := Z.land (mm_msg mm !!! 3%nat) (Z.shiftl 1 4) in
    let q_bit12 := Z.land (mm_msg mm !!! 5%nat) 1 in
    (mm_msgtype mm = 0 \/ mm_msgtype mm = 4 \/ mm_msgtype mm = 16 \/ mm_msgtype mm = 20) \/
    (mm_msgtype mm = 17 /\ 9 <= mm_metype mm <= 18) ->
    -1000 <= mm_altitude mm <= 50175 /\ (mm_altitude mm + 1000) mod 25 = 0 /\
    (mm_unit mm <> MODES_UNIT_FEET -> mm_altitude mm = 0) /\
    (mm_msgtype mm <> 17 ->
       (m_bit <> 0 -> mm_altitude mm = 0 /\ mm_unit mm = MODES_UNIT_METERS) /\
       (m_bit = 0 -> mm_unit mm = MODES_UNIT_FEET) /\
       (m_bit = 0 -> q_bit = 0 -> mm_altitude mm = 0)) /\
    (mm_msgtype mm = 17 ->
       (q_bit12 = 0 -> mm_altitude mm = 0 /\ mm_unit mm = mm_unit mm0) /\
       (q_bit12 <> 0 -> mm_unit mm = MODES_UNIT_FEET)).
Proof.
  intros atan2 fe ag now cache mm0 msg0 Hok mm.
  pose proof (bytes_ok_decoded atan2 fe ag now cache mm0 msg0 Hok) as Hm. fold mm in Hm.
  subst mm. revert Hm. unfold decodeModesMessage. cbv zeta.
  destruct (decode_repair _ _ _ _ _ _ _) as [[[e m] c] ok].
  cbn [fst mm_msg mm_msgtype mm_metype mm_altitude mm_unit].
  set (df := Z.shiftr (take MODES_LONG_MSG_BYTES msg0 !!! 0%nat) 3).
  set (me := Z.shiftr (m !!! 4%nat) 3).
  intros Hm Hcase.
  destruct (decodeAC13Field_range m Hm) as [H13 H13u].
  pose proof (decodeAC12Field_range m Hm) as H12.
  unfold altitude_ok in H13, H12.
  destruct Hcase as [Hdf | [Hdf Hme]].
  - assert (E17 : (df =? 17) = false)
      by (apply Z.eqb_neq; destruct Hdf as [-> | [-> | [-> | ->]]]; discriminate).
    assert (E13 : ((df =? 0) || (df =? 4) || (df =? 16) || (df =? 20)) = true)
      by (destruct Hdf as [-> | [-> | [-> | ->]]]; reflexivity).
    rewrite E17, E13. cbn [andb]. cbv iota.
    split; [apply H13|]. split; [apply H13|]. split; [exact H13u|].
    split; [|intros H17; apply Z.eqb_neq in E17; contradiction].
    intros _. unfold decodeAC13Field. cbv zeta.
    destruct (Z.eqb_spec (Z.land (m !!! 3%nat) (Z.shiftl 1 6)) 0) as [EM|EM].
    + destruct (Z.eqb_spec (Z.land (m !!! 3%nat) (Z.shiftl 1 4)) 0) as [EQ|EQ];
        cbn [negb fst snd].
      * split; [intros H; contradiction|]. split; intros; reflexivity.
      * split; [intros H; contradiction|]. split; [intros; reflexivity|].
        intros _ H. contradiction.
    + cbn [fst snd]. split; [intros _; split; reflexivity|].
      split; intros H; contradiction.
  - rewrite Hdf. change (17 =? 17) with true.
    replace ((1 <=? me) && (me <=? 4)) with false
      by (symmetry; apply andb_false_iff; right; apply Z.leb_gt; lia).
    replace (9 <=? me) with true by (symmetry; apply Z.leb_le; lia).
    replace (me <=? 18) with true by (symmetry; apply Z.leb_le; lia).
    cbn [andb negb]. cbv iota.
    split; [apply H12|]. split; [apply H12|].
    unfold decodeAC12Field. cbv zeta.
    destruct (Z.eqb_spec (Z.land (m !!! 5%nat) 1) 0) as [EQ|EQ]; cbn [negb fst snd].
    + split; [intros _; reflexivity|].
      split; [intros H; exfalso; apply H; reflexivity|].
      intros _. split; [intros _; split; reflexivity | intros H; contradiction].
    + split; [intros Hne; exfalso; apply Hne; reflexivity|].
      split; [intros H; exfalso; apply H; reflexivity|].
      intros _. split; [intros H; contradiction | intros _; reflexivity].
Qed.

Lemma decodeModesMessage_altitude_witness :
  let mm := fst (decodeModesMessage atan2_stub true false 1010
                   (addRecentlySeenICAOAddr 0xABCDEF 1000 icao_cache_init)
                   mm_zero frame_df4) in
  let mg := fst (decodeModesMessage atan2_stub true false 1010 icao_cache_init
                   mm_zero frame_df4_gillham) in
  (mm_altitude mm = 36000 /\ -1000 <= mm_altitude mm <= 50175) /\
  (mm_altitude mg = 0 /\ mm_unit mg = MODES_UNIT_FEET).
Proof.
  destruct (decodeModesMessage_altitude atan2_stub true false 1010
              (addRecentlySeenICAOAddr 0xABCDEF 1000 icao_cache_init) mm_zero frame_df4
              ltac:(unfold bytes_ok, frame_df4; repeat constructor; lia)
              ltac:(left; right; left; reflexivity)) as [H _].
  destruct (decodeModesMessage_altitude atan2_stub true false 1010 icao_cache_init
              mm_zero frame_df4_gillham
              ltac:(unfold bytes_ok, frame_df4_gillham; repeat constructor; lia)
              ltac:(left; right; left; reflexivity)) as [_ [_ [_ [G _]]]].
  destruct (G ltac:(vm_compute; discriminate)) as [_ [Gu Ga]].
  cbv zeta. split; [split; [vm_compute; reflexivity | exact H]|].
  split; [apply Ga; vm_compute; reflexivity | apply Gu; vm_compute; reflexivity].
Defined.

(** X24: the CPR coordinates of a DF17 airborne position (type 9 to 18)
    are 17-bit numbers, and the format flag is 0 (even) or 4 (odd): the
    values [decodeCPR] later divides by 131072 are below it. *)
Theorem decodeModesMessage_cpr_fields :
  forall atan2 fe ag now cache mm0 (msg0 : list Z),
    bytes_ok msg0 ->
    let mm := fst (decodeModesMessage atan2 fe ag now cache mm0 msg0) in
    mm_msgtype mm = 17 -> 9 <= mm_metype mm <= 18 ->
    0 <= mm_raw_latitude mm < 131072 /\ 0 <= mm_raw_longitude mm < 131072 /\
    (mm_fflag mm = 0 \/ mm_fflag mm = 4).
Proof.
  intros atan2 fe ag now cache mm0 msg0 Hok mm.
  pose proof (bytes_ok_decoded atan2 fe ag now cache mm0 msg0 Hok) as Hm. fold mm in Hm.
  subst mm. revert Hm. unfold decodeModesMessage. cbv zeta.
  destruct (decode_repair _ _ _ _ _ _ _) as [[[e m] c] ok].
  cbn [fst mm_msg mm_msgtype mm_metype mm_raw_latitude mm_raw_longitude mm_fflag].
  set (df := Z.shiftr (take MODES_LONG_MSG_BYTES msg0 !!! 0%nat) 3).
  set (me := Z.shiftr (m !!! 4%nat) 3).
  intros Hm Hdf Hme.
  rewrite Hdf. change (17 =? 17) with true.
  replace ((1 <=? me) && (me <=? 4)) with false
    by (symmetry; apply andb_false_iff; right; apply Z.leb_gt; lia).
  replace (9 <=? me) with true by (symmetry; apply Z.leb_le; lia).
  replace (me <=? 18) with true by (symmetry; apply Z.leb_le; lia).
  cbn [andb negb]. cbv iota.
  pose proof (bytes_ok_lookup_any m 6 Hm) as B6.
  pose proof (bytes_ok_lookup_any m 7 Hm) as B7.
  pose proof (bytes_ok_lookup_any m 8 Hm) as B8.
  pose proof (bytes_ok_lookup_any m 9 Hm) as B9.
  pose proof (bytes_ok_lookup_any m 10 Hm) as B10.
  change 131072 with (2 ^ 17).
  split; [|split].
  - apply lor_range; [lia | apply lor_range; [lia| |] |].
    + rewrite Z.shiftl_mul_pow2 by lia.
      pose proof (land_range (m !!! 6%nat) 3 2 ltac:(lia) (proj1 B6)
                    ltac:(split; [lia | reflexivity])) as H.
      change (2 ^ 2) with 4 in H. change (2 ^ 15) with 32768.
      change (2 ^ 17) with 131072. lia.
    + rewrite Z.shiftl_mul_pow2 by lia.
      change (2 ^ 7) with 128. change (2 ^ 17) with 131072. lia.
    + pose proof (shiftr_range (m !!! 8%nat) 1 8 ltac:(lia) B8) as H.
      change (2 ^ 8) with 256 in H. change (2 ^ 17) with 131072. lia.
  - apply lor_range; [lia | apply lor_range; [lia| |] |].
    + rewrite Z.shiftl_mul_pow2 by lia.
      pose proof (land_range (m !!! 8%nat) 1 1 ltac:(lia) (proj1 B8)
                    ltac:(split; [lia | reflexivity])) as H.
      change (2 ^ 1) with 2 in H. change (2 ^ 16) with 65536.
      change (2 ^ 17) with 131072. lia.
    + rewrite Z.shiftl_mul_pow2 by lia.
      change (2 ^ 8) with 256. change (2 ^ 17) with 131072. lia.
    + change (2 ^ 17) with 131072. lia.
  - change (Z.shiftl 1 2) with (2 ^ 2). rewrite land_pow2 by lia.
    destruct (Z.testbit (m !!! 6%nat) 2); [right | left]; reflexivity.
Qed.

Lemma decodeModesMessage_cpr_fields_witness :
  0 <= mm_raw_latitude mm_pos_odd < 131072 /\ 0 <= mm_raw_longitude mm_pos_odd < 131072.
Proof.
  destruct (decodeModesMessage_cpr_fields atan2_stub true false 5 icao_cache_init mm_zero
              frame_pos_odd
              ltac:(unfold bytes_ok, frame_pos_odd; repeat constructor; lia)
              eq_refl ltac:(vm_compute; split; discriminate)) as [H1 [H2 _]].
  split; [exact H1 | exact H2].
Defined.

(** X25: a rejected frame leaves no trace.  With the CRC check on, a line
    whose decoded frame is not accepted changes neither the recency
    cache, nor the aircraft list, nor any output: the process is as if
    the line had not been read. *)
Theorem rejected_frame_leaves_no_trace :
  forall atan2 (cfg : config) (now now_ms : Z) (msg : list Z) (mm0 : modesMessage)
         (hex : list Z) (w : world),
    check_crc cfg = true ->
    mm_crcok (fst (decodeHexMessage atan2 cfg now now_ms msg mm0 hex w)) = false ->
    snd (decodeHexMessage atan2 cfg now now_ms msg mm0 hex w) = w.
Proof.
  intros atan2 cfg now now_ms msg mm0 hex w Hcheck.
  unfold decodeHexMessage.
  destruct (hexToBin hex msg) as [z m].
  pose proof (decode_cache atan2 (fix_errors cfg) (aggressive cfg) now
                (w_icao_cache w) mm0 m) as Hcache.
  cbv zeta in Hcache.
  destruct (decodeModesMessage atan2 (fix_errors cfg) (aggressive cfg) now
              (w_icao_cache w) mm0 m) as [mm cache'].
  cbn [fst snd] in Hcache |- *. intros Hbad.
  rewrite Hbad, andb_false_r in Hcache. cbn [andb] in Hcache.
  unfold useModesMessage. rewrite Hcheck, Hbad. cbn [negb orb].
  rewrite andb_false_r. rewrite Hcache. destruct w; reflexivity.
Qed.

Lemma rejected_frame_leaves_no_trace_witness :
  snd (decodeHexMessage atan2_stub default_config 1000 1000000 (replicate 14 0) mm_zero
         (cstr "garbage") world_init) = world_init.
Proof.
  apply (rejected_frame_leaves_no_trace atan2_stub default_config 1000 1000000
           (replicate 14 0) mm_zero (cstr "garbage") world_init eq_refl).
  vm_compute. reflexivity.
Defined.

(** X26: one flipped bit, seen from the decoder.  A valid DF11 or DF17
    frame with one bit flipped after the format field is decoded, with
    error correction on, as the original frame: the message bytes are
    the original ones, [errorbit] is the flipped position, the CRC is
    reported valid, and the address of the repaired frame does not enter
    the recency cache. *)
Theorem decodeModesMessage_one_flipped_bit :
  forall atan2 ag now cache mm0 (msg : list Z) (k : nat),
    length msg = MODES_LONG_MSG_BYTES -> bytes_ok msg ->
    let df := Z.shiftr (msg !!! 0%nat) 3 in
    df = 11 \/ df = 17 ->
    let bits := modesMessageLenByType df in
    modesChecksum msg bits = trailing_crc msg bits ->
    (5 <= k < bits)%nat ->
    let r := decodeModesMessage atan2 true ag now cache mm0 (flip_bit msg k) in
    mm_msg (fst r) = msg /\ mm_errorbit (fst r) = Z.of_nat k /\
    mm_crcok (fst r) = true /\ mm_crc (fst r) = trailing_crc msg bits /\
    snd r = cache.
Proof.
  intros atan2 ag now cache mm0 msg k. apply decode_repairs_flipped_bit.
Qed.

Lemma decodeModesMessage_one_flipped_bit_witness :
  let r := decodeModesMessage atan2_stub true false 1000 icao_cache_init mm_zero
             (flip_bit frame_klm 37) in
  mm_msg (fst r) = frame_klm /\ mm_errorbit (fst r) = 37 /\ snd r = icao_cache_init.
Proof.
  destruct (decodeModesMessage_one_flipped_bit atan2_stub false 1000 icao_cache_init
              mm_zero frame_klm 37 eq_refl frame_klm_bytes_ok (or_intror eq_refl) eq_refl
              ltac:(vm_compute; lia)) as [H1 [H2 [_ [_ H5]]]].
  cbv zeta. split; [exact H1|]. split; [exact H2 | exact H5].
Defined.

Section Partial.

Variable W : Type.
Variable nl : Z.
Variable handler : client -> W -> bool * W.

(** One read that completes no message: the data is appended to what the
    buffer holds and the function returns. *)
Lemma modesReadFromClient_partial (reads : list read_result) (c : client) (w : W)
    (pre junk d : list Z) :
  c_buf c = pre ++ junk -> c_buflen c = length pre ->
  length (c_buf c) = (MODES_CLIENT_BUF_SIZE + 1)%nat ->
  (0 < length d)%nat -> (length pre + length d < MODES_CLIENT_BUF_SIZE)%nat ->
  (forall x, In x (pre ++ d) -> x <> 0 /\ x <> nl) ->
  exists (c' : client) (junk' : list Z),
    c_buf c' = (pre ++ d) ++ junk' /\ c_buflen c' = length (pre ++ d) /\
    length (c_buf c') = (MODES_CLIENT_BUF_SIZE + 1)%nat /\
    c_fd c' = c_fd c /\ c_service c' = c_service c /\
    modesReadFromClient W [nl] handler (ReadData d :: reads) c w = (c', w, false).
Proof.
  intros Hbuf Hk Hlen Hd Hfit Hchars.
  unfold MODES_CLIENT_BUF_SIZE in *.
  assert (Hjunk : (length junk = 1025 - length pre)%nat)
    by (rewrite Hbuf, length_app in Hlen; lia).
  set (tl := drop 1 (drop (length d) junk)).
  set (buf1 := (pre ++ d) ++ 0 :: tl).
  assert (Hbuf1 : <[(length pre + length d)%nat := 0]> (buf_write (c_buf c) (length pre) d)
                  = buf1).
  { unfold buf_write. rewrite Hbuf.
    rewrite take_app_length, drop_app_add'; [|reflexivity].
    replace (pre ++ d ++ drop (length d) junk) with ((pre ++ d) ++ drop (length d) junk)
      by (rewrite <- app_assoc; reflexivity).
    replace (length pre + length d)%nat with (length (pre ++ d))
      by (rewrite length_app; reflexivity).
    rewrite insert_after_prefix by (rewrite length_drop; lia).
    reflexivity. }
  assert (Hlen1 : length buf1 = 1025%nat).
  { unfold buf1, tl. rewrite !length_app. cbn [length]. rewrite !length_drop. lia. }
  assert (Hstr1 : c_string buf1 = pre ++ d).
  { unfold buf1. apply c_string_app. intros Hin.
    destruct (Hchars 0 Hin) as [H _]. apply H. reflexivity. }
  exists (set_buf c buf1 (length pre + length d)), (0 :: tl).
  split; [reflexivity|]. split; [cbn [set_buf c_buflen]; rewrite length_app; reflexivity|].
  split; [exact Hlen1|]. split; [reflexivity|]. split; [reflexivity|].
  cbn [modesReadFromClient]. cbv zeta. unfold MODES_CLIENT_BUF_SIZE.
  rewrite Hk.
  rewrite (take_ge d) by lia.
  replace (length d =? 0)%nat with false by (symmetry; apply Nat.eqb_neq; lia).
  rewrite Hbuf1.
  cbn [scan_messages]. cbn [set_buf c_buf c_buflen c_fd c_service].
  rewrite Hstr1.
  rewrite strstr_byte_none
    by (intros Hin; destruct (Hchars nl Hin) as [_ H]; apply H; reflexivity).
  cbn [set_buf c_buf c_buflen c_fd c_service].
  replace (length pre + length d =? 1024)%nat with false
    by (symmetry; apply Nat.eqb_neq; lia).
  reflexivity.
Qed.

End Partial.

(** X27: an unfinished message waits in the buffer.  A read that brings
    no separator (and does not fill the buffer) is appended to what the
    buffer holds; the handler is not called, the state is unchanged, the
    client is kept, and the function returns without reading again. *)
Theorem modesReadFromClient_keeps_partial_message :
  forall (W : Type) (nl : Z) (handler : client -> W -> bool * W)
         (reads : list read_result) (c : client) (w : W) (pre junk d : list Z),
    c_buf c = pre ++ junk -> c_buflen c = length pre ->
    length (c_buf c) = (MODES_CLIENT_BUF_SIZE + 1)%nat ->
    (0 < length d)%nat -> (length pre + length d < MODES_CLIENT_BUF_SIZE)%nat ->
    (forall x, In x (pre ++ d) -> x <> 0 /\ x <> nl) ->
    exists (c' : client) (junk' : list Z),
      c_buf c' = (pre ++ d) ++ junk' /\ c_buflen c' = length (pre ++ d) /\
      length (c_buf c') = (MODES_CLIENT_BUF_SIZE + 1)%nat /\
      c_fd c' = c_fd c /\ c_service c' = c_service c /\
      modesReadFromClient W [nl] handler (ReadData d :: reads) c w = (c', w, false).
Proof.
  intros W nl handler reads c w pre junk d.
  apply modesReadFromClient_partial.
Qed.

Lemma modesReadFromClient_keeps_partial_message_witness :
  exists c' : client,
    c_buflen c' = 5%nat /\
    modesReadFromClient world [10]
      (raw_in_handler atan2_stub default_config 1000 1000000 (replicate 14 0) mm_zero)
      [ReadData (cstr "*8D48"); ReadEOF] (client_init 7 1) world_init
    = (c', world_init, false).
Proof.
  destruct (modesReadFromClient_keeps_partial_message world 10
              (raw_in_handler atan2_stub default_config 1000 1000000 (replicate 14 0) mm_zero)
              [ReadEOF] (client_init 7 1) world_init
              [] (replicate 1025 0) (cstr "*8D48")
              eq_refl eq_refl eq_refl
              ltac:(vm_compute; lia) ltac:(vm_compute; lia)
              ltac:(intros x Hx; vm_compute in Hx;
                    repeat (destruct Hx as [<- | Hx]; [split; discriminate|]);
                    contradiction))
    as [c' [junk' [_ [H2 [_ [_ [_ H6]]]]]]].
  exists c'. split; [exact H2 | exact H6].
Defined.

Lemma unread_nil (st : hex_state) :
  0 <= hex_buffer_idx st -> hex_buffer_len st <= hex_buffer_idx st -> unread st = [].
Proof.
  intros H0 H. unfold unread. apply drop_ge. rewrite length_take. lia.
Qed.

Lemma unread_cons (st : hex_state) :
  reader_ok st -> hex_buffer_idx st < hex_buffer_len st ->
  unread st = hex_buffer st !!! Z.to_nat (hex_buffer_idx st)
              :: drop (Z.to_nat (hex_buffer_idx st + 1))
                      (take (Z.to_nat (hex_buffer_len st)) (hex_buffer st)).
Proof.
  intros [Hb [_ [H0 Hl]]] Hlt. unfold unread, MODES_HEX_LEN in *.
  replace (Z.to_nat (hex_buffer_idx st + 1)) with (S (Z.to_nat (hex_buffer_idx st))) by lia.
  rewrite <- (lookup_total_take_lt (hex_buffer st) (Z.to_nat (hex_buffer_len st))
                (Z.to_nat (hex_buffer_idx st))) by lia.
  apply drop_S. apply list_lookup_lookup_total_lt. rewrite length_take. lia.
Qed.

Lemma readHexData_line_refill (file : bool) (fuel : nat) (c : list Z)
    (reads : list read_result) (st : hex_state) :
  hex_buffer_len st <= hex_buffer_idx st -> (0 < length c <= MODES_HEX_LEN)%nat ->
  readHexData_line file (S fuel) (ReadData c :: reads) st
  = readHexData_line file fuel reads (refilled c st).
Proof.
  intros Hempty Hc. cbn [readHexData_line].
  replace (hex_buffer_len st <=? hex_buffer_idx st) with true
    by (symmetry; apply Z.leb_le; lia).
  cbv zeta. unfold read_hex_buffer. cbv zeta.
  rewrite (take_ge c) by lia.
  cbn [hex_data hex_data_len hex_buffer hex_buffer_len hex_buffer_idx exit_flag].
  replace (Z.of_nat (length c) =? 0) with false by (symmetry; apply Z.eqb_neq; lia).
  rewrite andb_false_r. reflexivity.
Qed.

Lemma unread_refilled (c : list Z) (st : hex_state) : unread (refilled c st) = c.
Proof.
  unfold unread, refilled. cbn [hex_buffer hex_buffer_len hex_buffer_idx].
  rewrite Nat2Z.id. change (Z.to_nat 0) with 0%nat. rewrite drop_0.
  apply take_app_length.
Qed.

Lemma reading_refilled (done c : list Z) (st : hex_state) :
  reading done st -> (0 < length c <= MODES_HEX_LEN)%nat -> reading done (refilled c st).
Proof.
  intros [[Hb [Hd [H0 Hl]]] [Hlen Hdone]] Hc. unfold MODES_HEX_LEN in *.
  unfold reading, reader_ok, MODES_HEX_LEN, refilled.
  cbn [hex_data hex_data_len hex_buffer hex_buffer_len hex_buffer_idx].
  rewrite length_app, length_drop, Hb.
  split; [|split; assumption].
  split; [lia|]. split; [exact Hd|]. split; lia.
Qed.

(** The loop from the middle of a line: [done] is stored, [todo], a
    newline and [rest] are still to come, in the buffer and in the reads
    to follow, cut in any way into non-empty reads. *)
Lemma readHexData_line_assembles (file : bool) (todo : list Z) :
  forall (done : list Z) (st : hex_state) (chunks : list (list Z)) (rest : list Z)
         (more : list read_result),
    reading done st ->
    Forall (fun c => (0 < length c <= MODES_HEX_LEN)%nat) chunks ->
    unread st ++ concat chunks = todo ++ 10 :: rest ->
    ~ In 10 todo -> (length done + length todo < MODES_HEX_LEN)%nat ->
    exists (fuel : nat) (st' : hex_state) (left : list (list Z)),
      readHexData_line file fuel (chunks_data chunks ++ more) st = LineReady st' /\
      take (length (done ++ todo)) (hex_data st') = done ++ todo /\
      hex_data st' !!! length (done ++ todo) = 0 /\
      hex_data_len st' = Z.of_nat (length (done ++ todo)) /\
      reader_ok st' /\ (exists used, chunks = used ++ left) /\
      unread st' ++ concat left = rest.
Proof.
  induction todo as [|x todo IH];
    intros done st chunks rest more [Hok [Hlen Hdone]] Hchunks Hstream Hnl Hfit.
  - (* The next character is the newline. *)
    assert (Hnext : forall st1 chunks1,
              reading done st1 -> hex_buffer_idx st1 < hex_buffer_len st1 ->
              unread st1 ++ concat chunks1 = 10 :: rest ->
              exists st', readHexData_line file 1 (chunks_data chunks1 ++ more) st1
                          = LineReady st' /\
                take (length (done ++ [])) (hex_data st') = done ++ [] /\
                hex_data st' !!! length (done ++ []) = 0 /\
                hex_data_len st' = Z.of_nat (length (done ++ [])) /\
                reader_ok st' /\ unread st' ++ concat chunks1 = rest).
    { intros st1 chunks1 [Hok1 [Hlen1 Hdone1]] Hlt Hs.
      rewrite (unread_cons st1 Hok1 Hlt) in Hs. cbn [app] in Hs.
      injection Hs as Hc Hs.
      destruct Hok1 as [Hb1 [Hd1 [H01 Hl1]]]. unfold MODES_HEX_LEN in *.
      cbn [readHexData_line].
      replace (hex_buffer_len st1 <=? hex_buffer_idx st1) with false
        by (symmetry; apply Z.leb_gt; lia).
      rewrite Hc. change (10 =? 10) with true. cbv iota.
      replace (hex_data_len st1 <? Z.of_nat MODES_HEX_LEN) with true
        by (symmetry; apply Z.ltb_lt; unfold MODES_HEX_LEN; cbn [length] in *; lia).
      eexists. split; [reflexivity|].
      cbn [hex_data hex_data_len hex_buffer hex_buffer_len hex_buffer_idx].
      rewrite app_nil_r. rewrite Hlen1, Nat2Z.id.
      split; [rewrite take_insert_ge by lia; exact Hdone1|].
      split; [apply list_lookup_total_insert_eq; cbn [length] in *; lia|].
      split; [reflexivity|].
      split; [|exact Hs].
      unfold reader_ok, MODES_HEX_LEN.
      cbn [hex_data hex_data_len hex_buffer hex_buffer_len hex_buffer_idx].
      rewrite length_insert. repeat split; try assumption; lia. }
    destruct (Z.leb_spec (hex_buffer_len st) (hex_buffer_idx st)) as [Hempty|Hlt].
    + (* The buffer is used up: the next read brings it. *)
      rewrite (unread_nil st) in Hstream by (destruct Hok as [_ [_ [H0 _]]]; lia).
      cbn [app] in Hstream.
      destruct chunks as [|c chunks]; [discriminate|].
      apply Forall_cons in Hchunks. destruct Hchunks as [Hc Hchunks].
      destruct (Hnext (refilled c st) chunks (reading_refilled done c st
                  (conj Hok (conj Hlen Hdone)) Hc)
                  ltac:(unfold refilled; cbn [hex_buffer_idx hex_buffer_len]; lia)
                  ltac:(rewrite unread_refilled; exact Hstream))
        as [st' [Hrun [H1 [H2 [H3 [H4 H5]]]]]].
      exists 2%nat, st', chunks.
      split.
      { cbn [chunks_data List.map app].
        rewrite readHexData_line_refill by (try exact Hc; lia). exact Hrun. }
      split; [exact H1|]. split; [exact H2|]. split; [exact H3|]. split; [exact H4|].
      split; [exists [c]; reflexivity | exact H5].
    + destruct (Hnext st chunks (conj Hok (conj Hlen Hdone)) Hlt Hstream)
        as [st' [Hrun [H1 [H2 [H3 [H4 H5]]]]]].
      exists 1%nat, st', chunks.
      split; [exact Hrun|]. split; [exact H1|]. split; [exact H2|]. split; [exact H3|].
      split; [exact H4|]. split; [exists []; reflexivity | exact H5].
  - (* The next character belongs to the line. *)
    assert (Hx : x <> 10) by (intros E; apply Hnl; left; exact E).
    assert (Hnl' : ~ In 10 todo) by (intros Hin; apply Hnl; right; exact Hin).
    cbn [length] in Hfit.
    assert (Hnext : forall st1 chunks1,
              reading done st1 -> hex_buffer_idx st1 < hex_buffer_len st1 ->
              unread st1 ++ concat chunks1 = x :: todo ++ 10 :: rest ->
              Forall (fun c => (0 < length c <= MODES_HEX_LEN)%nat) chunks1 ->
              exists (fuel : nat) (st' : hex_state) (left : list (list Z)),
                readHexData_line file (S fuel) (chunks_data chunks1 ++ more) st1
                = LineReady st' /\
                take (length (done ++ x :: todo)) (hex_data st') = done ++ x :: todo /\
                hex_data st' !!! length (done ++ x :: todo) = 0 /\
                hex_data_len st' = Z.of_nat (length (done ++ x :: todo)) /\
                reader_ok st' /\ (exists used, chunks1 = used ++ left) /\
                unread st' ++ concat left = rest).
    { intros st1 chunks1 [Hok1 [Hlen1 Hdone1]] Hlt Hs Hch1.
      rewrite (unread_cons st1 Hok1 Hlt) in Hs. cbn [app] in Hs.
      injection Hs as Hc Hs.
      pose proof Hok1 as [Hb1 [Hd1 [H01 Hl1]]]. unfold MODES_HEX_LEN in *.
      set (st2 := {| hex_buffer := hex_buffer st1; hex_buffer_len := hex_buffer_len st1;
                     hex_buffer_idx := hex_buffer_idx st1 + 1;
                     hex_data := <[Z.to_nat (hex_data_len st1) :=
                                     hex_buffer st1 !!! Z.to_nat (hex_buffer_idx st1)]>
                                   (hex_data st1);
                     hex_data_len := hex_data_len st1 + 1;
                     exit_flag := exit_flag st1 |}).
      assert (Hr2 : reading (done ++ [x]) st2).
      { unfold reading, reader_ok, MODES_HEX_LEN, st2.
        cbn [hex_data hex_data_len hex_buffer hex_buffer_len hex_buffer_idx].
        rewrite length_insert, length_app. cbn [length].
        split; [repeat split; try assumption; lia|].
        split; [lia|].
        rewrite Hlen1, Nat2Z.id, Hc.
        replace (length done + 1)%nat with (S (length done)) by lia.
        rewrite (take_S_r _ _ x) by (apply list_lookup_insert_eq; lia).
        rewrite take_insert_ge by lia. rewrite Hdone1. reflexivity. }
      destruct (IH (done ++ [x]) st2 chunks1 rest more Hr2 Hch1
                  ltac:(unfold unread, st2; cbn [hex_buffer hex_buffer_len hex_buffer_idx];
                        exact Hs)
                  Hnl' ltac:(rewrite length_app; cbn [length]; lia))
        as [fuel [st' [left [Hrun [H1 [H2 [H3 [H4 [H5 H6]]]]]]]]].
      exists fuel, st', left.
      replace ((done ++ [x]) ++ todo) with (done ++ x :: todo) in H1, H2, H3
        by (rewrite <- app_assoc; reflexivity).
      split;
        [|split; [exact H1|]; split; [exact H2|]; split; [exact H3|];
          split; [exact H4|]; split; [exact H5 | exact H6]].
      cbn [readHexData_line].
      replace (hex_buffer_len st1 <=? hex_buffer_idx st1) with false
        by (symmetry; apply Z.leb_gt; lia).
      rewrite Hc. replace (x =? 10) with false by (symmetry; apply Z.eqb_neq; exact Hx).
      replace (Z.of_nat MODES_HEX_LEN <=? hex_data_len st1) with false
        by (symmetry; apply Z.leb_gt; unfold MODES_HEX_LEN; lia).
      fold st2. rewrite <- Hc. exact Hrun. }
    destruct (Z.leb_spec (hex_buffer_len st) (hex_buffer_idx st)) as [Hempty|Hlt].
    + rewrite (unread_nil st) in Hstream by (destruct Hok as [_ [_ [H0 _]]]; lia).
      cbn [app] in Hstream.
      destruct chunks as [|c chunks]; [discriminate|].
      apply Forall_cons in Hchunks. destruct Hchunks as [Hc Hchunks].
      destruct (Hnext (refilled c st) chunks (reading_refilled done c st
                  (conj Hok (conj Hlen Hdone)) Hc)
                  ltac:(unfold refilled; cbn [hex_buffer_idx hex_buffer_len]; lia)
                  ltac:(rewrite unread_refilled; exact Hstream) Hchunks)
        as [fuel [st' [left [Hrun [H1 [H2 [H3 [H4 [[used Hu] H6]]]]]]]]].
      exists (S (S fuel)), st', left.
      split.
      { cbn [chunks_data List.map app].
        rewrite readHexData_line_refill by (try exact Hc; lia). exact Hrun. }
      split; [exact H1|]. split; [exact H2|]. split; [exact H3|]. split; [exact H4|].
      split; [exists (c :: used); rewrite Hu; reflexivity | exact H6].
    + destruct (Hnext st chunks (conj Hok (conj Hlen Hdone)) Hlt Hstream Hchunks)
        as [fuel [st' [left [Hrun [H1 [H2 [H3 [H4 [H5 H6]]]]]]]]].
      exists (S fuel), st', left.
      split; [exact Hrun|]. split; [exact H1|]. split; [exact H2|]. split; [exact H3|].
      split; [exact H4|]. split; [exact H5 | exact H6].
Qed.

(** The loop makes sure a character is in the buffer: at most one read. *)
Lemma readHexData_line_next (file : bool) (done : list Z) (st : hex_state)
    (chunks : list (list Z)) (y : Z) (tail : list Z) (more : list read_result) :
  reading done st ->
  Forall (fun c => (0 < length c <= MODES_HEX_LEN)%nat) chunks ->
  unread st ++ concat chunks = y :: tail ->
  exists (fuel : nat) (st1 : hex_state) (left : list (list Z)),
    (forall k, readHexData_line file (fuel + k) (chunks_data chunks ++ more) st
               = readHexData_line file k (chunks_data left ++ more) st1) /\
    reading done st1 /\ hex_buffer_idx st1 < hex_buffer_len st1 /\
    hex_buffer st1 !!! Z.to_nat (hex_buffer_idx st1) = y /\
    Forall (fun c => (0 < length c <= MODES_HEX_LEN)%nat) left /\
    unread st1 ++ concat left = y :: tail.
Proof.
  intros Hr Hchunks Hstream.
  destruct (Z.leb_spec (hex_buffer_len st) (hex_buffer_idx st)) as [Hempty|Hlt].
  - rewrite (unread_nil st) in Hstream
      by (destruct Hr as [[_ [_ [H0 _]]] _]; lia).
    cbn [app] in Hstream.
    destruct chunks as [|c chunks]; [discriminate|].
    apply Forall_cons in Hchunks. destruct Hchunks as [Hc Hchunks].
    exists 1%nat, (refilled c st), chunks.
    assert (Hlt : hex_buffer_idx (refilled c st) < hex_buffer_len (refilled c st))
      by (unfold refilled; cbn [hex_buffer_idx hex_buffer_len]; lia).
    assert (Hr1 := reading_refilled done c st Hr Hc).
    split; [|split; [exact Hr1|]; split; [exact Hlt|]; split; [|split; [exact Hchunks|]]].
    + intros k. cbn [chunks_data List.map app Nat.add].
      apply readHexData_line_refill; [lia | exact Hc].
    + pose proof (unread_cons (refilled c st) (proj1 Hr1) Hlt) as Hu.
      rewrite unread_refilled in Hu. cbn [concat] in Hstream.
      rewrite Hu in Hstream. cbn [app] in Hstream. injection Hstream as Hy _. exact Hy.
    + rewrite unread_refilled. exact Hstream.
  - exists 0%nat, st, chunks.
    split; [intros k; reflexivity|]. split; [exact Hr|]. split; [exact Hlt|].
    split; [|split; [exact Hchunks | exact Hstream]].
    rewrite (unread_cons st (proj1 Hr) Hlt) in Hstream. cbn [app] in Hstream.
    injection Hstream as Hy _. exact Hy.
Qed.

(** The loop stores the characters of [todo], which hold no newline and
    fit in [hex_data]. *)
Lemma readHexData_line_collects (file : bool) (todo : list Z) :
  forall (done : list Z) (st : hex_state) (chunks : list (list Z)) (tail : list Z)
         (more : list read_result),
    reading done st ->
    Forall (fun c => (0 < length c <= MODES_HEX_LEN)%nat) chunks ->
    unread st ++ concat chunks = todo ++ tail ->
    ~ In 10 todo -> (length done + length todo <= MODES_HEX_LEN)%nat ->
    exists (fuel : nat) (st2 : hex_state) (left : list (list Z)),
      (forall k, readHexData_line file (fuel + k) (chunks_data chunks ++ more) st
                 = readHexData_line file k (chunks_data left ++ more) st2) /\
      reading (done ++ todo) st2 /\
      Forall (fun c => (0 < length c <= MODES_HEX_LEN)%nat) left /\
      unread st2 ++ concat left = tail.
Proof.
  induction todo as [|x todo IH];
    intros done st chunks tail more Hr Hchunks Hstream Hnl Hfit.
  - exists 0%nat, st, chunks. rewrite app_nil_r.
    split; [intros k; reflexivity|]. split; [exact Hr|]. split; [exact Hchunks|].
    exact Hstream.
  - assert (Hx : x <> 10) by (intros E; apply Hnl; left; exact E).
    assert (Hnl' : ~ In 10 todo) by (intros Hin; apply Hnl; right; exact Hin).
    cbn [length] in Hfit. cbn [app] in Hstream.
    destruct (readHexData_line_next file done st chunks x (todo ++ tail) more
                Hr Hchunks Hstream)
      as [f1 [st1 [left1 [Hrun1 [Hr1 [Hlt [Hc [Hch1 Hs1]]]]]]]].
    pose proof Hr1 as [Hok1 [Hlen1 Hdone1]].
    pose proof Hok1 as [Hb1 [Hd1 [H01 Hl1]]]. unfold MODES_HEX_LEN in *.
    set (st2 := {| hex_buffer := hex_buffer st1; hex_buffer_len := hex_buffer_len st1;
                   hex_buffer_idx := hex_buffer_idx st1 + 1;
                   hex_data := <[Z.to_nat (hex_data_len st1) :=
                                   hex_buffer st1 !!! Z.to_nat (hex_buffer_idx st1)]>
                                 (hex_data st1);
                   hex_data_len := hex_data_len st1 + 1;
                   exit_flag := exit_flag st1 |}).
    assert (Hr2 : reading (done ++ [x]) st2).
    { unfold reading, reader_ok, MODES_HEX_LEN, st2.
      cbn [hex_data hex_data_len hex_buffer hex_buffer_len hex_buffer_idx].
      rewrite length_insert, length_app. cbn [length].
      split; [split; [exact Hb1|]; split; [exact Hd1|]; split; lia|].
      split; [lia|].
      rewrite Hlen1, Nat2Z.id, Hc.
      replace (length done + 1)%nat with (S (length done)) by lia.
      rewrite (take_S_r _ _ x) by (apply list_lookup_insert_eq; lia).
      rewrite take_insert_ge by lia. rewrite Hdone1. reflexivity. }
    assert (Hs2 : unread st2 ++ concat left1 = todo ++ tail).
    { rewrite (unread_cons st1 Hok1 Hlt) in Hs1. cbn [app] in Hs1.
      injection Hs1 as _ Hs1. exact Hs1. }
    destruct (IH (done ++ [x]) st2 left1 tail more Hr2 Hch1 Hs2 Hnl'
                ltac:(rewrite length_app; cbn [length]; lia))
      as [f2 [st3 [left [Hrun2 [Hr3 [Hch3 Hs3]]]]]].
    exists (f1 + S f2)%nat, st3, left.
    replace ((done ++ [x]) ++ todo) with (done ++ x :: todo) in Hr3
      by (rewrite <- app_assoc; reflexivity).
    split; [|split; [exact Hr3|]; split; [exact Hch3 | exact Hs3]].
    intros k. rewrite <- Nat.add_assoc, Hrun1.
    cbn [Nat.add readHexData_line].
    replace (hex_buffer_len st1 <=? hex_buffer_idx st1) with false
      by (symmetry; apply Z.leb_gt; lia).
    rewrite Hc. replace (x =? 10) with false by (symmetry; apply Z.eqb_neq; exact Hx).
    replace (Z.of_nat MODES_HEX_LEN <=? hex_data_len st1) with false
      by (symmetry; apply Z.leb_gt; unfold MODES_HEX_LEN; lia).
    rewrite <- Hc. fold st2. apply Hrun2.
Qed.

(** X28: a line of the serial port is assembled whatever way [read]
    cuts the stream.  Between two lines, let the characters still in the
    buffer followed by those of the coming reads (each of 1 to 64 bytes)
    be a line of fewer than 64 characters, a newline and a rest.  Then
    the loop ends with the line in [hex_data], terminated by a NUL, and
    with exactly the rest left in the buffer and in the reads not yet
    made. *)
Theorem readHexData_assembles_line :
  forall (file : bool) (st : hex_state) (chunks : list (list Z))
         (line rest : list Z) (more : list read_result),
    reader_ok st -> hex_data_len st = 0 ->
    Forall (fun c => (0 < length c <= MODES_HEX_LEN)%nat) chunks ->
    unread st ++ concat chunks = line ++ 10 :: rest ->
    ~ In 10 line -> (length line < MODES_HEX_LEN)%nat ->
    exists (fuel : nat) (st' : hex_state) (left : list (list Z)),
      readHexData_line file fuel (chunks_data chunks ++ more) st = LineReady st' /\
      take (length line) (hex_data st') = line /\
      hex_data st' !!! length line = 0 /\
      hex_data_len st' = Z.of_nat (length line) /\
      reader_ok st' /\ (exists used, chunks = used ++ left) /\
      unread st' ++ concat left = rest.
Proof.
  intros file st chunks line rest more Hok Hlen Hchunks Hstream Hnl Hfit.
  apply (readHexData_line_assembles file line [] st chunks rest more);
    try assumption.
  split; [exact Hok|]. split; [exact Hlen | apply take_0].
Qed.

Lemma hex_state_init_ok : reader_ok hex_state_init.
Proof. unfold reader_ok, hex_state_init, MODES_HEX_LEN. cbn. repeat split; lia. Qed.

Lemma readHexData_assembles_line_witness :
  exists (fuel : nat) (st' : hex_state),
    readHexData_line false fuel
      (chunks_data [cstr "*8D4840D6202C"; cstr "C371C32CE0576098;" ++ 10 :: cstr "*5D"])
      hex_state_init = LineReady st' /\
    take 30 (hex_data st') = cstr "*8D4840D6202CC371C32CE0576098;" /\
    hex_data st' !!! 30%nat = 0.
Proof.
  destruct (readHexData_assembles_line false hex_state_init
              [cstr "*8D4840D6202C"; cstr "C371C32CE0576098;" ++ 10 :: cstr "*5D"]
              (cstr "*8D4840D6202CC371C32CE0576098;") (cstr "*5D") []
              hex_state_init_ok eq_refl
              ltac:(unfold MODES_HEX_LEN; repeat constructor; vm_compute; lia)
              eq_refl
              ltac:(intros Hin; vm_compute in Hin;
                    repeat (destruct Hin as [Hin | Hin]; [discriminate|]); contradiction)
              ltac:(vm_compute; lia))
    as [fuel [st' [left [Hrun [H1 [H2 _]]]]]].
  exists fuel, st'. rewrite app_nil_r in Hrun.
  split; [exact Hrun|]. split; [exact H1 | exact H2].
Defined.

(** X29: lines of 64 characters or more.  When 64 characters without a
    newline have been stored and the next character is a newline, the
    loop stores the terminator at [hex_data[64]], one cell past the end
    of the array.  When the next character is not a newline, the loop is
    left with [hex_data] full and no terminator in it, and the rest of
    the line stays in the stream, to be read as the next line. *)
Theorem readHexData_line_overflow :
  forall (file : bool) (st : hex_state) (chunks : list (list Z))
         (line : list Z) (y : Z) (tail : list Z) (more : list read_result),
    reader_ok st -> hex_data_len st = 0 ->
    Forall (fun c => (0 < length c <= MODES_HEX_LEN)%nat) chunks ->
    unread st ++ concat chunks = line ++ y :: tail ->
    ~ In 10 line -> length line = MODES_HEX_LEN ->
    exists (fuel : nat),
      if y =? 10
      then readHexData_line file fuel (chunks_data chunks ++ more) st = LineOutOfBounds
      else exists (st' : hex_state) (left : list (list Z)),
             readHexData_line file fuel (chunks_data chunks ++ more) st = LineFull st' /\
             hex_data st' = line /\
             unread st' ++ concat left = y :: tail.
Proof.
  intros file st chunks line y tail more Hok Hlen Hchunks Hstream Hnl Hfull.
  destruct (readHexData_line_collects file line [] st chunks (y :: tail) more
              ltac:(split; [exact Hok|]; split; [exact Hlen | apply take_0])
              Hchunks Hstream Hnl ltac:(cbn [length]; lia))
    as [f1 [st2 [left1 [Hrun1 [Hr2 [Hch2 Hs2]]]]]].
  cbn [app] in Hr2.
  destruct (readHexData_line_next file line st2 left1 y tail more Hr2 Hch2 Hs2)
    as [f2 [st3 [left [Hrun2 [Hr3 [Hlt [Hc [Hch3 Hs3]]]]]]]].
  destruct Hr3 as [[Hb [Hd [H0 Hl]]] [Hlen3 Hdone3]].
  exists (f1 + (f2 + 1))%nat. rewrite Hrun1, Hrun2.
  cbn [readHexData_line].
  replace (hex_buffer_len st3 <=? hex_buffer_idx st3) with false
    by (symmetry; apply Z.leb_gt; lia).
  rewrite Hc.
  destruct (Z.eqb_spec y 10) as [Hy|Hy].
  - replace (hex_data_len st3 <? Z.of_nat MODES_HEX_LEN) with false
      by (symmetry; apply Z.ltb_ge; lia).
    reflexivity.
  - replace (Z.of_nat MODES_HEX_LEN <=? hex_data_len st3) with true
      by (symmetry; apply Z.leb_le; lia).
    exists st3, left. split; [reflexivity|]. split; [|exact Hs3].
    rewrite <- Hdone3. symmetry. apply take_ge. lia.
Qed.

Lemma readHexData_line_overflow_witness :
  exists fuel : nat,
    readHexData_line false fuel
      (chunks_data [replicate 64 65; [10]]) hex_state_init = LineOutOfBounds.
Proof.
  destruct (readHexData_line_overflow false hex_state_init [replicate 64 65; [10]]
              (replicate 64 65) 10 [] []
              hex_state_init_ok eq_refl
              ltac:(unfold MODES_HEX_LEN; repeat constructor; vm_compute; lia)
              eq_refl
              ltac:(intros Hin; vm_compute in Hin;
                    repeat (destruct Hin as [Hin | Hin]; [discriminate|]); contradiction)
              eq_refl)
    as [fuel Hrun].
  exists fuel. rewrite app_nil_r in Hrun. exact Hrun.
Defined.
